(** * open-images-starter: the Sample / Region model and the dataset Loader

    A shallow embedding of [tools/util/region.py], [modules/detect_region.py],
    [modules/sample.py] and [modules/loader.py], with the properties of the
    specification stated against it.

    Conventions.
    - A Python number is a [pynum]: an unbounded [int] ([Z]) or a binary64
      [float] (Rocq's primitive floats, which are IEEE 754 binary64 as
      Python's are).
    - A Python exception is a constructor of [exn]; a call that may raise
      returns a [result].
    - A method that assigns to the fields of [self] is a [method]: a function
      of the object's state that returns the outcome together with the state
      the object is left in, also when an exception is raised half-way.
    - Objects that are shared by reference live in a [heap]; files live in a
      [filesystem]. *)

From Stdlib Require Import ZArith Lia Bool List Ascii String.
From Stdlib Require Import DecimalString DecimalPos DecimalZ.
From Stdlib Require Import PrimFloat SpecFloat FloatOps.
From stdpp Require Import gmap strings list.

Open Scope Z_scope.
Set Warnings "-register-all".

(* ===================================================================== *)
(** * Exceptions and results *)
(* ===================================================================== *)

(** The exceptions the modelled code can raise.  The two the repository
    raises itself are plain [Exception]s told apart by their message:
    - [InvalidGeometry]: [Exception("Invalid Input", "Right ... must be
      greater than left ...")] and its bottom/top twin in [Region.set_rect];
    - [FileNotFound]: [Exception("File ... doesn't exist! ...")] in
      [Loader.load_sample_set_from_file].
    The others are the interpreter's own. *)
Inductive exn : Set :=
| InvalidGeometry
| FileNotFound
| ValueError
| OverflowError
| TypeError
| KeyError
| IndexError
| JSONDecodeError.

Inductive result (A : Type) : Type :=
| Ok (a : A)
| Err (e : exn).
Arguments Ok {A} a.
Arguments Err {A} e.

Definition bind {A B} (m : result A) (k : A -> result B) : result B :=
  match m with
  | Ok a => k a
  | Err e => Err e
  end.

Notation "x <- m ;; k" := (bind m (fun x => k))
  (at level 100, m at next level, right associativity).

(** [[f(x) for x in xs]]: the first exception aborts the comprehension. *)
Fixpoint map_result {A B} (f : A -> result B) (xs : list A) : result (list B) :=
  match xs with
  | [] => Ok []
  | x :: xs' =>
      y <- f x ;;
      ys <- map_result f xs' ;;
      Ok (y :: ys)
  end.

(** A loop [for x in xs: s = body(x, s)] over a state [s]. *)
Fixpoint fold_result {A S} (body : A -> S -> result S) (xs : list A) (s : S)
  : result S :=
  match xs with
  | [] => Ok s
  | x :: xs' =>
      s' <- body x s ;;
      fold_result body xs' s'
  end.

(* ===================================================================== *)
(** * Python numbers *)
(* ===================================================================== *)

Inductive pynum : Set :=
| PyInt (z : Z)
| PyFloat (f : float).

(** [float(z)] for an [int]: the nearest binary64 (ties to even), or
    [OverflowError] when it is out of range. *)
Definition float_of_Z (z : Z) : result float :=
  match binary_normalize prec emax z 0 false with
  | S754_infinity _ => Err OverflowError
  | sf => Ok (SF2Prim sf)
  end.

(** [int(f)] for a [float]: truncation towards zero. *)
Definition float_int (f : float) : result Z :=
  match Prim2SF f with
  | S754_nan => Err ValueError
  | S754_infinity _ => Err OverflowError
  | S754_zero _ => Ok 0
  | S754_finite s m e => Ok (cond_Zopp s (Z.shiftl (Zpos m) e))
  end.

(** The exact value of a finite float, as [(n, k)] for [n / 2^k]. *)
Definition float_exact (s : bool) (m : positive) (e : Z) : Z * Z :=
  if 0 <=? e then (cond_Zopp s (Z.shiftl (Zpos m) e), 0)
  else (cond_Zopp s (Zpos m), - e).

(** [z < f] and [f < z]: Python compares an [int] with a [float] exactly. *)
Definition Z_lt_float (z : Z) (f : float) : bool :=
  match Prim2SF f with
  | S754_nan => false
  | S754_infinity s => negb s
  | S754_zero _ => z <? 0
  | S754_finite s m e =>
      let '(n, k) := float_exact s m e in Z.shiftl z k <? n
  end.

Definition float_lt_Z (f : float) (z : Z) : bool :=
  match Prim2SF f with
  | S754_nan => false
  | S754_infinity s => s
  | S754_zero _ => 0 <? z
  | S754_finite s m e =>
      let '(n, k) := float_exact s m e in n <? Z.shiftl z k
  end.

(** [a < b]. *)
Definition py_lt (a b : pynum) : bool :=
  match a, b with
  | PyInt x, PyInt y => x <? y
  | PyFloat x, PyFloat y => PrimFloat.ltb x y
  | PyInt x, PyFloat y => Z_lt_float x y
  | PyFloat x, PyInt y => float_lt_Z x y
  end.

(** The [float] an operand of mixed arithmetic is converted to. *)
Definition as_float (a : pynum) : result float :=
  match a with
  | PyInt z => float_of_Z z
  | PyFloat f => Ok f
  end.

(** [a - b] and [a + b]: exact on two [int]s, binary64 otherwise. *)
Definition py_sub (a b : pynum) : result pynum :=
  match a, b with
  | PyInt x, PyInt y => Ok (PyInt (x - y))
  | _, _ =>
      fa <- as_float a ;;
      fb <- as_float b ;;
      Ok (PyFloat (PrimFloat.sub fa fb))
  end.

Definition py_add (a b : pynum) : result pynum :=
  match a, b with
  | PyInt x, PyInt y => Ok (PyInt (x + y))
  | _, _ =>
      fa <- as_float a ;;
      fb <- as_float b ;;
      Ok (PyFloat (PrimFloat.add fa fb))
  end.

(** [f // 2] for a [float]: the floor of the exact quotient, as a float; a
    zero result takes the sign of [f], and [inf // 2] and [nan // 2] are
    [nan]. *)
Definition float_floordiv2 (f : float) : float :=
  match Prim2SF f with
  | S754_nan | S754_infinity _ => nan
  | S754_zero _ => f
  | S754_finite s m e =>
      let q := Z.shiftl (cond_Zopp s (Zpos m)) (e - 1) in
      if q =? 0 then zero
      else SF2Prim (binary_normalize prec emax q 0 false)
  end.

(** [a // 2]: floor division, on [int] and on [float] alike. *)
Definition py_floordiv2 (a : pynum) : pynum :=
  match a with
  | PyInt z => PyInt (z / 2)
  | PyFloat f => PyFloat (float_floordiv2 f)
  end.

(** [int(a)]. *)
Definition py_int (a : pynum) : result pynum :=
  match a with
  | PyInt z => Ok (PyInt z)
  | PyFloat f => z <- float_int f ;; Ok (PyInt z)
  end.

(** [a > b]. *)
Definition py_gt (a b : pynum) : bool := py_lt b a.

(** [a * b]: exact on two [int]s, binary64 otherwise. *)
Definition py_mul (a b : pynum) : result pynum :=
  match a, b with
  | PyInt x, PyInt y => Ok (PyInt (x * y))
  | _, _ =>
      fa <- as_float a ;;
      fb <- as_float b ;;
      Ok (PyFloat (PrimFloat.mul fa fb))
  end.

(** [abs(a)]. *)
Definition py_abs (a : pynum) : pynum :=
  match a with
  | PyInt z => PyInt (Z.abs z)
  | PyFloat f => PyFloat (PrimFloat.abs f)
  end.

Definition is_int (a : pynum) : Prop :=
  match a with PyInt _ => True | PyFloat _ => False end.

Definition is_float (a : pynum) : Prop :=
  match a with PyInt _ => False | PyFloat _ => True end.

(* ===================================================================== *)
(** * Methods: statements over the fields of [self] *)
(* ===================================================================== *)

(** A method body over an object state [S].  The state that comes back is
    the one the object is left in: an exception does not undo the
    assignments made before it. *)
Definition method (S A : Type) : Type := S -> result A * S.

(** [pass]. *)
Definition skip {S} : method S unit := fun self => (Ok tt, self).

(** [raise e]. *)
Definition raise {S} (e : exn) : method S unit := fun self => (Err e, self).

(** [self.fld = expr]: [expr] is evaluated over [self], then stored. *)
Definition store {S V} (fld : V -> S -> S) (expr : S -> result V)
  : method S unit :=
  fun self =>
    match expr self with
    | Ok v => (Ok tt, fld v self)
    | Err e => (Err e, self)
    end.

(** [s1; s2]. *)
Definition seq {S} (s1 s2 : method S unit) : method S unit :=
  fun self =>
    match s1 self with
    | (Ok _, self') => s2 self'
    | (Err e, self') => (Err e, self')
    end.

Notation "s1 >> s2" := (seq s1 s2) (at level 65, right associativity).

(** Running the body on a local object that is returned at the end: when
    the body raises, the local object is gone with it. *)
Definition returning {S} (body : method S unit) (self : S) : result S :=
  match body self with
  | (Ok _, self') => Ok self'
  | (Err e, _) => Err e
  end.

(* ===================================================================== *)
(** * tools/util/region.py *)
(* ===================================================================== *)

Module Region.

Record t : Set := mk {
  _left : pynum;
  _right : pynum;
  _top : pynum;
  _bottom : pynum;
  _x : pynum;
  _y : pynum;
  _width : pynum;
  _height : pynum;
  _force_int : bool
}.

Definition with_left (v : pynum) (r : t) : t :=
  mk v (_right r) (_top r) (_bottom r) (_x r) (_y r) (_width r) (_height r)
     (_force_int r).
Definition with_right (v : pynum) (r : t) : t :=
  mk (_left r) v (_top r) (_bottom r) (_x r) (_y r) (_width r) (_height r)
     (_force_int r).
Definition with_top (v : pynum) (r : t) : t :=
  mk (_left r) (_right r) v (_bottom r) (_x r) (_y r) (_width r) (_height r)
     (_force_int r).
Definition with_bottom (v : pynum) (r : t) : t :=
  mk (_left r) (_right r) (_top r) v (_x r) (_y r) (_width r) (_height r)
     (_force_int r).
Definition with_x (v : pynum) (r : t) : t :=
  mk (_left r) (_right r) (_top r) (_bottom r) v (_y r) (_width r) (_height r)
     (_force_int r).
Definition with_y (v : pynum) (r : t) : t :=
  mk (_left r) (_right r) (_top r) (_bottom r) (_x r) v (_width r) (_height r)
     (_force_int r).
Definition with_width (v : pynum) (r : t) : t :=
  mk (_left r) (_right r) (_top r) (_bottom r) (_x r) (_y r) v (_height r)
     (_force_int r).
Definition with_height (v : pynum) (r : t) : t :=
  mk (_left r) (_right r) (_top r) (_bottom r) (_x r) (_y r) (_width r) v
     (_force_int r).

(** [self._fld = value] for an argument [value]. *)
Definition put (fld : pynum -> t -> t) (value : pynum) : method t unit :=
  store fld (fun _ => Ok value).

Definition convert_to_int : method t unit :=
  store with_width (fun self => py_int (_width self)) >>
  store with_height (fun self => py_int (_height self)) >>
  store with_left (fun self => py_int (_left self)) >>
  store with_right (fun self => py_int (_right self)) >>
  store with_top (fun self => py_int (_top self)) >>
  store with_bottom (fun self => py_int (_bottom self)) >>
  store with_x (fun self => py_int (_x self)) >>
  store with_y (fun self => py_int (_y self)).

Definition if_force_int (body : method t unit) : method t unit :=
  fun self => if _force_int self then body self else skip self.

Definition _calibrate_to_rect : method t unit :=
  if_force_int convert_to_int >>
  store with_width (fun self => py_sub (_right self) (_left self)) >>
  store with_height (fun self => py_sub (_bottom self) (_top self)) >>
  store with_x
    (fun self => py_add (_left self) (py_floordiv2 (_width self))) >>
  store with_y
    (fun self => py_add (_top self) (py_floordiv2 (_height self))).

Definition _calibrate_to_xy : method t unit :=
  if_force_int convert_to_int >>
  (fun self =>
     let half_width := py_floordiv2 (_width self) in
     let half_height := py_floordiv2 (_height self) in
     (store with_left (fun self => py_sub (_x self) half_width) >>
      store with_right (fun self => py_add (_x self) half_width) >>
      store with_top (fun self => py_sub (_y self) half_height) >>
      store with_bottom (fun self => py_add (_y self) half_height)) self).

Definition set_rect (left right top bottom : pynum) : method t unit :=
  if py_lt right left then raise InvalidGeometry
  else if py_lt bottom top then raise InvalidGeometry
  else
    put with_left left >>
    put with_right right >>
    put with_top top >>
    put with_bottom bottom >>
    _calibrate_to_rect.

(** [x] and [y] default to [None]. *)
Definition set_xy (x y : option pynum) : method t unit :=
  match x with Some v => put with_x v | None => skip end >>
  match y with Some v => put with_y v | None => skip end >>
  _calibrate_to_xy.

Definition set_size (width height : pynum) : method t unit :=
  put with_width width >>
  put with_height height >>
  _calibrate_to_xy.

(** The property setters. *)
Definition set_x (value : pynum) : method t unit :=
  put with_x value >> _calibrate_to_xy.
Definition set_y (value : pynum) : method t unit :=
  put with_y value >> _calibrate_to_xy.
Definition set_left (value : pynum) : method t unit :=
  put with_left value >> _calibrate_to_rect.
Definition set_right (value : pynum) : method t unit :=
  put with_right value >> _calibrate_to_rect.
Definition set_top (value : pynum) : method t unit :=
  put with_top value >> _calibrate_to_rect.
Definition set_bottom (value : pynum) : method t unit :=
  put with_bottom value >> _calibrate_to_rect.
Definition set_width (value : pynum) : method t unit :=
  put with_width value >> _calibrate_to_xy.
Definition set_height (value : pynum) : method t unit :=
  put with_height value >> _calibrate_to_xy.

(** The fields as [__init__] sets them before it calls [set_rect]. *)
Definition blank (force_int : bool) : t :=
  mk (PyInt 0) (PyInt 0) (PyInt 0) (PyInt 0) (PyInt 0) (PyInt 0) (PyInt 0)
     (PyInt 0) force_int.

Definition __init__ (left right top bottom : pynum) (force_int : bool)
  : result t :=
  returning (set_rect left right top bottom) (blank force_int).

(** [Region(force_int=b)]: the other arguments default to [0]. *)
Definition new (force_int : bool) : result t :=
  __init__ (PyInt 0) (PyInt 0) (PyInt 0) (PyInt 0) force_int.

Definition clone (self : t) : result t :=
  region <- new (_force_int self) ;;
  returning
    (set_rect (_left self) (_right self) (_top self) (_bottom self)) region.

Definition contains (x y : pynum) (self : t) : bool :=
  if py_lt x (_left self) || py_gt x (_right self) ||
     py_lt y (_top self) || py_gt y (_bottom self)
  then false
  else true.

Definition is_in_bounds (width height : pynum) (self : t) : bool :=
  if py_lt (_top self) (PyInt 0) || py_gt (_bottom self) height ||
     py_lt (_left self) (PyInt 0) || py_gt (_right self) width
  then false
  else true.

(** [self.prop = expr] through a property setter of the class itself. *)
Definition assign (setter : pynum -> method t unit) (expr : t -> result pynum)
  : method t unit :=
  fun self =>
    match expr self with
    | Ok v => setter v self
    | Err e => (Err e, self)
    end.

Definition scale (scale_value : pynum) : method t unit :=
  assign set_width
    (fun self => w <- py_mul (_width self) scale_value ;; py_int w) >>
  assign set_height
    (fun self => h <- py_mul (_height self) scale_value ;; py_int h).

Definition fast_distance (r1 r2 : t) : result pynum :=
  dx <- py_sub (_x r1) (_x r2) ;;
  dy <- py_sub (_y r1) (_y r2) ;;
  py_add (py_abs dx) (py_abs dy).

End Region.

(* ===================================================================== *)
(** * Python values: what a JSON document and an encoded object hold *)
(* ===================================================================== *)

Inductive pyval : Set :=
| VNone
| VBool (b : bool)
| VNum (n : pynum)
| VStr (s : string)
| VList (items : list pyval)
| VDict (entries : list (string * pyval)).

(** The interpreter's conversions between text and numbers, which the
    repository calls but does not define: [float(s)] and [int(s)] for a
    [str] ([None] on text that is no number, where Python raises
    [ValueError]), and [str(v)] for a value that is neither a [str], [None]
    nor a [bool]. *)
Class Builtins : Type := {
  float_of_str : string -> option float;
  int_of_str : string -> option Z;
  repr_of : pyval -> string
}.

Definition or_ValueError {A} (parsed : option A) : result A :=
  match parsed with
  | Some a => Ok a
  | None => Err ValueError
  end.

Fixpoint assoc {V} (key : string) (entries : list (string * V)) : option V :=
  match entries with
  | [] => None
  | (k, v) :: rest => if String.eqb k key then Some v else assoc key rest
  end.

(** [data[key]] for a [str] key. *)
Definition py_getitem (data : pyval) (key : string) : result pyval :=
  match data with
  | VDict entries =>
      match assoc key entries with
      | Some v => Ok v
      | None => Err KeyError
      end
  | _ => Err TypeError
  end.

(** The one-character strings a [str] iterates over. *)
Fixpoint chars (s : string) : list pyval :=
  match s with
  | EmptyString => []
  | String c s' => VStr (String c EmptyString) :: chars s'
  end.

(** [for d in data]: the items of a list, the keys of a dict, the characters
    of a str. *)
Definition py_iter (data : pyval) : result (list pyval) :=
  match data with
  | VList items => Ok items
  | VDict entries => Ok (map (fun kv => VStr (fst kv)) entries)
  | VStr s => Ok (chars s)
  | _ => Err TypeError
  end.

Section Conversions.
Context {B : Builtins}.

(** [float(v)]. *)
Definition py_float (v : pyval) : result float :=
  match v with
  | VNum n => as_float n
  | VStr s => or_ValueError (float_of_str s)
  | VBool b => Ok (if b then one else zero)
  | _ => Err TypeError
  end.

(** [int(v)]. *)
Definition py_int_of (v : pyval) : result Z :=
  match v with
  | VNum (PyInt z) => Ok z
  | VNum (PyFloat f) => float_int f
  | VStr s => or_ValueError (int_of_str s)
  | VBool b => Ok (if b then 1 else 0)
  | _ => Err TypeError
  end.

(** [str(v)]. *)
Definition py_str (v : pyval) : string :=
  match v with
  | VStr s => s
  | VNone => "None"
  | VBool true => "True"
  | VBool false => "False"
  | _ => repr_of v
  end.

End Conversions.

(* ===================================================================== *)
(** * modules/detect_region.py *)
(* ===================================================================== *)

Module DetectRegion.

(** A [DetectRegion] is a [Region] (its [base]) with the detection
    meta-data.  [class_id: str = None] is [None] until it is assigned. *)
Record t : Set := mk {
  base : Region.t;
  class_id : option string;
  confidence : float;
  is_occluded : Z;
  is_truncated : Z;
  is_group_of : Z;
  is_depiction : Z;
  is_inside : Z
}.

Definition with_base (v : Region.t) (d : t) : t :=
  mk v (class_id d) (confidence d) (is_occluded d) (is_truncated d)
     (is_group_of d) (is_depiction d) (is_inside d).
Definition with_class_id (v : option string) (d : t) : t :=
  mk (base d) v (confidence d) (is_occluded d) (is_truncated d)
     (is_group_of d) (is_depiction d) (is_inside d).
Definition with_confidence (v : float) (d : t) : t :=
  mk (base d) (class_id d) v (is_occluded d) (is_truncated d)
     (is_group_of d) (is_depiction d) (is_inside d).
Definition with_is_occluded (v : Z) (d : t) : t :=
  mk (base d) (class_id d) (confidence d) v (is_truncated d)
     (is_group_of d) (is_depiction d) (is_inside d).
Definition with_is_truncated (v : Z) (d : t) : t :=
  mk (base d) (class_id d) (confidence d) (is_occluded d) v
     (is_group_of d) (is_depiction d) (is_inside d).
Definition with_is_group_of (v : Z) (d : t) : t :=
  mk (base d) (class_id d) (confidence d) (is_occluded d) (is_truncated d)
     v (is_depiction d) (is_inside d).
Definition with_is_depiction (v : Z) (d : t) : t :=
  mk (base d) (class_id d) (confidence d) (is_occluded d) (is_truncated d)
     (is_group_of d) v (is_inside d).
Definition with_is_inside (v : Z) (d : t) : t :=
  mk (base d) (class_id d) (confidence d) (is_occluded d) (is_truncated d)
     (is_group_of d) (is_depiction d) v.

(** A method inherited from [Region], run on a [DetectRegion]. *)
Definition inherited (m : method Region.t unit) : method t unit :=
  fun self =>
    let '(res, base') := m (base self) in (res, with_base base' self).

(** [region.prop = expr] through the property setter of [Region]: the
    right-hand side is evaluated first. *)
Definition set_prop (setter : pynum -> method Region.t unit)
    (expr : result float) : method t unit :=
  fun self =>
    match expr with
    | Ok v => inherited (setter (PyFloat v)) self
    | Err e => (Err e, self)
    end.

Definition __init__ (left right top bottom : pynum) (force_int : bool)
  : result t :=
  base <- Region.__init__ left right top bottom force_int ;;
  Ok (mk base None one 0 0 0 0 0).

(** [DetectRegion(force_int=b)]. *)
Definition new (force_int : bool) : result t :=
  __init__ (PyInt 0) (PyInt 0) (PyInt 0) (PyInt 0) force_int.

Definition encode (self : t) : pyval :=
  VDict
    [ ("left", VNum (Region._left (base self)));
      ("right", VNum (Region._right (base self)));
      ("top", VNum (Region._top (base self)));
      ("bottom", VNum (Region._bottom (base self)));
      ("class_id",
        match class_id self with Some s => VStr s | None => VNone end);
      ("confidence", VNum (PyFloat (confidence self)));
      ("is_occluded", VNum (PyInt (is_occluded self)));
      ("is_truncated", VNum (PyInt (is_truncated self)));
      ("is_group_of", VNum (PyInt (is_group_of self)));
      ("is_depiction", VNum (PyInt (is_depiction self)));
      ("is_inside", VNum (PyInt (is_inside self))) ]%string.

Section Decode.
Context {B : Builtins}.

Definition item_float (data : pyval) (key : string) : result float :=
  v <- py_getitem data key ;; py_float v.

Definition item_int (data : pyval) (key : string) : result Z :=
  v <- py_getitem data key ;; py_int_of v.

Definition item_str (data : pyval) (key : string)
  : result (option string) :=
  v <- py_getitem data key ;; Ok (Some (py_str v)).

Definition decode (data : pyval) : result t :=
  region <- new false ;;
  returning
    (set_prop Region.set_left (item_float data "left") >>
     set_prop Region.set_right (item_float data "right") >>
     set_prop Region.set_top (item_float data "top") >>
     set_prop Region.set_bottom (item_float data "bottom") >>
     store with_class_id (fun _ => item_str data "class_id") >>
     store with_confidence (fun _ => item_float data "confidence") >>
     store with_is_occluded (fun _ => item_int data "is_occluded") >>
     store with_is_truncated (fun _ => item_int data "is_truncated") >>
     store with_is_group_of (fun _ => item_int data "is_group_of") >>
     store with_is_depiction (fun _ => item_int data "is_depiction") >>
     store with_is_inside (fun _ => item_int data "is_inside"))
    region.

End Decode.

End DetectRegion.

(* ===================================================================== *)
(** * modules/sample.py: the data and its serialization *)
(* ===================================================================== *)

(** [v] where a [str] is declared.  [Sample.key] and [Sample.remote_path]
    are declared [str]; a document that holds another kind of value there
    is rejected with [TypeError] in this model. *)
Definition as_str (v : pyval) : result string :=
  match v with
  | VStr s => Ok s
  | _ => Err TypeError
  end.

Module Sample.

Record t : Set := mk {
  key : string;
  set_index : option Z;
  remote_path : string;
  detect_regions : list DetectRegion.t;
  _local_path : option string
}.

Definition with_key (v : string) (s : t) : t :=
  mk v (set_index s) (remote_path s) (detect_regions s) (_local_path s).
Definition with_set_index (v : option Z) (s : t) : t :=
  mk (key s) v (remote_path s) (detect_regions s) (_local_path s).
Definition with_remote_path (v : string) (s : t) : t :=
  mk (key s) (set_index s) v (detect_regions s) (_local_path s).
Definition with_detect_regions (v : list DetectRegion.t) (s : t) : t :=
  mk (key s) (set_index s) (remote_path s) v (_local_path s).

(** [Sample()]. *)
Definition __init__ : t := mk EmptyString None EmptyString [] None.

Definition encode (self : t) : pyval :=
  let region_data := map DetectRegion.encode (detect_regions self) in
  VDict
    [ ("key", VStr (key self));
      ("remote_path", VStr (remote_path self));
      ("detect_regions", VList region_data) ]%string.

Definition decode {B : Builtins} (data : pyval) : result t :=
  returning
    (store with_key (fun _ => v <- py_getitem data "key" ;; as_str v) >>
     store with_remote_path
       (fun _ => v <- py_getitem data "remote_path" ;; as_str v) >>
     store with_detect_regions
       (fun _ =>
          v <- py_getitem data "detect_regions" ;;
          ds <- py_iter v ;;
          map_result DetectRegion.decode ds))
    __init__.

Definition with__local_path (v : option string) (s : t) : t :=
  mk (key s) (set_index s) (remote_path s) (detect_regions s) v.

End Sample.

(* ===================================================================== *)
(** * Dictionaries, rows, slices, paths, files *)
(* ===================================================================== *)

(** A [Dict[str, V]]: its entries in insertion order, one per key. *)
Definition dict (V : Type) : Type := list (string * V).

(** [d[key] = v]: a key that is present keeps its place. *)
Fixpoint dict_set {V} (key : string) (v : V) (d : dict V) : dict V :=
  match d with
  | [] => [(key, v)]
  | (k, w) :: rest =>
      if String.eqb k key then (k, v) :: rest
      else (k, w) :: dict_set key v rest
  end.

(** [d.get(key)]; [key in d] is [dict_get key d <> None]. *)
Definition dict_get {V} (key : string) (d : dict V) : option V := assoc key d.

(** [list(d.values())]. *)
Definition dict_values {V} (d : dict V) : list V := map snd d.

Definition dict_keys {V} (d : dict V) : list string := map fst d.

(** [row[i]] for a row of the CSV reader. *)
Definition row_get (row : list string) (i : nat) : result string :=
  match nth_error row i with
  | Some c => Ok c
  | None => Err IndexError
  end.

(** [s.split(sep)] for a one-character separator. *)
Fixpoint str_split (sep : ascii) (s : string) : list string :=
  match s with
  | EmptyString => [EmptyString]
  | String c s' =>
      if Ascii.eqb c sep then EmptyString :: str_split sep s'
      else
        match str_split sep s' with
        | w :: ws => String c w :: ws
        | [] => [String c EmptyString]
        end
  end.

(** [l[start:stop]]: a negative index counts from the end, and both are
    clipped to the list. *)
Definition py_slice {A} (l : list A) (start stop : Z) : list A :=
  let n := Z.of_nat (length l) in
  let clip i := if i <? 0 then Z.max (i + n) 0 else Z.min i n in
  let a := clip start in
  let b := clip stop in
  firstn (Z.to_nat (b - a)) (skipn (Z.to_nat a) l).

(** [str(z)] for an [int]. *)
Definition str_of_int (z : Z) : string :=
  NilZero.string_of_int (Z.to_int z).

(** [os.path.join(a, b)] on a POSIX system. *)
Definition path_join (a b : string) : string :=
  match b with
  | String "/" _ => b
  | _ =>
      if String.eqb a EmptyString then b
      else if String.eqb (substring (String.length a - 1) 1 a) "/"
           then String.append a b
           else String.append a (String "/" b)
  end.

(** What a file holds, as [json.load] reads it: a document, or text that is
    no JSON.  [json.dump] followed by [json.load] gives the document back;
    the directory a file is written to is taken to exist. *)
Inductive file : Set :=
| JsonText (doc : pyval)
| OtherText.

Definition json_load (f : file) : result pyval :=
  match f with
  | JsonText doc => Ok doc
  | OtherText => Err JSONDecodeError
  end.

Abbreviation filesystem := (gmap string file).

(** The local image of a sample ([modules/sample.py]). *)
Module SampleImage.

(** [f"set_{set_index}"]: a sample that was never loaded from a set has
    [set_index] [None], which formats as [None]. *)
Definition set_name (set_index : option Z) : string :=
  String.append "set_"
    match set_index with
    | Some i => str_of_int i
    | None => "None"
    end.

(** [get_set_path(set_index)]; [STORAGE_DIRECTORY] is the setting of
    [ProjectSettings.instance()]. *)
Definition get_set_path (STORAGE_DIRECTORY : string) (set_index : option Z)
  : string :=
  path_join (path_join STORAGE_DIRECTORY "sample_images") (set_name set_index).

(** The property [_local_image_path]: computed on first use and kept in
    [_local_path]. *)
Definition _local_image_path (STORAGE_DIRECTORY : string) (self : Sample.t)
  : string * Sample.t :=
  match Sample._local_path self with
  | None =>
      let path :=
        path_join (get_set_path STORAGE_DIRECTORY (Sample.set_index self))
          (String.append (Sample.key self) ".jpg") in
      (path, Sample.with__local_path (Some path) self)
  | Some path => (path, self)
  end.

(** The property [is_locally_loaded]; [path_exists] is [os.path.exists]. *)
Definition is_locally_loaded (STORAGE_DIRECTORY : string)
    (path_exists : string -> bool) (self : Sample.t) : bool * Sample.t :=
  let '(path, self) := _local_image_path STORAGE_DIRECTORY self in
  (path_exists path, self).

End SampleImage.

(* ===================================================================== *)
(** * modules/loader.py *)
(* ===================================================================== *)

Module Loader.

(** [execute_on_csv(path, action, skip_first_row)]: the CSV file at [path]
    is given by the rows the reader yields; [action] updates the
    dictionary its closure holds. *)
Definition execute_on_csv {S} (rows : list (list string))
    (action : list string -> S -> result S) (skip_first_row : bool)
    (state : S) : result S :=
  fold_result action (if skip_first_row then tl rows else rows) state.

(** A [Loader] object: its one attribute is [label_map]. *)
Record t : Type := mk { label_map : dict string }.

Definition __init__ : t := mk [].

Definition load_labels_action (row : list string) (label_map : dict string)
  : result (dict string) :=
  c1 <- row_get row 1 ;;
  c0 <- row_get row 0 ;;
  Ok (dict_set c0 c1 label_map).

(** [load_labels(path)]: [self.label_map] is assigned after the file has
    been read, so a read that raises leaves the previous map in place. *)
Definition load_labels (rows : list (list string)) : method t (dict string) :=
  fun self =>
    match execute_on_csv rows load_labels_action false [] with
    | Ok label_map => (Ok label_map, mk label_map)
    | Err e => (Err e, self)
    end.

Section Labels.
(** [str.upper] of the interpreter. *)
Variable str_upper : string -> string.

Definition get_label (key : string) (upper : bool) (self : t) : string :=
  match dict_get key (label_map self) with
  | Some label => if upper then str_upper label else label
  | None => key
  end.

End Labels.

Definition create_samples_action (row : list string)
    (samples : dict Sample.t) : result (dict Sample.t) :=
  let sample := Sample.__init__ in
  c0 <- row_get row 0 ;;
  let sample := Sample.with_key (hd EmptyString (str_split "." c0)) sample in
  c1 <- row_get row 1 ;;
  let sample := Sample.with_remote_path c1 sample in
  Ok (dict_set (Sample.key sample) sample samples).

Definition create_samples (rows : list (list string))
  : result (dict Sample.t) :=
  execute_on_csv rows create_samples_action false [].

Section Associate.
Context {B : Builtins}.

Definition cell_float (row : list string) (i : nat) : result float :=
  c <- row_get row i ;; or_ValueError (float_of_str c).

Definition cell_int (row : list string) (i : nat) : result Z :=
  c <- row_get row i ;; or_ValueError (int_of_str c).

Definition associate_action (row : list string)
    (samples : dict Sample.t) : result (dict Sample.t) :=
  key <- row_get row 0 ;;
  match dict_get key samples with
  | None => Ok samples
  | Some sample =>
      x_min <- cell_float row 4 ;;
      x_max <- cell_float row 5 ;;
      y_min <- cell_float row 6 ;;
      y_max <- cell_float row 7 ;;
      detect_region <- DetectRegion.new false ;;
      detect_region <-
        returning
          (DetectRegion.inherited
             (Region.set_rect (PyFloat x_min) (PyFloat x_max)
                (PyFloat y_min) (PyFloat y_max)) >>
           store DetectRegion.with_class_id
             (fun _ => c <- row_get row 2 ;; Ok (Some c)) >>
           store DetectRegion.with_confidence
             (fun _ => cell_float row 3) >>
           store DetectRegion.with_is_occluded
             (fun _ => cell_int row 8) >>
           store DetectRegion.with_is_truncated
             (fun _ => cell_int row 9) >>
           store DetectRegion.with_is_group_of
             (fun _ => cell_int row 10) >>
           store DetectRegion.with_is_depiction
             (fun _ => cell_int row 11) >>
           store DetectRegion.with_is_inside
             (fun _ => cell_int row 12))
          detect_region ;;
      let sample :=
        Sample.with_detect_regions
          (Sample.detect_regions sample ++ [detect_region]) sample in
      Ok (dict_set key sample samples)
  end.

Definition associate_boxes_with_samples (samples : dict Sample.t)
    (rows : list (list string)) : result (dict Sample.t) :=
  execute_on_csv rows associate_action false samples.

End Associate.

Definition sample_set_path (path : string) (index : Z) : string :=
  let file_name :=
    String.append "sample_set_" (String.append (str_of_int index) ".json") in
  path_join path file_name.

Definition _write_samples (samples : list Sample.t) (path : string)
    (index : Z) (fs : filesystem) : filesystem :=
  let file_path := sample_set_path path index in
  let sample_objects := map Sample.encode samples in
  let sample_data :=
    VDict [ ("set_index", VNum (PyInt index));
            ("samples", VList sample_objects) ]%string in
  <[file_path := JsonText sample_data]> fs.

(** The [while True] loop of [export_samples], from batch [i] on.  Each
    iteration takes one unit of [fuel]; [None] is a loop that has not
    reached its [break] when the fuel runs out. *)
Fixpoint export_loop (fuel : nat) (sample_list : list Sample.t)
    (path : string) (size : Z) (i : Z) (fs : filesystem)
  : option filesystem :=
  match fuel with
  | O => None
  | S fuel' =>
      let n_samples := Z.of_nat (length sample_list) in
      let m := (i + 1) * size in
      if m >=? n_samples then Some fs
      else
        let sub_samples := py_slice sample_list (i * size) m in
        export_loop fuel' sample_list path size (i + 1)
          (_write_samples sub_samples path i fs)
  end.

Definition export_samples (fuel : nat) (samples : dict Sample.t)
    (path : string) (size : Z) (fs : filesystem) : option filesystem :=
  let sample_list := dict_values samples in
  export_loop fuel sample_list path size 0 fs.

Section Load.
Context {B : Builtins}.

Definition stamp (data : pyval) (sample : Sample.t) : result Sample.t :=
  v <- py_getitem data "set_index" ;;
  i <- py_int_of v ;;
  Ok (Sample.with_set_index (Some i) sample).

Definition load_sample_set_from_file (fs : filesystem) (path : string)
  : result (list Sample.t) :=
  match fs !! path with
  | None => Err FileNotFound
  | Some f =>
      data <- json_load f ;;
      sample_data <- py_getitem data "samples" ;;
      ds <- py_iter sample_data ;;
      samples <- map_result Sample.decode ds ;;
      map_result (stamp data) samples
  end.

(** [load_sample_set(set_index)]; [SAMPLES_DIRECTORY] is the setting of
    [ProjectSettings.instance()]. *)
Definition load_sample_set (SAMPLES_DIRECTORY : string) (fs : filesystem)
    (set_index : Z) : result (list Sample.t) :=
  let set_path :=
    path_join SAMPLES_DIRECTORY
      (String.append "sample_set_"
         (String.append (str_of_int set_index) ".json")) in
  load_sample_set_from_file fs set_path.

End Load.

Section CheckAndLoad.
(** The world outside the program: what [os.path.exists] answers in it,
    and what [pather.create(path)] followed by
    [urllib.request.urlretrieve(remote_url, path)] does to it, which may
    raise. *)
Variable world : Type.
Variable path_exists : string -> world -> bool.
Variable retrieve : string -> string -> method world unit.

(** The [while True] loop of [check_and_load].  [responses] are the
    answers the user types at the prompt, in order; [None] is the loop
    waiting at [input] once they have all been read.  An answer ["y"]
    retrieves the file and then falls through to the complaint about an
    invalid response, as any answer but ["n"] does; only ["n"] breaks. *)
Fixpoint ask (remote_url path : string) (responses : list string)
    (w : world) : option (result unit * world) :=
  match responses with
  | [] => None
  | response :: rest =>
      let '(res, w1) :=
        if String.eqb response "y" then retrieve remote_url path w
        else (Ok tt, w) in
      match res with
      | Err e => Some (Err e, w1)
      | Ok _ =>
          if String.eqb response "n" then Some (Ok tt, w1)
          else ask remote_url path rest w1
      end
  end.

(** [check_and_load(path, remote_url)]; its
    [Exception("File not found, unable to proceed.")] is [FileNotFound]. *)
Definition check_and_load (path : string) (remote_url : option string)
    (responses : list string) (w : world) : option (result unit * world) :=
  if negb (path_exists path w) then
    match
      match remote_url with
      | Some url => ask url path responses w
      | None => Some (Ok tt, w)
      end
    with
    | None => None
    | Some (Err e, w1) => Some (Err e, w1)
    | Some (Ok _, w1) => Some (Err FileNotFound, w1)
    end
  else Some (Ok tt, w).

End CheckAndLoad.

End Loader.

(* ===================================================================== *)
(** * The mutators of a Region, and objects held by reference *)
(* ===================================================================== *)

(** The calls and assignments that change a [Region]: [set_rect], [set_xy],
    [set_size] and an assignment to one of the eight properties. *)
Inductive mutator : Set :=
| SetRect (left right top bottom : pynum)
| SetXY (x y : option pynum)
| SetSize (width height : pynum)
| AssignX (value : pynum)
| AssignY (value : pynum)
| AssignLeft (value : pynum)
| AssignRight (value : pynum)
| AssignTop (value : pynum)
| AssignBottom (value : pynum)
| AssignWidth (value : pynum)
| AssignHeight (value : pynum).

Definition mutate (m : mutator) : method Region.t unit :=
  match m with
  | SetRect l r t b => Region.set_rect l r t b
  | SetXY x y => Region.set_xy x y
  | SetSize w h => Region.set_size w h
  | AssignX v => Region.set_x v
  | AssignY v => Region.set_y v
  | AssignLeft v => Region.set_left v
  | AssignRight v => Region.set_right v
  | AssignTop v => Region.set_top v
  | AssignBottom v => Region.set_bottom v
  | AssignWidth v => Region.set_width v
  | AssignHeight v => Region.set_height v
  end.

(** The mutators that end in [_calibrate_to_rect]; the others end in
    [_calibrate_to_xy]. *)
Definition edge_side (m : mutator) : bool :=
  match m with
  | SetRect _ _ _ _ | AssignLeft _ | AssignRight _ | AssignTop _
  | AssignBottom _ => true
  | _ => false
  end.

Module Heap.

(** An object is an instance of [Region] or of its subclass. *)
Inductive object : Set :=
| ORegion (r : Region.t)
| ODetectRegion (d : DetectRegion.t).

(** The [Region] fields of an object, whatever its class. *)
Definition region_of (o : object) : Region.t :=
  match o with
  | ORegion r => r
  | ODetectRegion d => DetectRegion.base d
  end.

Definition with_region (r : Region.t) (o : object) : object :=
  match o with
  | ORegion _ => ORegion r
  | ODetectRegion d => ODetectRegion (DetectRegion.with_base r d)
  end.

Abbreviation loc := positive.
Abbreviation heap := (gmap positive object).

(** A new object: a reference no live object has. *)
Definition alloc (o : object) (h : heap) : loc * heap :=
  let l := fresh (dom h) in (l, <[l := o]> h).

(** [obj.m(...)] for a method or property setter of [Region], on the
    object [l] refers to.  [None]: [l] refers to no object. *)
Definition call (l : loc) (m : method Region.t unit) (h : heap)
  : option (result unit * heap) :=
  match h !! l with
  | Some o =>
      let '(res, r') := m (region_of o) in
      Some (res, <[l := with_region r' o]> h)
  | None => None
  end.

(** [obj.clone()]: [Region.clone] is not overridden, so it builds a
    [Region] also for a [DetectRegion]. *)
Definition clone (l : loc) (h : heap) : option (result loc * heap) :=
  match h !! l with
  | Some o =>
      match Region.clone (region_of o) with
      | Ok region =>
          let '(l', h') := alloc (ORegion region) h in Some (Ok l', h')
      | Err e => Some (Err e, h)
      end
  | None => None
  end.

End Heap.

(* ===================================================================== *)
(** * Specification vocabulary *)
(* ===================================================================== *)

(** The invariant of the data model, [right >= left] and [bottom >= top],
    as the guard of [set_rect] tests it. *)
Definition edges_ordered (r : Region.t) : Prop :=
  py_lt (Region._right r) (Region._left r) = false /\
  py_lt (Region._bottom r) (Region._top r) = false.

(** What the guard of [set_rect] rejects. *)
Definition inverted (left right top bottom : pynum) : Prop :=
  py_lt right left = true \/ py_lt bottom top = true.

(** Center and size agree with the edges, as [_calibrate_to_rect] computes
    them: [width == right - left], [height == bottom - top],
    [x == left + width // 2], [y == top + height // 2]. *)
Definition rect_consistent (r : Region.t) : Prop :=
  py_sub (Region._right r) (Region._left r) = Ok (Region._width r) /\
  py_sub (Region._bottom r) (Region._top r) = Ok (Region._height r) /\
  py_add (Region._left r) (py_floordiv2 (Region._width r)) = Ok (Region._x r) /\
  py_add (Region._top r) (py_floordiv2 (Region._height r)) = Ok (Region._y r).

(** The edges agree with center and size, as [_calibrate_to_xy] computes
    them: [left == x - width // 2], [right == x + width // 2],
    [top == y - height // 2], [bottom == y + height // 2]. *)
Definition xy_consistent (r : Region.t) : Prop :=
  py_sub (Region._x r) (py_floordiv2 (Region._width r)) = Ok (Region._left r) /\
  py_add (Region._x r) (py_floordiv2 (Region._width r)) = Ok (Region._right r) /\
  py_sub (Region._y r) (py_floordiv2 (Region._height r)) = Ok (Region._top r) /\
  py_add (Region._y r) (py_floordiv2 (Region._height r)) = Ok (Region._bottom r).

(** All eight coordinates are [int]s. *)
Definition all_int (r : Region.t) : Prop :=
  is_int (Region._left r) /\ is_int (Region._right r) /\
  is_int (Region._top r) /\ is_int (Region._bottom r) /\
  is_int (Region._x r) /\ is_int (Region._y r) /\
  is_int (Region._width r) /\ is_int (Region._height r).

(** The state [convert_to_int] leaves behind in [force_int] mode. *)
Definition calibrated (r : Region.t) : Prop :=
  Region._force_int r = true -> all_int r.

(** A region as the constructor, [set_rect] or an edge setter leaves it
    when the edges are in order. *)
Definition settled (r : Region.t) : Prop :=
  calibrated r /\ edges_ordered r /\ rect_consistent r.

(** The region [Region(0, 5, 0, 5)] and the one [Region()] gives. *)
Definition square_0_5 : Region.t :=
  Region.mk (PyInt 0) (PyInt 5) (PyInt 0) (PyInt 5) (PyInt 2) (PyInt 2)
    (PyInt 5) (PyInt 5) true.

Definition origin : Region.t := Region.blank true.

(** The exceptions arithmetic and [int()] raise on numbers. *)
Definition arith_error (e : exn) : Prop := e = ValueError \/ e = OverflowError.

(** [m] raises nothing but exceptions in [P]. *)
Definition raises_only {S} (P : exn -> Prop) (m : method S unit) : Prop :=
  forall self e, fst (m self) = Err e -> P e.

(** A run of calls [obj.m(...)] on the object [l] refers to, each one
    caught if it raises. *)
Fixpoint calls (l : Heap.loc) (ms : list mutator) (h : Heap.heap)
  : option Heap.heap :=
  match ms with
  | [] => Some h
  | m :: ms' =>
      match Heap.call l (mutate m) h with
      | Some (_, h') => calls l ms' h'
      | None => None
      end
  end.

(** Two regions with the same four edges. *)
Definition same_edges (a b : Region.t) : Prop :=
  Region._left a = Region._left b /\ Region._right a = Region._right b /\
  Region._top a = Region._top b /\ Region._bottom a = Region._bottom b.

(** A heap that holds [Region(0, 5, 0, 5)] at reference [1]. *)
Definition one_square : Heap.heap := {[ 1%positive := Heap.ORegion square_0_5 ]}.

(** A detection of class "/m/dog" on the unit square, as the loader builds
    it, and a heap that holds it at reference [1]. *)
Definition unit_square : Region.t :=
  Region.mk (PyFloat 0) (PyFloat 1) (PyFloat 0) (PyFloat 1) (PyFloat 0)
    (PyFloat 0) (PyFloat 1) (PyFloat 1) false.

Definition dog : DetectRegion.t :=
  DetectRegion.mk unit_square (Some "/m/dog"%string) one 0 1 0 0 0.

Definition one_dog : Heap.heap := {[ 1%positive := Heap.ODetectRegion dog ]}.

(** The fields of a [DetectRegion] have the types [decode] gives them: the
    four edges are floats and [class_id] is a string (it has been
    assigned). *)
Definition declared_types (d : DetectRegion.t) : Prop :=
  is_float (Region._left (DetectRegion.base d)) /\
  is_float (Region._right (DetectRegion.base d)) /\
  is_float (Region._top (DetectRegion.base d)) /\
  is_float (Region._bottom (DetectRegion.base d)) /\
  DetectRegion.class_id d <> None.

(** Two detections agree on the eleven serialized fields. *)
Definition same_fields (a b : DetectRegion.t) : Prop :=
  Region._left (DetectRegion.base a) = Region._left (DetectRegion.base b) /\
  Region._right (DetectRegion.base a) = Region._right (DetectRegion.base b) /\
  Region._top (DetectRegion.base a) = Region._top (DetectRegion.base b) /\
  Region._bottom (DetectRegion.base a) = Region._bottom (DetectRegion.base b) /\
  DetectRegion.class_id a = DetectRegion.class_id b /\
  DetectRegion.confidence a = DetectRegion.confidence b /\
  DetectRegion.is_occluded a = DetectRegion.is_occluded b /\
  DetectRegion.is_truncated a = DetectRegion.is_truncated b /\
  DetectRegion.is_group_of a = DetectRegion.is_group_of b /\
  DetectRegion.is_depiction a = DetectRegion.is_depiction b /\
  DetectRegion.is_inside a = DetectRegion.is_inside b.

(** A detection as the loader and [decode] build it: of the declared types,
    with [force_int] off and center and size computed from the edges. *)
Definition loaded (d : DetectRegion.t) : Prop :=
  declared_types d /\
  Region._force_int (DetectRegion.base d) = false /\
  rect_consistent (DetectRegion.base d).

(** The interpreter's conversions on the texts the examples below read. *)
Definition example_float_of_str (s : string) : option float :=
  if String.eqb s "0" then Some 0%float
  else if String.eqb s "0.25" then Some 0.25%float
  else if String.eqb s "0.5" then Some 0.5%float
  else if String.eqb s "0.75" then Some 0.75%float
  else if String.eqb s "1" then Some 1%float
  else None.

Definition example_int_of_str (s : string) : option Z :=
  if String.eqb s "0" then Some 0
  else if String.eqb s "1" then Some 1
  else None.

Definition example_builtins : Builtins :=
  {| float_of_str := example_float_of_str;
     int_of_str := example_int_of_str;
     repr_of := fun _ => EmptyString |}.

(** The exceptions reading a document raises: a missing key, a value of the
    wrong kind, text that is no number, a number out of range. *)
Definition data_error (e : exn) : Prop :=
  e = KeyError \/ e = TypeError \/ e = ValueError \/ e = OverflowError.

(** Batch [i] of a list cut into batches of [size]: the [size] samples from
    position [i * size] on. *)
Definition chunk (sample_list : list Sample.t) (size i : Z) : list Sample.t :=
  firstn (Z.to_nat size) (skipn (Z.to_nat (i * size)) sample_list).

(** The partition file for [samples] with index [index]. *)
Definition sample_set (index : Z) (samples : list Sample.t) : file :=
  JsonText
    (VDict [ ("set_index", VNum (PyInt index));
             ("samples", VList (map Sample.encode samples)) ]%string).

(** Four samples ["a"], ["b"], ["c"], ["d"] without regions. *)
Definition bare (key : string) : Sample.t :=
  Sample.mk key None (String.append "http://x/" key) [] None.

Definition four_samples : dict Sample.t :=
  [ ("a", bare "a"); ("b", bare "b"); ("c", bare "c"); ("d", bare "d") ]%string.

(** [reloaded] is [original] as it comes back from partition file [i]: the
    same key, remote path and detections (field by field, in order), with
    [set_index] [i]. *)
Definition comes_back (i : Z) (original reloaded : Sample.t) : Prop :=
  Sample.key reloaded = Sample.key original /\
  Sample.remote_path reloaded = Sample.remote_path original /\
  Forall2 same_fields (Sample.detect_regions reloaded)
    (Sample.detect_regions original) /\
  Sample.set_index reloaded = Some i.

(** All detections of a sample have the declared types. *)
Definition regions_declared (s : Sample.t) : Prop :=
  Forall declared_types (Sample.detect_regions s).

(** A sample with one detection, and a dictionary of two samples. *)
Definition dog_photo : Sample.t :=
  Sample.mk "a" None "http://x/a.jpg" [dog] None.

Definition two_samples : dict Sample.t :=
  [ ("a", dog_photo); ("b", bare "b") ]%string.

(** The number of detections held by the samples of a dictionary. *)
Definition total_regions (samples : dict Sample.t) : nat :=
  sum_list (map (fun kv => length (Sample.detect_regions (snd kv))) samples).

(** The key [create_samples] derives from a row of the image index: the
    part of column 0 before its first dot. *)
Definition index_key (row : list string) : string :=
  hd EmptyString (str_split "." (hd EmptyString row)).

(** The sample [create_samples] stores for a row of the image index. *)
Definition index_sample (row : list string) : Sample.t :=
  Sample.mk (index_key row) None (nth 1 row EmptyString) [] None.

(** The sample stored under [key] after the rows of the image index: the
    one of the last row with that key. *)
Definition index_lookup (key : string) (rows : list (list string))
  : option Sample.t :=
  fold_left
    (fun found row =>
       if String.eqb (index_key row) key then Some (index_sample row)
       else found)
    rows None.

(** The columns of a ground-truth row that the specification names, read
    with the interpreter's conversions. *)
Record gt_columns : Set := {
  col_class_id : string;
  col_confidence : float;
  col_x_min : float;
  col_x_max : float;
  col_y_min : float;
  col_y_max : float;
  col_occluded : Z;
  col_truncated : Z;
  col_group_of : Z;
  col_depiction : Z;
  col_inside : Z
}.

Definition read_columns {B : Builtins} (row : list string)
  : option gt_columns :=
  match
    class_id <- row_get row 2 ;;
    confidence <- Loader.cell_float row 3 ;;
    x_min <- Loader.cell_float row 4 ;;
    x_max <- Loader.cell_float row 5 ;;
    y_min <- Loader.cell_float row 6 ;;
    y_max <- Loader.cell_float row 7 ;;
    occluded <- Loader.cell_int row 8 ;;
    truncated <- Loader.cell_int row 9 ;;
    group_of <- Loader.cell_int row 10 ;;
    depiction <- Loader.cell_int row 11 ;;
    inside <- Loader.cell_int row 12 ;;
    Ok (Build_gt_columns class_id confidence x_min x_max y_min y_max
          occluded truncated group_of depiction inside)
  with
  | Ok c => Some c
  | Err _ => None
  end.

(** The detection the specification describes for those columns: class,
    confidence, the normalized box [left = x_min], [right = x_max],
    [top = y_min], [bottom = y_max] (with center and size as [set_rect]
    derives them, [force_int] off) and the five flags. *)
Definition detection_of (c : gt_columns) : DetectRegion.t :=
  DetectRegion.mk
    (Region.mk (PyFloat (col_x_min c)) (PyFloat (col_x_max c))
       (PyFloat (col_y_min c)) (PyFloat (col_y_max c))
       (PyFloat (col_x_min c + float_floordiv2 (col_x_max c - col_x_min c)))
       (PyFloat (col_y_min c + float_floordiv2 (col_y_max c - col_y_min c)))
       (PyFloat (col_x_max c - col_x_min c))
       (PyFloat (col_y_max c - col_y_min c)) false)
    (Some (col_class_id c)) (col_confidence c) (col_occluded c)
    (col_truncated c) (col_group_of c) (col_depiction c) (col_inside c).

(** A ground-truth row whose thirteen columns can be read and whose box has
    its bounds in order. *)
Definition well_formed_row {B : Builtins} (row : list string) : Prop :=
  exists c,
    read_columns row = Some c /\
    PrimFloat.ltb (col_x_max c) (col_x_min c) = false /\
    PrimFloat.ltb (col_y_max c) (col_y_min c) = false.

(** The image key of a ground-truth row: column 0. *)
Definition gt_key (row : list string) : string := hd EmptyString row.

(** The detections the rows hold for the image [key], in the order of the
    rows. *)
Definition detections_for {B : Builtins} (key : string)
    (rows : list (list string)) : list DetectRegion.t :=
  flat_map
    (fun row =>
       if String.eqb (gt_key row) key then
         match read_columns row with
         | Some c => [detection_of c]
         | None => []
         end
       else [])
    rows.

(** The rows that name an image of the index. *)
Definition matching_rows (keys : list string) (rows : list (list string))
  : list (list string) :=
  filter (fun row => gt_key row ∈ keys) rows.

(** What the association pass needs of a ground-truth row, given the keys
    of the index: an image key in column 0, and, when that image is in the
    index, thirteen readable columns and a box with its bounds in order. *)
Definition gt_row_ok {B : Builtins} (keys : list string) (row : list string)
  : Prop :=
  row <> [] /\ (gt_key row ∈ keys -> well_formed_row row).

(** The example of the specification: two images, one annotation for the
    first of them and one for an image outside the index. *)
Definition example_index : list (list string) :=
  [ ["img1.jpg"; "http://x/img1.jpg"]; ["img2.jpg"; "http://x/img2.jpg"] ]%string.

Definition example_ground_truth : list (list string) :=
  [ ["img1"; "_"; "/m/dog"; "1"; "0.25"; "0.5"; "0.25"; "0.5";
     "0"; "0"; "0"; "0"; "0"];
    ["img9"; "_"; "/m/cat"; "1"; "0"; "1"; "0"; "1";
     "0"; "1"; "0"; "0"; "0"] ]%string.

(** The detection [decode] builds from the converted items: float edges,
    center and size computed from them by [_calibrate_to_rect], [force_int]
    off. *)
Definition decoded (l r t b : float) (s : string) (c : float)
    (o1 o2 o3 o4 o5 : Z) : DetectRegion.t :=
  DetectRegion.mk
    (Region.mk (PyFloat l) (PyFloat r) (PyFloat t) (PyFloat b)
       (PyFloat (l + float_floordiv2 (r - l)))
       (PyFloat (t + float_floordiv2 (b - t)))
       (PyFloat (r - l)) (PyFloat (b - t)) false)
    (Some s) c o1 o2 o3 o4 o5.

(** The exceptions a row of a CSV file can raise in the association pass:
    a missing column, a column that does not convert, a box with its bounds
    out of order. *)
Definition row_error (e : exn) : Prop :=
  e = IndexError \/ e = ValueError \/ e = InvalidGeometry.

(** A sample as the loader builds it, before it is written: no set index,
    no cached local path, and detections as [loaded] describes them. *)
Definition as_built (s : Sample.t) : Prop :=
  Sample.set_index s = None /\
  Sample._local_path s = None /\
  Forall loaded (Sample.detect_regions s).

(** The label the rows of the class-description file give [key]: column 1
    of the last row whose column 0 is [key]. *)
Definition label_lookup (key : string) (rows : list (list string))
  : option string :=
  fold_left
    (fun found row =>
       if String.eqb (hd EmptyString row) key then Some (nth 1 row EmptyString)
       else found)
    rows None.

(** The answers typed before the first ["n"]; [None] when no ["n"] is
    among the answers. *)
Fixpoint answers_before_n (responses : list string) : option (list string) :=
  match responses with
  | [] => None
  | response :: rest =>
      if String.eqb response "n" then Some []
      else option_map (cons response) (answers_before_n rest)
  end.

(** The world after one retrieval for each ["y"] among [answers]. *)
Definition retrieved {world} (retrieve : string -> string -> method world unit)
    (remote_url path : string) (answers : list string) (w : world) : world :=
  fold_left
    (fun w answer =>
       if String.eqb answer "y" then snd (retrieve remote_url path w) else w)
    answers w.

(** A world that is the set of the paths that exist, where a retrieval
    creates the file and never fails. *)
Definition example_exists (path : string) (w : gset string) : bool :=
  bool_decide (path ∈ w).

Definition example_retrieve (remote_url path : string)
  : method (gset string) unit :=
  fun w => (Ok tt, {[ path ]} ∪ w).

(* ===================================================================== *)
(** * cmd_sample_analysis.py *)
(* ===================================================================== *)

Module SampleAnalysis.

(** [d[key] += 1]; a [class_id] that is [None] is no key of a dictionary
    whose keys are the strings of the label map. *)
Definition incr (key : option string) (d : dict Z) : result (dict Z) :=
  match key with
  | Some k =>
      match dict_get k d with
      | Some n => Ok (dict_set k (n + 1) d)
      | None => Err KeyError
      end
  | None => Err KeyError
  end.

(** [key not in d]. *)
Definition not_in (key : option string) (d : dict bool) : bool :=
  match key with
  | Some k => match dict_get k d with Some _ => false | None => true end
  | None => true
  end.

(** [d[key] = True], for a key that is a string. *)
Definition mark (key : option string) (d : dict bool) : dict bool :=
  match key with
  | Some k => dict_set k true d
  | None => d
  end.

(** The body of [for region in sample.detect_regions]. *)
Definition count_region (region : DetectRegion.t)
    (st : dict Z * dict Z * dict bool) : result (dict Z * dict Z * dict bool) :=
  let '(class_instances, class_appearances, classes_in_sample) := st in
  class_instances <- incr (DetectRegion.class_id region) class_instances ;;
  if not_in (DetectRegion.class_id region) classes_in_sample then
    let classes_in_sample :=
      mark (DetectRegion.class_id region) classes_in_sample in
    class_appearances <-
      incr (DetectRegion.class_id region) class_appearances ;;
    Ok (class_instances, class_appearances, classes_in_sample)
  else Ok (class_instances, class_appearances, classes_in_sample).

(** The body of [for sample in samples]. *)
Definition count_sample (sample : Sample.t) (st : dict Z * dict Z)
  : result (dict Z * dict Z) :=
  let classes_in_sample : dict bool := [] in
  st <- fold_result count_region (Sample.detect_regions sample)
          (st, classes_in_sample) ;;
  Ok (fst st).

(** The two counting loops of the script: [class_instances] and
    [class_appearances], zero for each key of the label map, then counted
    over the samples. *)
Definition count_classes (label_map : dict string) (samples : list Sample.t)
  : result (dict Z * dict Z) :=
  let zeros :=
    fold_left
      (fun st key => (dict_set key 0 (fst st), dict_set key 0 (snd st)))
      (dict_keys label_map) ([], []) in
  fold_result count_sample samples zeros.

End SampleAnalysis.

(** The number of detections of class [c] among [regions]. *)
Definition detections_of_class (c : string) (regions : list DetectRegion.t) : Z :=
  Z.of_nat (length (filter (fun d => DetectRegion.class_id d = Some c) regions)).

(** The number of detections of class [c] in all of [samples]. *)
Definition instances_of (c : string) (samples : list Sample.t) : Z :=
  detections_of_class c (flat_map Sample.detect_regions samples).

(** The classes of the detections of a sample, in order. *)
Definition classes_of (s : Sample.t) : list (option string) :=
  map DetectRegion.class_id (Sample.detect_regions s).

(** The number of samples that hold a detection of class [c]. *)
Definition appearances_of (c : string) (samples : list Sample.t) : Z :=
  Z.of_nat (length (filter (fun s => Some c ∈ classes_of s) samples)).

(** Every detection of the sample has a class of the label map. *)
Definition labelled (label_map : dict string) (s : Sample.t) : Prop :=
  Forall
    (fun d => exists c,
       DetectRegion.class_id d = Some c /\ c ∈ dict_keys label_map)
    (Sample.detect_regions s).

(** [d] holds [f key] for each key in [keys], and no other key. *)
Definition counts (keys : list string) (f : string -> Z) (d : dict Z) : Prop :=
  forall c, dict_get c d = if bool_decide (c ∈ keys) then Some (f c) else None.

(** [1] if the class [c], not among [seen], is among [classes]; else [0]. *)
Definition first_seen (c : string) (seen : list string)
    (classes : list (option string)) : Z :=
  if bool_decide ((c ∉ seen) /\ (Some c ∈ classes)) then 1 else 0.

(* ===================================================================== *)
(** * cmd_visualize_samples.py *)
(* ===================================================================== *)

Module VisualizeSamples.

(** The samples the script draws, from those of the set: [None] is its
    [Exception("None of the samples in this set have been downloaded!
    ...")].  Testing [is_locally_loaded] fills the cached path of every
    sample of the set. *)
Definition loaded_samples (STORAGE_DIRECTORY : string)
    (path_exists : string -> bool) (samples : list Sample.t)
  : list Sample.t :=
  flat_map
    (fun s =>
       let '(loaded, s) :=
         SampleImage.is_locally_loaded STORAGE_DIRECTORY path_exists s in
       if loaded && (0 <? Z.of_nat (length (Sample.detect_regions s)))
       then [s] else [])
    samples.

Definition select_samples (STORAGE_DIRECTORY : string)
    (path_exists : string -> bool) (samples : list Sample.t)
    (sample_count : Z) : option (list Sample.t) :=
  let loaded_samples := loaded_samples STORAGE_DIRECTORY path_exists samples in
  let n_loaded_samples := Z.of_nat (length loaded_samples) in
  if n_loaded_samples =? 0 then None
  else
    Some (py_slice loaded_samples 0
            (Z.min (n_loaded_samples - 1) sample_count)).

End VisualizeSamples.

(** No character of the string is a slash. *)
Fixpoint no_slash (s : string) : Prop :=
  match s with
  | EmptyString => True
  | String c rest => c <> "/"%char /\ no_slash rest
  end.

(** The string does not start with a slash: as the second argument of
    [os.path.join] it is appended to the first, not taken in its place. *)
Definition relative (s : string) : Prop :=
  match s with
  | String c _ => c <> "/"%char
  | EmptyString => True
  end.

(* ===================================================================== *)
(** * tools/util/visual.py and tools/util/logger.py *)
(* ===================================================================== *)

Module Visual.

(** [_get_safe_bounds(near, far, max_bound)], on pixel coordinates. *)
Definition _get_safe_bounds (near far max_bound : Z) : Z * Z * Z * Z :=
  let safe_near := Z.max 0 near in
  let safe_far := Z.min max_bound far in
  let near_excess := safe_near - near in
  let far_excess := far - safe_far in
  (safe_near, safe_far, near_excess, far_excess).

End Visual.

Module Logger.

(** The [while] loop of [_pre_fill], on the text [str(string)]: [None] is a
    loop that has not ended when the fuel runs out. *)
Fixpoint _pre_fill (fuel : nat) (text : string) (length : Z) (char : string)
  : option string :=
  match fuel with
  | O => None
  | S fuel' =>
      if Z.of_nat (String.length text) <? length
      then _pre_fill fuel' (String.append char text) length char
      else Some text
  end.

End Logger.

(** [k] copies of [char], one after the other. *)
Fixpoint copies (k : nat) (char : string) : string :=
  match k with
  | O => EmptyString
  | S k' => String.append (copies k' char) char
  end.

(* ===================================================================== *)
(** * Numbers *)
(* ===================================================================== *)

Lemma float_of_Z_0 : float_of_Z 0 = Ok zero.
Proof. vm_compute. reflexivity. Qed.

Lemma float_of_Z_error z e : float_of_Z z = Err e -> arith_error e.
Proof.
  unfold float_of_Z, arith_error.
  destruct (binary_normalize prec emax z 0 false); intros H; inversion H; auto.
Qed.

Lemma as_float_error a e : as_float a = Err e -> arith_error e.
Proof. destruct a; simpl; [apply float_of_Z_error | discriminate]. Qed.

Lemma float_int_error f e : float_int f = Err e -> arith_error e.
Proof.
  unfold float_int, arith_error.
  destruct (Prim2SF f); intros H; inversion H; auto.
Qed.

Lemma py_int_error a e : py_int a = Err e -> arith_error e.
Proof.
  destruct a as [z|f]; simpl; [discriminate|].
  destruct (float_int f) eqn:E; simpl; [discriminate|].
  intros H; inversion H; subst. eapply float_int_error; eauto.
Qed.

Lemma py_int_is_int a b : py_int a = Ok b -> is_int b.
Proof.
  destruct a as [z|f]; simpl.
  - intros H; inversion H; exact I.
  - destruct (float_int f); simpl; intros H; inversion H; exact I.
Qed.

Lemma py_int_of_int a : is_int a -> py_int a = Ok a.
Proof. destruct a; simpl; [reflexivity | contradiction]. Qed.

Lemma py_sub_error a b e : py_sub a b = Err e -> arith_error e.
Proof.
  destruct a as [x|x], b as [y|y]; simpl; try discriminate;
    repeat match goal with
           | |- context [float_of_Z ?z] =>
               let E := fresh "E" in
               destruct (float_of_Z z) eqn:E; simpl;
               [| intros H; inversion H; subst; eapply float_of_Z_error; eauto]
           end; discriminate.
Qed.

Lemma py_add_error a b e : py_add a b = Err e -> arith_error e.
Proof.
  destruct a as [x|x], b as [y|y]; simpl; try discriminate;
    repeat match goal with
           | |- context [float_of_Z ?z] =>
               let E := fresh "E" in
               destruct (float_of_Z z) eqn:E; simpl;
               [| intros H; inversion H; subst; eapply float_of_Z_error; eauto]
           end; discriminate.
Qed.

Lemma py_lt_int_false x y : py_lt (PyInt x) (PyInt y) = false <-> y <= x.
Proof. simpl. rewrite Z.ltb_ge. reflexivity. Qed.

(** Floor halving loses the odd unit: [2 * (w // 2)] is [w] or [w - 1]. *)
Lemma twice_half w : 2 * (w / 2) = w - w mod 2.
Proof. pose proof (Z.div_mod w 2). lia. Qed.

Lemma twice_half_even w : 2 * (w / 2) = w <-> Z.even w = true.
Proof.
  rewrite twice_half, Zeven_mod.
  pose proof (Z.mod_pos_bound w 2). rewrite Z.eqb_eq. lia.
Qed.

(* ===================================================================== *)
(** * Method bodies *)
(* ===================================================================== *)

Lemma seq_ok {S} (s1 s2 : method S unit) self self' :
  (s1 >> s2) self = (Ok tt, self') <->
  exists mid, s1 self = (Ok tt, mid) /\ s2 mid = (Ok tt, self').
Proof.
  unfold seq. destruct (s1 self) as [[[]|e] mid]; split.
  - intros H. exists mid. auto.
  - intros (mid' & E & H). inversion E; subst. exact H.
  - discriminate.
  - intros (mid' & E & _). discriminate.
Qed.

Lemma store_ok {S V} (fld : V -> S -> S) expr self self' :
  store fld expr self = (Ok tt, self') <->
  exists v, expr self = Ok v /\ self' = fld v self.
Proof.
  unfold store. destruct (expr self) as [v|e]; split.
  - intros H; inversion H. eauto.
  - intros (v' & E & ->). inversion E; subst. reflexivity.
  - discriminate.
  - intros (v' & E & _). discriminate.
Qed.

Lemma put_ok fld value self self' :
  Region.put fld value self = (Ok tt, self') <-> self' = fld value self.
Proof.
  unfold Region.put. rewrite store_ok. split.
  - intros (v & E & ->). inversion E; subst. reflexivity.
  - intros ->. eauto.
Qed.

Lemma raises_only_seq {S} P (s1 s2 : method S unit) :
  raises_only P s1 -> raises_only P s2 -> raises_only P (s1 >> s2).
Proof.
  intros H1 H2 self e. unfold seq.
  destruct (s1 self) as [[[]|e1] mid] eqn:E.
  - apply H2.
  - simpl. intros H; inversion H; subst. apply (H1 self). rewrite E. reflexivity.
Qed.

Lemma raises_only_store {S V} P (fld : V -> S -> S) expr :
  (forall self e, expr self = Err e -> P e) -> raises_only P (store fld expr).
Proof.
  intros H self e. unfold store. destruct (expr self) eqn:E; simpl.
  - discriminate.
  - intros H'; inversion H'; subst. eauto.
Qed.

Lemma raises_only_put P fld value : raises_only P (Region.put fld value).
Proof. apply raises_only_store. discriminate. Qed.

Lemma raises_only_skip {S} P : raises_only P (@skip S).
Proof. intros self e. discriminate. Qed.

Lemma raises_only_if_force_int P body :
  raises_only P body -> raises_only P (Region.if_force_int body).
Proof.
  intros H self e. unfold Region.if_force_int.
  destruct (Region._force_int self); [apply H | discriminate].
Qed.

Create HintDb raises.
#[local] Hint Resolve py_int_error py_sub_error py_add_error : raises.

(** Goes through a method body statement by statement. *)
Ltac raises_only_body :=
  repeat first
    [ apply raises_only_seq
    | apply raises_only_put
    | apply raises_only_skip
    | apply raises_only_if_force_int
    | apply raises_only_store; cbv beta; intros; eauto with raises ].

Lemma convert_to_int_raises : raises_only arith_error Region.convert_to_int.
Proof. unfold Region.convert_to_int. raises_only_body. Qed.

Lemma calibrate_to_rect_raises :
  raises_only arith_error Region._calibrate_to_rect.
Proof.
  unfold Region._calibrate_to_rect.
  apply raises_only_seq;
    [apply raises_only_if_force_int, convert_to_int_raises | raises_only_body].
Qed.

Lemma calibrate_to_xy_raises : raises_only arith_error Region._calibrate_to_xy.
Proof.
  unfold Region._calibrate_to_xy.
  apply raises_only_seq.
  - apply raises_only_if_force_int, convert_to_int_raises.
  - intros self e.
    apply (raises_only_seq arith_error); raises_only_body.
Qed.

Lemma py_sub_int a b c : is_int a -> is_int b -> py_sub a b = Ok c -> is_int c.
Proof.
  destruct a, b; simpl; try contradiction. intros _ _ H; inversion H; exact I.
Qed.

Lemma py_add_int a b c : is_int a -> is_int b -> py_add a b = Ok c -> is_int c.
Proof.
  destruct a, b; simpl; try contradiction. intros _ _ H; inversion H; exact I.
Qed.

Lemma py_floordiv2_int a : is_int a -> is_int (py_floordiv2 a).
Proof. destruct a; simpl; auto. Qed.

(** Arithmetic on [int]s gives an [int]. *)
Ltac int_result :=
  repeat first
    [ assumption
    | apply py_floordiv2_int
    | match goal with
      | E : py_sub _ _ = Ok ?v |- is_int ?v => refine (py_sub_int _ _ _ _ _ E)
      | E : py_add _ _ = Ok ?v |- is_int ?v => refine (py_add_int _ _ _ _ _ E)
      end ].

(** Splits a hypothesis [body self = (Ok tt, self')] into one equation for
    each statement of the body. *)
Ltac split_body H :=
  repeat
    (let mid := fresh "mid" in
     let H1 := fresh "Hs" in
     apply seq_ok in H; destruct H as (mid & H1 & H));
  repeat match goal with
         | Hs : Region.put _ _ _ = (Ok tt, _) |- _ => apply put_ok in Hs
         | Hs : store _ _ _ = (Ok tt, _) |- _ =>
             let v := fresh "v" in
             let E := fresh "E" in
             apply store_ok in Hs; destruct Hs as (v & E & Hs)
         end.

Lemma convert_to_int_ok self self' :
  Region.convert_to_int self = (Ok tt, self') ->
  all_int self' /\
  Region._force_int self' = Region._force_int self /\
  py_int (Region._left self) = Ok (Region._left self') /\
  py_int (Region._right self) = Ok (Region._right self') /\
  py_int (Region._top self) = Ok (Region._top self') /\
  py_int (Region._bottom self) = Ok (Region._bottom self') /\
  py_int (Region._x self) = Ok (Region._x self') /\
  py_int (Region._y self) = Ok (Region._y self') /\
  py_int (Region._width self) = Ok (Region._width self') /\
  py_int (Region._height self) = Ok (Region._height self').
Proof.
  unfold Region.convert_to_int. intros H. split_body H. subst. simpl in *.
  unfold all_int; simpl.
  repeat match goal with
         | E : py_int _ = Ok ?v |- _ =>
             lazymatch goal with
             | _ : is_int v |- _ => fail
             | _ => pose proof (py_int_is_int _ _ E)
             end
         end.
  repeat split; assumption.
Qed.

Lemma convert_to_int_id self :
  all_int self -> Region.convert_to_int self = (Ok tt, self).
Proof.
  destruct self as [l r t b x y w h fi].
  unfold all_int; simpl. intros (Hl & Hr & Ht & Hb & Hx & Hy & Hw & Hh).
  destruct l, r, t, b, x, y, w, h; try contradiction. reflexivity.
Qed.

Lemma if_force_int_convert_ok self self' :
  Region.if_force_int Region.convert_to_int self = (Ok tt, self') ->
  calibrated self' /\
  Region._force_int self' = Region._force_int self /\
  (calibrated self -> self' = self) /\
  (Region._force_int self = false -> self' = self).
Proof.
  unfold Region.if_force_int, calibrated.
  destruct (Region._force_int self) eqn:F.
  - intros H. pose proof (convert_to_int_ok _ _ H) as (Hi & Hf & _).
    refine (conj _ (conj _ (conj _ _))).
    + intros _. exact Hi.
    + congruence.
    + intros Hc. rewrite (convert_to_int_id self (Hc eq_refl)) in H.
      inversion H; reflexivity.
    + discriminate.
  - unfold skip. intros H; inversion H; subst. rewrite F.
    refine (conj _ (conj _ (conj _ _))); auto. discriminate.
Qed.

Lemma calibrate_to_rect_ok self self' :
  Region._calibrate_to_rect self = (Ok tt, self') ->
  exists mid,
    Region.if_force_int Region.convert_to_int self = (Ok tt, mid) /\
    Region._left self' = Region._left mid /\
    Region._right self' = Region._right mid /\
    Region._top self' = Region._top mid /\
    Region._bottom self' = Region._bottom mid /\
    Region._force_int self' = Region._force_int self /\
    rect_consistent self' /\
    calibrated self'.
Proof.
  unfold Region._calibrate_to_rect. intros H. split_body H.
  exists mid. subst. simpl in *.
  pose proof (if_force_int_convert_ok _ _ Hs) as (Hc & Hf & _).
  unfold rect_consistent, calibrated, all_int; simpl.
  repeat split; auto.
  all: destruct (Hc H) as (Hl & Hr & Ht & Hb & Hx & Hy & Hw & Hh);
    int_result.
Qed.

Lemma calibrate_to_xy_ok self self' :
  Region._calibrate_to_xy self = (Ok tt, self') ->
  exists mid,
    Region.if_force_int Region.convert_to_int self = (Ok tt, mid) /\
    Region._x self' = Region._x mid /\
    Region._y self' = Region._y mid /\
    Region._width self' = Region._width mid /\
    Region._height self' = Region._height mid /\
    Region._force_int self' = Region._force_int self /\
    xy_consistent self' /\
    calibrated self'.
Proof.
  unfold Region._calibrate_to_xy. intros H.
  apply seq_ok in H. destruct H as (mid & Hs & H).
  cbv beta zeta in H. split_body H.
  exists mid. subst. simpl in *.
  pose proof (if_force_int_convert_ok _ _ Hs) as (Hc & Hf & _).
  unfold xy_consistent, calibrated, all_int; simpl.
  repeat split; auto.
  all: destruct (Hc H) as (Hl & Hr & Ht & Hb & Hx & Hy & Hw & Hh);
    int_result.
Qed.

(* ===================================================================== *)
(** * Region: the bounds check (C2) *)
(* ===================================================================== *)

Lemma not_arith_InvalidGeometry : ~ arith_error InvalidGeometry.
Proof. intros [H|H]; discriminate. Qed.

Lemma set_rect_body_raises left right top bottom :
  raises_only arith_error
    (Region.put Region.with_left left >>
     Region.put Region.with_right right >>
     Region.put Region.with_top top >>
     Region.put Region.with_bottom bottom >>
     Region._calibrate_to_rect).
Proof.
  repeat (apply raises_only_seq; [apply raises_only_put|]).
  apply calibrate_to_rect_raises.
Qed.

Lemma set_rect_inverted left right top bottom self :
  inverted left right top bottom ->
  Region.set_rect left right top bottom self = (Err InvalidGeometry, self).
Proof.
  unfold inverted, Region.set_rect. intros [H|H].
  - rewrite H. reflexivity.
  - rewrite H. destruct (py_lt right left); reflexivity.
Qed.

Lemma set_rect_InvalidGeometry left right top bottom self :
  fst (Region.set_rect left right top bottom self) = Err InvalidGeometry <->
  inverted left right top bottom.
Proof.
  split.
  - unfold inverted, Region.set_rect.
    destruct (py_lt right left); [auto|].
    destruct (py_lt bottom top); [auto|].
    intros H. apply set_rect_body_raises in H.
    destruct (not_arith_InvalidGeometry H).
  - intros H. rewrite (set_rect_inverted _ _ _ _ _ H). reflexivity.
Qed.

Lemma set_rect_ok left right top bottom self self' :
  Region.set_rect left right top bottom self = (Ok tt, self') ->
  ~ inverted left right top bottom /\
  Region._calibrate_to_rect
    (Region.with_bottom bottom
       (Region.with_top top
          (Region.with_right right (Region.with_left left self))))
  = (Ok tt, self').
Proof.
  unfold inverted, Region.set_rect.
  destruct (py_lt right left); [discriminate|].
  destruct (py_lt bottom top); [discriminate|].
  intros H.
  do 4 (let mid := fresh "mid" in
        let Hs := fresh "Hs" in
        apply seq_ok in H; destruct H as (mid & Hs & H);
        apply put_ok in Hs; subst mid).
  split; [intros [?|?]; discriminate | exact H].
Qed.

Lemma mutator_InvalidGeometry m self :
  fst (mutate m self) = Err InvalidGeometry ->
  exists left right top bottom,
    m = SetRect left right top bottom /\ inverted left right top bottom.
Proof.
  pose proof calibrate_to_rect_raises as Hr.
  pose proof calibrate_to_xy_raises as Hx.
  destruct m; simpl; intros H.
  1: { apply set_rect_InvalidGeometry in H. eauto 6. }
  all: exfalso; apply not_arith_InvalidGeometry; revert H;
    match goal with
    | |- fst (?body ?s) = _ -> _ =>
        let R := fresh in
        assert (R : raises_only arith_error body);
        [| exact (R s InvalidGeometry)]
    end.
  all: unfold Region.set_xy, Region.set_size, Region.set_x, Region.set_y,
    Region.set_left, Region.set_right, Region.set_top, Region.set_bottom,
    Region.set_width, Region.set_height.
  all: repeat first
         [ assumption
         | apply raises_only_seq
         | apply raises_only_put
         | apply raises_only_skip
         | match goal with
           | |- raises_only _ (match ?o with _ => _ end) => destruct o
           end ].
Qed.

Lemma set_rect_stores left right top bottom self self' :
  Region.set_rect left right top bottom self = (Ok tt, self') ->
  Region._force_int self = false \/
  (is_int left /\ is_int right /\ is_int top /\ is_int bottom) ->
  Region._left self' = left /\ Region._right self' = right /\
  Region._top self' = top /\ Region._bottom self' = bottom /\
  edges_ordered self'.
Proof.
  intros H Hk. apply set_rect_ok in H. destruct H as (Hn & H).
  apply calibrate_to_rect_ok in H.
  destruct H as (mid & Hc & Hl & Hr & Ht & Hb & _).
  assert (Hm : Region._left mid = left /\ Region._right mid = right /\
               Region._top mid = top /\ Region._bottom mid = bottom).
  { unfold Region.if_force_int in Hc. simpl in Hc.
    destruct (Region._force_int self) eqn:F.
    - destruct Hk as [Hk|(Il & Ir & It & Ib)]; [discriminate|].
      apply convert_to_int_ok in Hc. simpl in Hc.
      destruct Hc as (_ & _ & El & Er & Et & Eb & _).
      rewrite (py_int_of_int _ Il) in El. rewrite (py_int_of_int _ Ir) in Er.
      rewrite (py_int_of_int _ It) in Et. rewrite (py_int_of_int _ Ib) in Eb.
      inversion El; inversion Er; inversion Et; inversion Eb. auto.
    - inversion Hc; subst. simpl. auto. }
  destruct Hm as (Ml & Mr & Mt & Mb).
  rewrite Hl, Hr, Ht, Hb, Ml, Mr, Mt, Mb.
  unfold edges_ordered. rewrite Hl, Hr, Ht, Hb, Ml, Mr, Mt, Mb.
  unfold inverted in Hn.
  repeat split; try reflexivity.
  - destruct (py_lt right left); [exfalso; auto | reflexivity].
  - destruct (py_lt bottom top); [exfalso; auto | reflexivity].
Qed.

Lemma set_rect_returns left right top bottom self :
  ~ inverted left right top bottom ->
  calibrated self ->
  (is_int left /\ is_int right /\ is_int top /\ is_int bottom) \/
  (Region._force_int self = false /\
   is_float left /\ is_float right /\ is_float top /\ is_float bottom) ->
  exists self', Region.set_rect left right top bottom self = (Ok tt, self').
Proof.
  intros Hn Hc Hk. unfold inverted in Hn. unfold Region.set_rect.
  destruct (py_lt right left); [exfalso; auto|].
  destruct (py_lt bottom top); [exfalso; auto|].
  destruct self as [l r t b x y w h fi]. unfold calibrated, all_int in Hc.
  simpl in Hc.
  destruct Hk as [(Il & Ir & It & Ib)|(F & Il & Ir & It & Ib)].
  - destruct left, right, top, bottom; try contradiction.
    destruct fi.
    + destruct (Hc eq_refl) as (_ & _ & _ & _ & Hx & Hy & Hw & Hh).
      destruct x, y, w, h; try contradiction. eexists. reflexivity.
    + eexists. reflexivity.
  - simpl in F. subst fi.
    destruct left, right, top, bottom; try contradiction.
    eexists. reflexivity.
Qed.

(** C2 (amended).  Only [set_rect], and so the constructor, checks the
    bounds.  It fails with [InvalidGeometry] exactly when [right < left] or
    [bottom < top], and then before it has stored anything: the region is
    left as it was and nothing is clamped.  When it succeeds on integer
    arguments, or on any arguments with [force_int] off, the four edges are
    the arguments and they are in order; and it does succeed on bounds in
    order that are all integers (or all floats with [force_int] off).  No
    other mutator ever raises [InvalidGeometry]: the property setters store
    the value and recalibrate. *)
Theorem set_rect_checks_bounds
    (left right top bottom : pynum) (self : Region.t) (force_int : bool) :
  (fst (Region.set_rect left right top bottom self) = Err InvalidGeometry <->
   inverted left right top bottom) /\
  (inverted left right top bottom ->
   Region.set_rect left right top bottom self = (Err InvalidGeometry, self)) /\
  (Region.__init__ left right top bottom force_int = Err InvalidGeometry <->
   inverted left right top bottom) /\
  (forall self',
     Region.set_rect left right top bottom self = (Ok tt, self') ->
     Region._force_int self = false \/
     (is_int left /\ is_int right /\ is_int top /\ is_int bottom) ->
     Region._left self' = left /\ Region._right self' = right /\
     Region._top self' = top /\ Region._bottom self' = bottom /\
     edges_ordered self') /\
  (~ inverted left right top bottom ->
   calibrated self ->
   (is_int left /\ is_int right /\ is_int top /\ is_int bottom) \/
   (Region._force_int self = false /\
    is_float left /\ is_float right /\ is_float top /\ is_float bottom) ->
   exists self', Region.set_rect left right top bottom self = (Ok tt, self')) /\
  (forall m r,
     fst (mutate m r) = Err InvalidGeometry ->
     exists l' r' t' b',
       m = SetRect l' r' t' b' /\ inverted l' r' t' b').
Proof.
  refine (conj _ (conj _ (conj _ (conj _ (conj _ _))))).
  - apply set_rect_InvalidGeometry.
  - apply set_rect_inverted.
  - rewrite <- (set_rect_InvalidGeometry _ _ _ _ (Region.blank force_int)).
    unfold Region.__init__, returning.
    destruct (Region.set_rect left right top bottom (Region.blank force_int))
      as [[[]|e] s]; simpl; split; congruence.
  - apply set_rect_stores.
  - apply set_rect_returns.
  - apply mutator_InvalidGeometry.
Qed.

Lemma square_0_5_constructed :
  Region.__init__ (PyInt 0) (PyInt 5) (PyInt 0) (PyInt 5) true = Ok square_0_5.
Proof. reflexivity. Qed.

(** C2, as stated, fails: on [Region(0, 5, 0, 5)] the assignment
    [region.left = 10] raises nothing and leaves [left = 10 > right = 5]. *)
Lemma edge_setter_breaks_order :
  mutate (AssignLeft (PyInt 10)) square_0_5 =
    (Ok tt,
     Region.mk (PyInt 10) (PyInt 5) (PyInt 0) (PyInt 5) (PyInt 7) (PyInt 2)
       (PyInt (-5)) (PyInt 5) true) /\
  py_lt (PyInt 5) (PyInt 10) = true.
Proof. split; reflexivity. Qed.

(* ===================================================================== *)
(** * Region: the two representations (C3) *)
(* ===================================================================== *)

(** A mutator is some assignments followed by one of the calibrations. *)
Lemma mutate_calibrates m self self' :
  mutate m self = (Ok tt, self') ->
  exists mid,
    Region._force_int mid = Region._force_int self /\
    if edge_side m then Region._calibrate_to_rect mid = (Ok tt, self')
    else Region._calibrate_to_xy mid = (Ok tt, self').
Proof.
  destruct m; simpl; intros H.
  1: { apply set_rect_ok in H. destruct H as (_ & H). eexists. split; [|exact H].
       reflexivity. }
  all: unfold Region.set_xy, Region.set_size, Region.set_x, Region.set_y,
    Region.set_left, Region.set_right, Region.set_top, Region.set_bottom,
    Region.set_width, Region.set_height in H.
  all: repeat match type of H with
         | (_ >> (_ >> _)) _ = _ =>
             let mid := fresh "mid" in
             let Hs := fresh "Hs" in
             apply seq_ok in H; destruct H as (mid & Hs & H)
         end.
  all: apply seq_ok in H; destruct H as (mid' & Hs' & H).
  all: exists mid'; split; [|exact H].
  all: repeat match goal with
         | Hs : Region.put _ _ _ = (Ok tt, _) |- _ => apply put_ok in Hs; subst
         | Hs : match ?o with _ => _ end _ = (Ok tt, _) |- _ => destruct o
         | Hs : skip _ = (Ok tt, _) |- _ => inversion Hs; subst; clear Hs
         end; reflexivity.
Qed.

(** In integer mode the edges [_calibrate_to_xy] computes are
    [2 * (width // 2)] apart, and likewise for the height. *)
Lemma xy_consistent_int r :
  all_int r -> xy_consistent r ->
  exists l rt t b w h,
    Region._left r = PyInt l /\ Region._right r = PyInt rt /\
    Region._top r = PyInt t /\ Region._bottom r = PyInt b /\
    Region._width r = PyInt w /\ Region._height r = PyInt h /\
    rt - l = 2 * (w / 2) /\ b - t = 2 * (h / 2).
Proof.
  destruct r as [l rt t b x y w h fi]. unfold all_int, xy_consistent; simpl.
  intros (Il & Ir & It & Ib & Ix & Iy & Iw & Ih) (El & Er & Et & Eb).
  destruct l as [l|], rt as [rt|], t as [t|], b as [b|], x as [x|], y as [y|],
    w as [w|], h as [h|]; try contradiction.
  simpl in *. inversion El; inversion Er; inversion Et; inversion Eb.
  exists (x - w / 2), (x + w / 2), (y - h / 2), (y + h / 2), w, h.
  repeat split; lia.
Qed.

(** C3 (amended).  After every mutator that succeeds, the representation
    that was not assigned is recomputed from the one that was.  After
    [set_rect] or an assignment to an edge: [width == right - left],
    [height == bottom - top], [x == left + width // 2] and
    [y == top + height // 2], with floor division in both modes.  After
    [set_xy], [set_size] or an assignment to [x], [y], [width] or [height],
    only the edges are recomputed, as [left == x - width // 2],
    [right == x + width // 2], [top == y - height // 2] and
    [bottom == y + height // 2]; the size is kept as assigned.  In
    [force_int] mode all eight values are then integers, and after a mutator
    of the second kind [right - left == 2 * (width // 2)] and
    [bottom - top == 2 * (height // 2)]: that is the width (height) when it
    is even, and one less when it is odd. *)
Theorem mutators_recalibrate (m : mutator) (self self' : Region.t) :
  mutate m self = (Ok tt, self') ->
  (if edge_side m then rect_consistent self' else xy_consistent self') /\
  Region._force_int self' = Region._force_int self /\
  (Region._force_int self = true -> all_int self') /\
  (edge_side m = false -> Region._force_int self = true ->
   exists l r t b w h,
     Region._left self' = PyInt l /\ Region._right self' = PyInt r /\
     Region._top self' = PyInt t /\ Region._bottom self' = PyInt b /\
     Region._width self' = PyInt w /\ Region._height self' = PyInt h /\
     r - l = 2 * (w / 2) /\ b - t = 2 * (h / 2) /\
     (r - l = w <-> Z.even w = true) /\ (b - t = h <-> Z.even h = true)).
Proof.
  intros H. apply mutate_calibrates in H. destruct H as (mid & Hf & H).
  destruct (edge_side m).
  - apply calibrate_to_rect_ok in H.
    destruct H as (mid' & _ & _ & _ & _ & _ & Hf' & Hc & Hcal).
    refine (conj Hc (conj _ (conj _ _))).
    + congruence.
    + intros F. apply Hcal. congruence.
    + discriminate.
  - apply calibrate_to_xy_ok in H.
    destruct H as (mid' & _ & _ & _ & _ & _ & Hf' & Hc & Hcal).
    refine (conj Hc (conj _ (conj _ _))).
    + congruence.
    + intros F. apply Hcal. congruence.
    + intros _ F.
      assert (Hi : all_int self') by (apply Hcal; congruence).
      destruct (xy_consistent_int _ Hi Hc)
        as (l & r & t & b & w & h & El & Er & Et & Eb & Ew & Eh & Hw & Hh).
      exists l, r, t, b, w, h.
      rewrite Hw, Hh. rewrite !twice_half_even. tauto.
Qed.

Lemma mutators_recalibrate_witness :
  mutate (SetSize (PyInt 4) (PyInt 6)) origin =
    (Ok tt,
     Region.mk (PyInt (-2)) (PyInt 2) (PyInt (-3)) (PyInt 3) (PyInt 0)
       (PyInt 0) (PyInt 4) (PyInt 6) true) /\
  xy_consistent
    (Region.mk (PyInt (-2)) (PyInt 2) (PyInt (-3)) (PyInt 3) (PyInt 0)
       (PyInt 0) (PyInt 4) (PyInt 6) true).
Proof.
  split; [reflexivity|].
  apply (mutators_recalibrate (SetSize (PyInt 4) (PyInt 6)) origin).
  reflexivity.
Defined.

(** C3, as stated, fails: on [Region()], [set_size(5, 5)] keeps
    [width = 5] but puts the edges at [-2] and [2], so [right - left] is 4:
    center and size no longer agree with the edges. *)
Lemma set_size_odd_diverges :
  mutate (SetSize (PyInt 5) (PyInt 5)) origin =
    (Ok tt,
     Region.mk (PyInt (-2)) (PyInt 2) (PyInt (-2)) (PyInt 2) (PyInt 0)
       (PyInt 0) (PyInt 5) (PyInt 5) true) /\
  py_sub (PyInt 2) (PyInt (-2)) = Ok (PyInt 4) /\
  ~ rect_consistent
      (Region.mk (PyInt (-2)) (PyInt 2) (PyInt (-2)) (PyInt 2) (PyInt 0)
         (PyInt 0) (PyInt 5) (PyInt 5) true).
Proof.
  split; [reflexivity|]. split; [reflexivity|].
  unfold rect_consistent; simpl. intros (H & _). discriminate.
Qed.

(* ===================================================================== *)
(** * Region: clone (C4, C10) *)
(* ===================================================================== *)

Lemma new_blank force_int : Region.new force_int = Ok (Region.blank force_int).
Proof. destruct force_int; reflexivity. Qed.

(** [_calibrate_to_rect] rebuilds a settled region from its edges. *)
Lemma calibrate_to_rect_settles x y w h r :
  calibrated r -> rect_consistent r ->
  Region._calibrate_to_rect
    (Region.mk (Region._left r) (Region._right r) (Region._top r)
       (Region._bottom r) (PyInt x) (PyInt y) (PyInt w) (PyInt h)
       (Region._force_int r))
  = (Ok tt, r).
Proof.
  destruct r as [l rt t b x0 y0 w0 h0 fi].
  unfold calibrated, all_int, rect_consistent; simpl.
  intros Hc (Ew & Eh & Ex & Ey).
  unfold Region._calibrate_to_rect, seq.
  assert (Hconv :
    Region.if_force_int Region.convert_to_int
      (Region.mk l rt t b (PyInt x) (PyInt y) (PyInt w) (PyInt h) fi)
    = (Ok tt, Region.mk l rt t b (PyInt x) (PyInt y) (PyInt w) (PyInt h) fi)).
  { unfold Region.if_force_int; simpl. destruct fi; [|reflexivity].
    apply convert_to_int_id. unfold all_int; simpl.
    destruct (Hc eq_refl) as (Il & Ir & It & Ib & _). repeat split; auto. }
  rewrite Hconv. unfold store; simpl.
  rewrite Ew; simpl. rewrite Eh; simpl. rewrite Ex; simpl. rewrite Ey.
  reflexivity.
Qed.

Lemma clone_settled r : settled r -> Region.clone r = Ok r.
Proof.
  intros (Hc & (Ho1 & Ho2) & Hr).
  unfold Region.clone. rewrite new_blank. simpl.
  unfold returning, Region.set_rect. rewrite Ho1, Ho2.
  unfold seq at 1 2 3 4. simpl.
  change (Region.with_bottom _ _) with
    (Region.mk (Region._left r) (Region._right r) (Region._top r)
       (Region._bottom r) (PyInt 0) (PyInt 0) (PyInt 0) (PyInt 0)
       (Region._force_int r)).
  rewrite (calibrate_to_rect_settles 0 0 0 0 r Hc Hr). reflexivity.
Qed.

Lemma clone_inverted r :
  inverted (Region._left r) (Region._right r) (Region._top r)
    (Region._bottom r) ->
  Region.clone r = Err InvalidGeometry.
Proof.
  intros H. unfold Region.clone. rewrite new_blank. simpl.
  unfold returning. rewrite (set_rect_inverted _ _ _ _ _ H). reflexivity.
Qed.

Lemma clone_ok r g :
  Region.clone r = Ok g ->
  Region._force_int g = Region._force_int r /\
  rect_consistent g /\
  calibrated g /\
  (calibrated r -> same_edges g r /\ edges_ordered g).
Proof.
  unfold Region.clone. rewrite new_blank. simpl. unfold returning.
  destruct (Region.set_rect _ _ _ _ _) as [[[]|e] s] eqn:E; [|discriminate].
  intros H; inversion H; subst s; clear H.
  pose proof E as E'.
  apply set_rect_ok in E. destruct E as (Hn & E).
  apply calibrate_to_rect_ok in E.
  destruct E as (mid & Hconv & Hl & Hrt & Ht & Hb & Hf & Hrc & Hcal).
  refine (conj Hf (conj Hrc (conj Hcal _))).
  intros Hc.
  apply if_force_int_convert_ok in Hconv.
  destruct Hconv as (_ & _ & Hid & _).
  assert (Hmid : mid =
    Region.mk (Region._left r) (Region._right r) (Region._top r)
      (Region._bottom r) (PyInt 0) (PyInt 0) (PyInt 0) (PyInt 0)
      (Region._force_int r)).
  { apply Hid. unfold calibrated, all_int; simpl. intros F.
    destruct (Hc F) as (Il & Ir & It & Ib & _). repeat split; auto. }
  subst mid. simpl in *.
  assert (Hs : same_edges g r) by (unfold same_edges; auto).
  split; [exact Hs|].
  destruct Hs as (Sl & Sr & St & Sb).
  unfold edges_ordered. rewrite Sl, Sr, St, Sb.
  unfold inverted in Hn.
  split.
  - destruct (py_lt (Region._right r) (Region._left r)); [exfalso; auto | reflexivity].
  - destruct (py_lt (Region._bottom r) (Region._top r)); [exfalso; auto | reflexivity].
Qed.

(** A call on one object leaves every other object as it was. *)
Lemma call_other l l' m h res h' :
  l <> l' -> Heap.call l m h = Some (res, h') -> h' !! l' = h !! l'.
Proof.
  unfold Heap.call. intros Hne.
  destruct (h !! l) as [o|]; [|discriminate].
  destruct (m (Heap.region_of o)) as [res' r']. intros H; inversion H; subst.
  apply lookup_insert_ne. exact Hne.
Qed.

Lemma calls_other l l' ms : forall h h',
  l <> l' -> calls l ms h = Some h' -> h' !! l' = h !! l'.
Proof.
  induction ms as [|m ms IH]; simpl; intros h h' Hne H.
  - inversion H; reflexivity.
  - destruct (Heap.call l (mutate m) h) as [[res h1]|] eqn:E; [|discriminate].
    rewrite (IH _ _ Hne H). eapply call_other; eauto.
Qed.

Lemma alloc_fresh o (h : Heap.heap) l' h' :
  Heap.alloc o h = (l', h') -> h !! l' = None /\ h' = <[l' := o]> h.
Proof.
  unfold Heap.alloc. intros H; inversion H; subst. split; [|reflexivity].
  apply not_elem_of_dom. apply is_fresh.
Qed.

Lemma square_0_5_settled : settled square_0_5.
Proof.
  unfold settled, calibrated, all_int, edges_ordered, rect_consistent; simpl.
  repeat split; exact I.
Defined.

Lemma heap_clone_ok l (h : Heap.heap) o l' h' :
  h !! l = Some o ->
  Heap.clone l h = Some (Ok l', h') ->
  exists g,
    Region.clone (Heap.region_of o) = Ok g /\
    h !! l' = None /\ l' <> l /\ h' = <[l' := Heap.ORegion g]> h.
Proof.
  unfold Heap.clone. intros Hl. rewrite Hl.
  destruct (Region.clone (Heap.region_of o)) as [g|e]; [|discriminate].
  destruct (Heap.alloc (Heap.ORegion g) h) as [l1 h1] eqn:A.
  intros H; inversion H; subst l1 h1.
  apply alloc_fresh in A. destruct A as (Hfresh & ->).
  exists g. repeat split; auto. intros ->. congruence.
Qed.

Lemma heap_clone_settled l (h : Heap.heap) o :
  h !! l = Some o -> settled (Heap.region_of o) ->
  exists l',
    Heap.clone l h =
      Some (Ok l', <[l' := Heap.ORegion (Heap.region_of o)]> h) /\
    h !! l' = None /\ l' <> l.
Proof.
  intros Hl Hs. unfold Heap.clone. rewrite Hl, (clone_settled _ Hs).
  unfold Heap.alloc. eexists. split; [reflexivity|].
  assert (Hf : h !! fresh (dom h) = None) by (apply not_elem_of_dom, is_fresh).
  split; [exact Hf|]. intros E. rewrite E in Hf. congruence.
Qed.

(** C4 (amended).  [r.clone()] makes a new object from the four edges and
    the mode of [r], with center and size recomputed from the edges.  So for
    a region whose edges are in order and whose center and size agree with
    them (as after the constructor, [set_rect] or an edge setter) the clone
    equals [r] in all nine fields.  In general, whenever [clone] returns,
    the clone has the [force_int] mode of [r], the edges of [r] (for [r] as
    a mutator leaves it) and [width == right - left], [x == left + width //
    2], ...: these differ from those of [r] after [set_size(5, 5)], say.  On
    a region whose edges are inverted [clone] raises [InvalidGeometry].  The
    clone is a fresh object: whatever is then called on [r] leaves the clone
    as it was, and the other way round. *)
Theorem clone_copies_edges (h : Heap.heap) (l : Heap.loc) (r : Region.t) :
  h !! l = Some (Heap.ORegion r) ->
  (settled r ->
   exists l', Heap.clone l h = Some (Ok l', <[l' := Heap.ORegion r]> h)) /\
  (inverted (Region._left r) (Region._right r) (Region._top r)
     (Region._bottom r) ->
   Heap.clone l h = Some (Err InvalidGeometry, h)) /\
  (forall l' h',
     Heap.clone l h = Some (Ok l', h') ->
     exists g,
       h !! l' = None /\ l' <> l /\ h' = <[l' := Heap.ORegion g]> h /\
       Region._force_int g = Region._force_int r /\
       rect_consistent g /\
       (calibrated r -> same_edges g r /\ edges_ordered g) /\
       (settled r -> g = r) /\
       (forall ms h'',
          calls l ms h' = Some h'' -> h'' !! l' = Some (Heap.ORegion g)) /\
       (forall ms h'',
          calls l' ms h' = Some h'' -> h'' !! l = Some (Heap.ORegion r))).
Proof.
  intros Hl. refine (conj _ (conj _ _)).
  - intros Hs. destruct (heap_clone_settled l h _ Hl Hs) as (l' & E & _).
    exists l'. exact E.
  - intros Hi. unfold Heap.clone. rewrite Hl. simpl.
    rewrite (clone_inverted _ Hi). reflexivity.
  - intros l' h' E.
    destruct (heap_clone_ok _ _ _ _ _ Hl E) as (g & Hg & Hfresh & Hne & ->).
    simpl in Hg. destruct (clone_ok _ _ Hg) as (Hf & Hrc & _ & Hed).
    exists g.
    refine (conj Hfresh (conj Hne (conj eq_refl (conj Hf (conj Hrc
             (conj Hed (conj _ (conj _ _)))))))).
    + intros Hs. rewrite (clone_settled _ Hs) in Hg. congruence.
    + intros ms h'' Hc. rewrite (calls_other _ _ _ _ _ (not_eq_sym Hne) Hc).
      apply lookup_insert_eq.
    + intros ms h'' Hc. rewrite (calls_other _ _ _ _ _ Hne Hc).
      rewrite lookup_insert_ne by exact Hne. exact Hl.
Qed.

Lemma clone_copies_edges_witness :
  one_square !! 1%positive = Some (Heap.ORegion square_0_5) /\
  exists l',
    Heap.clone 1%positive one_square =
      Some (Ok l', <[l' := Heap.ORegion square_0_5]> one_square).
Proof.
  split; [reflexivity|].
  apply (clone_copies_edges one_square 1%positive square_0_5 eq_refl).
  exact square_0_5_settled.
Defined.

(** C4, as stated, fails: [Region()] after [set_size(5, 5)] has width and
    height 5, and its clone has width and height 4. *)
Lemma clone_after_set_size_differs :
  mutate (SetSize (PyInt 5) (PyInt 5)) origin =
    (Ok tt,
     Region.mk (PyInt (-2)) (PyInt 2) (PyInt (-2)) (PyInt 2) (PyInt 0)
       (PyInt 0) (PyInt 5) (PyInt 5) true) /\
  Region.clone
    (Region.mk (PyInt (-2)) (PyInt 2) (PyInt (-2)) (PyInt 2) (PyInt 0)
       (PyInt 0) (PyInt 5) (PyInt 5) true) =
    Ok (Region.mk (PyInt (-2)) (PyInt 2) (PyInt (-2)) (PyInt 2) (PyInt 0)
          (PyInt 0) (PyInt 4) (PyInt 4) true) /\
  PyInt 4 <> PyInt 5.
Proof. repeat split; try reflexivity. discriminate. Qed.

Lemma unit_square_settled : settled unit_square.
Proof.
  unfold settled, calibrated, edges_ordered, rect_consistent; simpl.
  repeat split; try reflexivity; discriminate.
Defined.

(** C10.  [d.clone()] on a [DetectRegion] runs [Region.clone]: the object it
    returns is an instance of the base class [Region], which has no field
    for [class_id], [confidence] or the five flags, and [d] stays as it
    was.  The clone has the [force_int] mode and the edges of [d]; for [d]
    with edges in order and center and size in agreement with them it
    returns and all its nine fields are those of [d]. *)
Theorem detect_region_clone_is_region
    (h : Heap.heap) (l : Heap.loc) (d : DetectRegion.t) :
  h !! l = Some (Heap.ODetectRegion d) ->
  settled (DetectRegion.base d) ->
  (exists l',
     Heap.clone l h =
       Some (Ok l', <[l' := Heap.ORegion (DetectRegion.base d)]> h) /\
     h !! l' = None /\ l' <> l) /\
  (forall l' h',
     Heap.clone l h = Some (Ok l', h') ->
     h' !! l' = Some (Heap.ORegion (DetectRegion.base d)) /\
     h' !! l = Some (Heap.ODetectRegion d)).
Proof.
  intros Hl Hs. split.
  - exact (heap_clone_settled l h _ Hl Hs).
  - intros l' h' E.
    destruct (heap_clone_ok _ _ _ _ _ Hl E) as (g & Hg & Hfresh & Hne & ->).
    simpl in Hg. rewrite (clone_settled _ Hs) in Hg. inversion Hg; subst g.
    split.
    + apply lookup_insert_eq.
    + rewrite lookup_insert_ne by exact Hne. exact Hl.
Qed.

Lemma detect_region_clone_is_region_witness :
  one_dog !! 1%positive = Some (Heap.ODetectRegion dog) /\
  exists l',
    Heap.clone 1%positive one_dog =
      Some (Ok l', <[l' := Heap.ORegion unit_square]> one_dog) /\
    one_dog !! l' = None /\ l' <> 1%positive.
Proof.
  split; [reflexivity|].
  apply (detect_region_clone_is_region one_dog 1%positive dog eq_refl).
  exact unit_square_settled.
Defined.

(* ===================================================================== *)
(** * DetectRegion: encode and decode (C5) *)
(* ===================================================================== *)

Lemma as_float_0 : as_float (PyInt 0) = Ok zero.
Proof. exact float_of_Z_0. Qed.

Lemma decode_encode {B : Builtins} l r t b x y w h fi s c o1 o2 o3 o4 o5 :
  DetectRegion.decode
    (DetectRegion.encode
       (DetectRegion.mk
          (Region.mk (PyFloat l) (PyFloat r) (PyFloat t) (PyFloat b) x y w h fi)
          (Some s) c o1 o2 o3 o4 o5)) =
  Ok (DetectRegion.mk
        (Region.mk (PyFloat l) (PyFloat r) (PyFloat t) (PyFloat b)
           (PyFloat (l + float_floordiv2 (r - l)))
           (PyFloat (t + float_floordiv2 (b - t)))
           (PyFloat (r - l)) (PyFloat (b - t)) false)
        (Some s) c o1 o2 o3 o4 o5).
Proof.
  cbv -[float_floordiv2 PrimFloat.sub PrimFloat.add]. reflexivity.
Qed.

Lemma dog_declared : declared_types dog.
Proof. unfold declared_types; simpl. repeat split; try exact I. discriminate. Defined.

(** C5.  For a [DetectRegion] whose fields have the declared types (float
    edges, a string [class_id]), [decode(encode(r))] returns a detection
    that agrees with [r] on all eleven serialized fields; the edges and the
    confidence come back as floats, the flags as ints and [class_id] as a
    string.  The result has [force_int] off and center and size computed
    from the edges, so for [r] built that way (by the loader or by [decode])
    it is [r] itself. *)
Theorem decode_encode_roundtrip {B : Builtins} (d : DetectRegion.t) :
  declared_types d ->
  exists d',
    DetectRegion.decode (DetectRegion.encode d) = Ok d' /\
    same_fields d' d /\
    loaded d' /\
    (loaded d -> d' = d).
Proof.
  destruct d as [[l r t b x y w h fi] cid c o1 o2 o3 o4 o5].
  unfold declared_types; simpl. intros (Hl & Hr & Ht & Hb & Hc).
  destruct l as [|l], r as [|r], t as [|t], b as [|b]; try contradiction.
  destruct cid as [s|]; [|congruence].
  eexists. split; [apply decode_encode|].
  split; [unfold same_fields; simpl; repeat split|].
  split.
  - unfold loaded, declared_types, rect_consistent; simpl.
    repeat split; try exact I; discriminate.
  - unfold loaded, rect_consistent; simpl. intros (_ & -> & Ew & Eh & Ex & Ey).
    inversion Ew; subst w. inversion Eh; subst h. simpl in Ex, Ey.
    inversion Ex; inversion Ey. reflexivity.
Qed.

Lemma decode_encode_roundtrip_witness :
  declared_types dog /\
  exists d',
    @DetectRegion.decode example_builtins (DetectRegion.encode dog) = Ok d' /\
    same_fields d' dog.
Proof.
  split; [exact dog_declared|].
  destruct (@decode_encode_roundtrip example_builtins dog dog_declared)
    as (d' & E & S & _).
  exists d'. split; assumption.
Defined.

(** Outside the declared types: a [class_id] that was never assigned is
    [None], is written as [null], and is read back as the string "None"
    by [str(...)]; integer edges are read back as floats. *)
Remark decode_encode_unassigned {B : Builtins} :
  DetectRegion.new true =
    Ok (DetectRegion.mk (Region.blank true) None one 0 0 0 0 0) /\
  DetectRegion.decode
    (DetectRegion.encode
       (DetectRegion.mk (Region.blank true) None one 0 0 0 0 0)) =
    Ok (DetectRegion.mk
          (Region.mk (PyFloat 0) (PyFloat 0) (PyFloat 0) (PyFloat 0)
             (PyFloat 0) (PyFloat 0) (PyFloat 0) (PyFloat 0) false)
          (Some "None"%string) one 0 0 0 0 0).
Proof. split; reflexivity. Qed.

(* ===================================================================== *)
(** * Loader: reading a sample set (C8) *)
(* ===================================================================== *)

Lemma arith_data_error e : arith_error e -> data_error e.
Proof. unfold arith_error, data_error. tauto. Qed.

Lemma raises_only_weaken {S} (P Q : exn -> Prop) (m : method S unit) :
  (forall e, P e -> Q e) -> raises_only P m -> raises_only Q m.
Proof. intros HPQ H self e E. apply HPQ, (H self e E). Qed.

Lemma returning_error {S} (body : method S unit) self e :
  returning body self = Err e -> fst (body self) = Err e.
Proof.
  unfold returning. destruct (body self) as [[[]|e'] s]; simpl; congruence.
Qed.

Lemma returning_ok {S} (body : method S unit) self self' :
  returning body self = Ok self' <-> body self = (Ok tt, self').
Proof.
  unfold returning. destruct (body self) as [[[]|e'] s]; split; congruence.
Qed.

Lemma raises_only_inherited P m :
  raises_only P m -> raises_only P (DetectRegion.inherited m).
Proof.
  intros H self e. unfold DetectRegion.inherited.
  destruct (m (DetectRegion.base self)) as [res base'] eqn:E. simpl.
  intros ->. apply (H (DetectRegion.base self)). rewrite E. reflexivity.
Qed.

Lemma raises_only_set_prop P setter expr :
  (forall e, expr = Err e -> P e) ->
  (forall v, raises_only P (setter v)) ->
  raises_only P (DetectRegion.set_prop setter expr).
Proof.
  intros He Hs self e. unfold DetectRegion.set_prop.
  destruct expr as [v|e'].
  - apply raises_only_inherited, Hs.
  - simpl. intros H; inversion H; subst. auto.
Qed.

Lemma map_result_error {A B} (P : exn -> Prop) (f : A -> result B) xs e :
  (forall x e, f x = Err e -> P e) -> map_result f xs = Err e -> P e.
Proof.
  intros Hf. induction xs as [|x xs IH]; simpl; [discriminate|].
  destruct (f x) eqn:E; simpl.
  - destruct (map_result f xs); simpl; [discriminate|].
    intros H; inversion H; subst. auto.
  - intros H; inversion H; subst. eauto.
Qed.

Lemma py_getitem_error data key e : py_getitem data key = Err e -> data_error e.
Proof.
  unfold data_error. destruct data; simpl; try (intros H; inversion H; tauto).
  destruct (assoc key entries); intros H; inversion H; tauto.
Qed.

Lemma or_ValueError_error {A} (o : option A) e :
  or_ValueError o = Err e -> data_error e.
Proof. unfold data_error. destruct o; simpl; intros H; inversion H; tauto. Qed.

Lemma py_float_error {B : Builtins} v e : py_float v = Err e -> data_error e.
Proof.
  destruct v; simpl; try (intros H; inversion H; unfold data_error; tauto).
  - intros H. apply arith_data_error. eapply as_float_error; eauto.
  - apply or_ValueError_error.
Qed.

Lemma py_int_of_error {B : Builtins} v e : py_int_of v = Err e -> data_error e.
Proof.
  destruct v as [| |[z|f]| | |]; simpl;
    try (intros H; inversion H; unfold data_error; tauto).
  - intros H. apply arith_data_error. eapply float_int_error; eauto.
  - apply or_ValueError_error.
Qed.

Lemma py_iter_error v e : py_iter v = Err e -> data_error e.
Proof.
  destruct v; simpl; intros H; inversion H; unfold data_error; tauto.
Qed.

Lemma as_str_error v e : as_str v = Err e -> data_error e.
Proof.
  destruct v; simpl; intros H; inversion H; unfold data_error; tauto.
Qed.

Lemma bind_error {A C} (P : exn -> Prop) (m : result A) (k : A -> result C) e :
  (forall e, m = Err e -> P e) ->
  (forall a e, k a = Err e -> P e) ->
  bind m k = Err e -> P e.
Proof.
  intros Hm Hk. destruct m as [a|e']; simpl.
  - apply Hk.
  - intros H; inversion H; subst. apply Hm. reflexivity.
Qed.

Lemma item_float_error {B : Builtins} data key e :
  DetectRegion.item_float data key = Err e -> data_error e.
Proof.
  apply bind_error; [apply py_getitem_error | intros a; apply py_float_error].
Qed.

Lemma item_int_error {B : Builtins} data key e :
  DetectRegion.item_int data key = Err e -> data_error e.
Proof.
  apply bind_error; [apply py_getitem_error | intros a; apply py_int_of_error].
Qed.

Lemma item_str_error {B : Builtins} data key e :
  DetectRegion.item_str data key = Err e -> data_error e.
Proof.
  apply bind_error; [apply py_getitem_error | discriminate].
Qed.

Lemma edge_setter_raises v :
  raises_only data_error (Region.set_left v) /\
  raises_only data_error (Region.set_right v) /\
  raises_only data_error (Region.set_top v) /\
  raises_only data_error (Region.set_bottom v).
Proof.
  pose proof calibrate_to_rect_raises as H.
  repeat split;
    apply (raises_only_weaken arith_error); try exact arith_data_error;
    apply raises_only_seq; try exact H; apply raises_only_put.
Qed.

Lemma detect_region_new_false :
  DetectRegion.new false =
    Ok (DetectRegion.mk (Region.blank false) None one 0 0 0 0 0).
Proof. reflexivity. Qed.

Lemma detect_region_decode_error {B : Builtins} data e :
  DetectRegion.decode data = Err e -> data_error e.
Proof.
  unfold DetectRegion.decode. rewrite detect_region_new_false. simpl.
  intros H. apply returning_error in H. revert H.
  match goal with
  | |- fst (?body ?s) = _ -> _ =>
      assert (R : raises_only data_error body); [| exact (R s e)]
  end.
  repeat first
    [ apply raises_only_seq
    | apply raises_only_set_prop;
      [ intros ?; apply item_float_error
      | intros v; apply (edge_setter_raises v) ]
    | apply raises_only_store; cbv beta; intros ? ?;
      first [ apply item_float_error | apply item_int_error
            | apply item_str_error ] ].
Qed.

Lemma sample_decode_error {B : Builtins} data e :
  Sample.decode data = Err e -> data_error e.
Proof.
  unfold Sample.decode. intros H. apply returning_error in H. revert H.
  match goal with
  | |- fst (?body ?s) = _ -> _ =>
      assert (R : raises_only data_error body); [| exact (R s e)]
  end.
  repeat first
    [ apply raises_only_seq
    | apply raises_only_store; cbv beta; intros ? ? ].
  - apply bind_error; [apply py_getitem_error | intros a; apply as_str_error].
  - apply bind_error; [apply py_getitem_error | intros a; apply as_str_error].
  - apply bind_error; [apply py_getitem_error | intros a e1].
    apply bind_error; [apply py_iter_error | intros ds e2].
    apply map_result_error. intros x e3. apply detect_region_decode_error.
Qed.

Lemma stamp_error {B : Builtins} data sample e :
  Loader.stamp data sample = Err e -> data_error e.
Proof.
  unfold Loader.stamp.
  apply bind_error; [apply py_getitem_error | intros v e1].
  apply bind_error; [apply py_int_of_error | discriminate].
Qed.

Lemma data_error_not_FileNotFound : ~ data_error FileNotFound.
Proof. unfold data_error. intros [H|[H|[H|H]]]; discriminate. Qed.

(** Once the file is there, no step of the load reports it missing. *)
Lemma load_present {B : Builtins} (fs : filesystem) path f :
  fs !! path = Some f ->
  Loader.load_sample_set_from_file fs path <> Err FileNotFound.
Proof.
  intros Hf. unfold Loader.load_sample_set_from_file. rewrite Hf.
  destruct f as [doc|]; simpl; [|discriminate].
  intros H. apply data_error_not_FileNotFound. revert H.
  apply bind_error; [apply py_getitem_error | intros sd e1].
  apply bind_error; [apply py_iter_error | intros ds e2].
  apply bind_error.
  - intros e3. apply map_result_error. intros x e4. apply sample_decode_error.
  - intros samples e3. apply map_result_error. intros x e4. apply stamp_error.
Qed.

Lemma map_result_ok_map {A C} (f : A -> result C) (g : A -> C) xs :
  (forall x, In x xs -> f x = Ok (g x)) -> map_result f xs = Ok (map g xs).
Proof.
  induction xs as [|x xs IH]; simpl; intros H; [reflexivity|].
  rewrite (H x) by auto. simpl. rewrite IH by auto. reflexivity.
Qed.

Lemma map_result_length {A C} (f : A -> result C) xs ys :
  map_result f xs = Ok ys -> length ys = length xs.
Proof.
  revert ys. induction xs as [|x xs IH]; simpl; intros ys.
  - intros H; inversion H; reflexivity.
  - destruct (f x); simpl; [|discriminate].
    destruct (map_result f xs) as [zs|]; simpl; [|discriminate].
    intros H; inversion H; subst. simpl. rewrite (IH zs); reflexivity.
Qed.

Lemma map_result_stamp {B : Builtins} data samples stamped :
  map_result (Loader.stamp data) samples = Ok stamped ->
  samples = [] /\ stamped = [] \/
  exists v i,
    py_getitem data "set_index" = Ok v /\ py_int_of v = Ok i /\
    stamped = map (Sample.with_set_index (Some i)) samples.
Proof.
  destruct samples as [|s samples].
  - simpl. intros H; inversion H. auto.
  - intros H. right.
    assert (Hs : exists v i,
      py_getitem data "set_index" = Ok v /\ py_int_of v = Ok i).
    { simpl in H. unfold Loader.stamp at 1 in H.
      destruct (py_getitem data "set_index") as [v|]; simpl in H; [|discriminate].
      destruct (py_int_of v) as [i|] eqn:Ei; simpl in H; [|discriminate].
      exists v, i. split; [reflexivity | exact Ei]. }
    destruct Hs as (v & i & Ev & Ei). exists v, i.
    refine (conj Ev (conj Ei _)).
    rewrite (map_result_ok_map _ (Sample.with_set_index (Some i))) in H.
    + inversion H; reflexivity.
    + intros x _. unfold Loader.stamp. rewrite Ev; simpl. rewrite Ei; reflexivity.
Qed.

(** C8.  [load_sample_set_from_file] fails with [FileNotFound] if and only
    if there is no file at the path: the test comes first, and once the file
    is there no later step (parsing, decoding, stamping) raises that error.
    When the file is there and the load returns, it has parsed the document,
    decoded every entry of its ["samples"], and given every decoded sample
    the [set_index] that [int(data["set_index"])] yields; and it does return
    that whenever the entries decode and the container has such an index. *)
Theorem load_fails_iff_missing {B : Builtins} (fs : filesystem) (path : string) :
  (Loader.load_sample_set_from_file fs path = Err FileNotFound <->
   fs !! path = None) /\
  (forall samples,
     Loader.load_sample_set_from_file fs path = Ok samples ->
     exists data sample_data entries decoded,
       fs !! path = Some (JsonText data) /\
       py_getitem data "samples" = Ok sample_data /\
       py_iter sample_data = Ok entries /\
       map_result Sample.decode entries = Ok decoded /\
       length samples = length entries /\
       (decoded = [] /\ samples = [] \/
        exists v i,
          py_getitem data "set_index" = Ok v /\ py_int_of v = Ok i /\
          samples = map (Sample.with_set_index (Some i)) decoded /\
          Forall (fun s => Sample.set_index s = Some i) samples)) /\
  (forall data sample_data entries decoded v i,
     fs !! path = Some (JsonText data) ->
     py_getitem data "samples" = Ok sample_data ->
     py_iter sample_data = Ok entries ->
     map_result Sample.decode entries = Ok decoded ->
     py_getitem data "set_index" = Ok v ->
     py_int_of v = Ok i ->
     Loader.load_sample_set_from_file fs path =
       Ok (map (Sample.with_set_index (Some i)) decoded)).
Proof.
  refine (conj _ (conj _ _)).
  - split.
    + intros H. destruct (fs !! path) as [f|] eqn:E; [|reflexivity].
      destruct (load_present fs path f E H).
    + intros H. unfold Loader.load_sample_set_from_file. rewrite H. reflexivity.
  - intros samples. unfold Loader.load_sample_set_from_file.
    destruct (fs !! path) as [[data|]|] eqn:Ef; simpl; try discriminate.
    destruct (py_getitem data "samples") as [sample_data|] eqn:Es; simpl;
      [|discriminate].
    destruct (py_iter sample_data) as [entries|] eqn:Ei; simpl; [|discriminate].
    destruct (map_result Sample.decode entries) as [decoded|] eqn:Ed; simpl;
      [|discriminate].
    intros H. exists data, sample_data, entries, decoded.
    refine (conj eq_refl (conj Es (conj Ei (conj Ed (conj _ _))))).
    + rewrite (map_result_length _ _ _ H). apply (map_result_length _ _ _ Ed).
    + destruct (map_result_stamp _ _ _ H) as [(-> & ->)|(v & i & Ev & Ei0 & ->)].
      * left. auto.
      * right. exists v, i. refine (conj Ev (conj Ei0 (conj eq_refl _))).
        apply List.Forall_forall. intros s Hs. apply in_map_iff in Hs.
        destruct Hs as (s0 & <- & _). reflexivity.
  - intros data sample_data entries decoded v i Hf Hs Hi Hd Hv Hn.
    unfold Loader.load_sample_set_from_file. rewrite Hf. simpl.
    rewrite Hs. simpl. rewrite Hi. simpl. rewrite Hd. simpl.
    apply map_result_ok_map. intros s _. unfold Loader.stamp.
    rewrite Hv. simpl. rewrite Hn. reflexivity.
Qed.

(* ===================================================================== *)
(** * Loader: the partition files (C1) *)
(* ===================================================================== *)

Lemma append_nil_l x : String.append EmptyString x = x.
Proof. reflexivity. Qed.

Lemma append_cons c p x :
  String.append (String c p) x = String c (String.append p x).
Proof. reflexivity. Qed.

Lemma append_inj_l p x y : String.append p x = String.append p y -> x = y.
Proof.
  induction p as [|c p IH]; rewrite ?append_nil_l, ?append_cons; intros H;
    [exact H|].
  inversion H. auto.
Qed.

Lemma length_append x y :
  String.length (String.append x y) = (String.length x + String.length y)%nat.
Proof.
  induction x as [|c x IH]; rewrite ?append_nil_l, ?append_cons; simpl;
    [reflexivity | rewrite IH; reflexivity].
Qed.

Lemma append_inj_r s x : forall y,
  String.append x s = String.append y s -> x = y.
Proof.
  induction x as [|c x IH]; intros [|d y] H.
  - reflexivity.
  - apply (f_equal String.length) in H. rewrite !length_append in H.
    simpl in H. lia.
  - apply (f_equal String.length) in H. rewrite !length_append in H.
    simpl in H. lia.
  - rewrite !append_cons in H. inversion H. f_equal. auto.
Qed.

Lemma append_assoc x y z :
  String.append (String.append x y) z = String.append x (String.append y z).
Proof.
  induction x as [|c x IH]; rewrite ?append_nil_l, ?append_cons;
    [reflexivity | rewrite IH; reflexivity].
Qed.

Lemma str_of_int_inj i j : str_of_int i = str_of_int j -> i = j.
Proof.
  unfold str_of_int. intros H.
  assert (Hn : forall z, Z.to_int z <> Decimal.Pos Decimal.Nil /\
                         Z.to_int z <> Decimal.Neg Decimal.Nil).
  { intros [|p|p]; simpl; split; try discriminate;
      intros E; inversion E; eapply DecimalPos.Unsigned.to_uint_nonnil; eauto. }
  apply (f_equal NilZero.int_of_string) in H.
  rewrite !NilZero.isi in H by apply Hn.
  inversion H. apply DecimalZ.to_int_inj. assumption.
Qed.

(** A file name that does not start with "/" is put after a prefix that
    depends on the directory alone. *)
Lemma path_join_prefix a :
  exists prefix, forall c f,
    c <> "/"%char -> path_join a (String c f) = String.append prefix (String c f).
Proof.
  destruct (String.eqb a EmptyString) eqn:Ea;
    [|destruct (String.eqb (substring (String.length a - 1) 1 a) "/") eqn:Es].
  - exists EmptyString. intros c f Hc. unfold path_join. rewrite Ea.
    destruct c as [[] [] [] [] [] [] [] []]; reflexivity.
  - exists a. intros c f Hc. unfold path_join. rewrite Ea, Es.
    destruct c as [[] [] [] [] [] [] [] []];
      first [reflexivity | exfalso; apply Hc; reflexivity].
  - exists (String.append a "/"). intros c f Hc. unfold path_join.
    rewrite Ea, Es, append_assoc.
    destruct c as [[] [] [] [] [] [] [] []];
      first [reflexivity | exfalso; apply Hc; reflexivity].
Qed.

Lemma sample_set_path_inj path i j :
  Loader.sample_set_path path i = Loader.sample_set_path path j -> i = j.
Proof.
  unfold Loader.sample_set_path. cbv zeta.
  rewrite !append_cons, !append_nil_l.
  destruct (path_join_prefix path) as (prefix & Hp).
  rewrite !Hp by discriminate. intros H.
  apply append_inj_l in H. inversion H as [H'].
  apply append_inj_r in H'. apply str_of_int_inj. exact H'.
Qed.

Lemma write_samples_sample_set samples path index (fs : filesystem) :
  Loader._write_samples samples path index fs =
    <[Loader.sample_set_path path index := sample_set index samples]> fs.
Proof. reflexivity. Qed.

(** A slice that lies within the list is the batch. *)
Lemma py_slice_chunk (sample_list : list Sample.t) size i :
  0 < size -> 0 <= i ->
  (i + 1) * size <= Z.of_nat (length sample_list) ->
  py_slice sample_list (i * size) ((i + 1) * size) = chunk sample_list size i /\
  length (chunk sample_list size i) = Z.to_nat size.
Proof.
  intros Hs Hi Hm. unfold py_slice, chunk.
  assert (H0 : 0 <= i * size) by nia.
  assert (H1 : i * size <= Z.of_nat (length sample_list)) by nia.
  assert (E0 : (i * size <? 0) = false) by (apply Z.ltb_ge; lia).
  assert (E1 : ((i + 1) * size <? 0) = false) by (apply Z.ltb_ge; nia).
  rewrite E0, E1, !Z.min_l by lia.
  replace ((i + 1) * size - i * size) with size by lia.
  split; [reflexivity|].
  rewrite length_take, length_drop. lia.
Qed.

Lemma export_loop_spec sample_list path size :
  0 < size ->
  forall fuel i (fs : filesystem),
    0 <= i -> i <= Z.of_nat (length sample_list) ->
    Z.of_nat (length sample_list) - i < Z.of_nat fuel ->
    exists fs',
      Loader.export_loop fuel sample_list path size i fs = Some fs' /\
      (forall j, i <= j -> (j + 1) * size < Z.of_nat (length sample_list) ->
         fs' !! Loader.sample_set_path path j =
           Some (sample_set j (chunk sample_list size j))) /\
      (forall p,
         (forall j, i <= j -> (j + 1) * size < Z.of_nat (length sample_list) ->
            p <> Loader.sample_set_path path j) ->
         fs' !! p = fs !! p).
Proof.
  intros Hs. induction fuel as [|fuel IH]; intros i fs Hi Hn Hf; [lia|].
  simpl. destruct ((i + 1) * size >=? Z.of_nat (length sample_list)) eqn:E.
  - apply Z.geb_le in E. exists fs. split; [reflexivity|]. split.
    + intros j Hj Hlt. exfalso. nia.
    + reflexivity.
  - assert (Hlt : (i + 1) * size < Z.of_nat (length sample_list)).
    { destruct (Z.geb_spec ((i + 1) * size) (Z.of_nat (length sample_list)));
        [discriminate | lia]. }
    rewrite write_samples_sample_set.
    destruct (py_slice_chunk sample_list size i Hs Hi) as (-> & _); [lia|].
    destruct (IH (i + 1)
                (<[Loader.sample_set_path path i :=
                     sample_set i (chunk sample_list size i)]> fs))
      as (fs' & -> & Hw & Ho); try nia.
    exists fs'. split; [reflexivity|]. split.
    + intros j Hj Hjlt. destruct (Z.eq_dec j i) as [->|Hne].
      * rewrite Ho.
        -- apply lookup_insert_eq.
        -- intros j Hj' _ Heq. apply sample_set_path_inj in Heq. lia.
      * apply Hw; lia.
    + intros p Hp. rewrite Ho.
      * apply lookup_insert_ne. intros Heq. apply (Hp i); auto; lia.
      * intros j Hj Hjlt. apply Hp; lia.
Qed.

(** C1 (amended).  For a positive [size], [export_samples] ends and cuts
    the samples, in the order of the dictionary, into consecutive batches of
    exactly [size]; it writes batch [i] to its own file, with [set_index]
    [i], exactly when [(i + 1) * size] is less than the number of samples.
    So the last batch is never written, whether it is partial or full: when
    the number of samples is [k * size], only the first [k - 1] batches are
    written.  No other file is touched. *)
Theorem export_samples_writes
    (samples : dict Sample.t) (path : string) (size : Z) (fuel : nat)
    (fs : filesystem) :
  0 < size ->
  (length samples < fuel)%nat ->
  exists fs',
    Loader.export_samples fuel samples path size fs = Some fs' /\
    (forall i, 0 <= i -> (i + 1) * size < Z.of_nat (length samples) ->
       fs' !! Loader.sample_set_path path i =
         Some (sample_set i (chunk (dict_values samples) size i)) /\
       length (chunk (dict_values samples) size i) = Z.to_nat size) /\
    (forall i, 0 <= i -> Z.of_nat (length samples) <= (i + 1) * size ->
       fs' !! Loader.sample_set_path path i =
         fs !! Loader.sample_set_path path i) /\
    (forall p, (forall i, 0 <= i -> p <> Loader.sample_set_path path i) ->
       fs' !! p = fs !! p).
Proof.
  intros Hs Hf. unfold Loader.export_samples.
  assert (Hlen : length (dict_values samples) = length samples)
    by apply length_map.
  destruct (export_loop_spec (dict_values samples) path size Hs fuel 0 fs)
    as (fs' & E & Hw & Ho); try lia.
  rewrite Hlen in Hw, Ho.
  exists fs'. split; [exact E|]. split; [|split].
  - intros i Hi Hlt. split; [apply Hw; assumption|].
    apply py_slice_chunk; lia.
  - intros i Hi Hge. apply Ho. intros j Hj Hjlt Heq.
    apply sample_set_path_inj in Heq. nia.
  - intros p Hp. apply Ho. intros j Hj _. apply Hp, Hj.
Qed.

Lemma export_samples_writes_witness :
  0 < 2 /\ (length four_samples < 5)%nat /\
  exists fs',
    Loader.export_samples 5 four_samples "out" 2 ∅ = Some fs' /\
    fs' !! Loader.sample_set_path "out" 0 =
      Some (sample_set 0 [bare "a"; bare "b"]).
Proof.
  assert (Hs : 0 < 2) by lia.
  assert (Hf : (length four_samples < 5)%nat) by (simpl; lia).
  refine (conj Hs (conj Hf _)).
  destruct (export_samples_writes four_samples "out" 2 5 ∅ Hs Hf)
    as (fs' & E & Hw & _).
  exists fs'. split; [exact E|].
  apply (Hw 0); simpl; lia.
Defined.

(** C1, as stated, fails: of four samples in batches of two, the second
    batch, which is full, is not written. *)
Lemma export_drops_full_last_batch :
  Loader.export_samples 5 four_samples "out" 2 ∅ =
    Some {[ "out/sample_set_0.json"%string :=
              sample_set 0 [bare "a"; bare "b"] ]} /\
  Loader.sample_set_path "out" 1 = "out/sample_set_1.json"%string /\
  ({[ "out/sample_set_0.json"%string := sample_set 0 [bare "a"; bare "b"] ]}
     : filesystem) !! "out/sample_set_1.json"%string = None.
Proof. repeat split; vm_compute; reflexivity. Qed.

(* ===================================================================== *)
(** * Loader: writing a sample set and reading it back (C7) *)
(* ===================================================================== *)

Lemma decode_encode_fields {B : Builtins} (d : DetectRegion.t) :
  declared_types d ->
  exists d',
    DetectRegion.decode (DetectRegion.encode d) = Ok d' /\ same_fields d' d.
Proof.
  destruct d as [[l r t b x y w h fi] cid c o1 o2 o3 o4 o5].
  unfold declared_types; simpl. intros (Hl & Hr & Ht & Hb & Hc).
  destruct l as [|l], r as [|r], t as [|t], b as [|b]; try contradiction.
  destruct cid as [s|]; [|congruence].
  eexists. split; [apply decode_encode|].
  unfold same_fields; simpl. repeat split.
Qed.

Lemma decode_encode_regions {B : Builtins} (regions : list DetectRegion.t) :
  Forall declared_types regions ->
  exists regions',
    map_result DetectRegion.decode (map DetectRegion.encode regions) =
      Ok regions' /\
    Forall2 same_fields regions' regions.
Proof.
  induction regions as [|d regions IH]; intros H.
  - exists []. split; [reflexivity | constructor].
  - inversion H as [|? ? Hd Hrest]; subst.
    destruct (decode_encode_fields d Hd) as (d' & Ed & Sd).
    destruct (IH Hrest) as (regions' & Er & Sr).
    exists (d' :: regions'). simpl. rewrite Ed; simpl. rewrite Er; simpl.
    split; [reflexivity | constructor; assumption].
Qed.

Lemma sample_decode_encode {B : Builtins} (s : Sample.t) :
  regions_declared s ->
  exists regions',
    Sample.decode (Sample.encode s) =
      Ok (Sample.mk (Sample.key s) None (Sample.remote_path s) regions' None) /\
    Forall2 same_fields regions' (Sample.detect_regions s).
Proof.
  intros H. destruct (decode_encode_regions _ H) as (regions' & E & S).
  exists regions'. split; [|exact S].
  unfold Sample.decode, Sample.encode, returning, seq, store. simpl.
  rewrite E. reflexivity.
Qed.

Lemma decode_encode_samples {B : Builtins} i (samples : list Sample.t) :
  Forall regions_declared samples ->
  exists decoded,
    map_result Sample.decode (map Sample.encode samples) = Ok decoded /\
    Forall2 (comes_back i) samples
      (map (Sample.with_set_index (Some i)) decoded).
Proof.
  induction samples as [|s samples IH]; intros H.
  - exists []. split; [reflexivity | constructor].
  - inversion H as [|? ? Hs Hrest]; subst.
    destruct (sample_decode_encode s Hs) as (regions' & Es & Ss).
    destruct (IH Hrest) as (decoded & Ed & Sd).
    eexists. simpl. rewrite Es; simpl. rewrite Ed; simpl.
    split; [reflexivity|]. constructor; [|exact Sd].
    unfold comes_back; simpl. auto.
Qed.

Lemma load_written_sample_set {B : Builtins} (fs : filesystem) path i samples :
  fs !! path = Some (sample_set i samples) ->
  Forall regions_declared samples ->
  exists reloaded,
    Loader.load_sample_set_from_file fs path = Ok reloaded /\
    Forall2 (comes_back i) samples reloaded.
Proof.
  intros Hf Hd. destruct (decode_encode_samples i samples Hd) as (decoded & E & S).
  exists (map (Sample.with_set_index (Some i)) decoded). split; [|exact S].
  unfold Loader.load_sample_set_from_file. rewrite Hf.
  unfold sample_set. simpl. rewrite E. simpl.
  apply map_result_ok_map. intros s _. reflexivity.
Qed.

(** C7.  Let [export_samples] write batch [i] (a positive [size], and
    [(i + 1) * size] less than the number of samples), where the detections
    of the batch have the declared types, as those the loader builds have.
    Then [load_sample_set_from_file] on the file of index [i] returns the
    samples of the batch, in order, each with the same key, remote path and
    detections (equal on all eleven fields, in order) and with [set_index]
    [i], the index of the container. *)
Theorem export_load_roundtrip {B : Builtins}
    (samples : dict Sample.t) (path : string) (size : Z) (fuel : nat)
    (fs : filesystem) (i : Z) :
  0 < size ->
  (length samples < fuel)%nat ->
  0 <= i ->
  (i + 1) * size < Z.of_nat (length samples) ->
  Forall regions_declared (chunk (dict_values samples) size i) ->
  exists fs' reloaded,
    Loader.export_samples fuel samples path size fs = Some fs' /\
    Loader.load_sample_set_from_file fs' (Loader.sample_set_path path i) =
      Ok reloaded /\
    Forall2 (comes_back i) (chunk (dict_values samples) size i) reloaded.
Proof.
  intros Hs Hf Hi Hlt Hd. unfold Loader.export_samples.
  assert (Hlen : length (dict_values samples) = length samples)
    by apply length_map.
  destruct (export_loop_spec (dict_values samples) path size Hs fuel 0 fs)
    as (fs' & E & Hw & _); try lia.
  destruct (load_written_sample_set fs' (Loader.sample_set_path path i) i
              (chunk (dict_values samples) size i)) as (reloaded & El & Sl).
  - apply Hw; lia.
  - exact Hd.
  - exists fs', reloaded. auto.
Qed.

Lemma export_load_roundtrip_witness :
  exists fs' reloaded,
    Loader.export_samples 3 two_samples "out" 1 ∅ = Some fs' /\
    @Loader.load_sample_set_from_file example_builtins fs'
      (Loader.sample_set_path "out" 0) = Ok reloaded /\
    Forall2 (comes_back 0) [dog_photo] reloaded.
Proof.
  apply (@export_load_roundtrip example_builtins two_samples "out" 1 3 ∅ 0);
    try (simpl; lia).
  repeat constructor; try exact I. discriminate.
Defined.

(* ===================================================================== *)
(** * Dictionaries *)
(* ===================================================================== *)

Lemma dict_get_set_eq {V} key (v : V) d : dict_get key (dict_set key v d) = Some v.
Proof.
  unfold dict_get. induction d as [|[k w] d IH]; simpl.
  - rewrite String.eqb_refl. reflexivity.
  - destruct (String.eqb k key) eqn:E; simpl; rewrite E; [reflexivity | exact IH].
Qed.

Lemma dict_get_set_ne {V} key key' (v : V) d :
  key <> key' -> dict_get key' (dict_set key v d) = dict_get key' d.
Proof.
  unfold dict_get. intros Hne. induction d as [|[k w] d IH]; simpl.
  - destruct (String.eqb_spec key key'); [contradiction | reflexivity].
  - destruct (String.eqb_spec k key) as [->|Hk]; simpl.
    + destruct (String.eqb_spec key key'); [contradiction | reflexivity].
    + rewrite IH. reflexivity.
Qed.

Lemma dict_get_keys {V} key (d : dict V) :
  key ∈ dict_keys d <-> dict_get key d <> None.
Proof.
  unfold dict_get, dict_keys. induction d as [|[k w] d IH]; simpl.
  - split; [intros H; inversion H | congruence].
  - rewrite elem_of_cons, IH. destruct (String.eqb_spec k key) as [->|Hk].
    + split; [discriminate | auto].
    + split; [intros [E|H]; [congruence | exact H] | auto].
Qed.

Lemma dict_keys_set_present {V} key (v : V) d :
  dict_get key d <> None -> dict_keys (dict_set key v d) = dict_keys d.
Proof.
  unfold dict_get, dict_keys. induction d as [|[k w] d IH]; simpl.
  - congruence.
  - destruct (String.eqb_spec k key) as [->|Hk]; simpl; [reflexivity|].
    intros H. rewrite IH by exact H. reflexivity.
Qed.

Lemma dict_keys_set_absent {V} key (v : V) d :
  dict_get key d = None -> dict_keys (dict_set key v d) = dict_keys d ++ [key].
Proof.
  unfold dict_get, dict_keys. induction d as [|[k w] d IH]; simpl.
  - reflexivity.
  - destruct (String.eqb_spec k key) as [->|Hk]; simpl; [discriminate|].
    intros H. rewrite IH by exact H. reflexivity.
Qed.

Lemma dict_set_NoDup {V} key (v : V) d :
  NoDup (dict_keys d) -> NoDup (dict_keys (dict_set key v d)).
Proof.
  intros H. destruct (dict_get key d) eqn:E.
  - rewrite dict_keys_set_present by congruence. exact H.
  - rewrite dict_keys_set_absent by exact E.
    apply NoDup_app. split; [exact H|]. split.
    + intros x Hx Hin. apply list_elem_of_singleton in Hin. subst x.
      apply dict_get_keys in Hx. congruence.
    + apply NoDup_singleton.
Qed.

Lemma dict_set_elem {V} key (v : V) d k :
  k ∈ dict_keys (dict_set key v d) <-> k = key \/ k ∈ dict_keys d.
Proof.
  rewrite !dict_get_keys. destruct (String.eqb_spec key k) as [->|Hne].
  - rewrite dict_get_set_eq. split; [auto | discriminate].
  - rewrite dict_get_set_ne by exact Hne. split; [auto|].
    intros [E|H]; [congruence | exact H].
Qed.

(** Replacing the sample under a key that is present changes the total by
    the difference between the two samples. *)
Lemma total_regions_set key (s s' : Sample.t) d :
  dict_get key d = Some s ->
  (total_regions (dict_set key s' d) + length (Sample.detect_regions s) =
   total_regions d + length (Sample.detect_regions s'))%nat.
Proof.
  unfold dict_get, total_regions. induction d as [|[k w] d IH]; simpl.
  - discriminate.
  - destruct (String.eqb_spec k key) as [->|Hk]; simpl.
    + intros H; inversion H; subst. lia.
    + intros H. specialize (IH H). lia.
Qed.

(* ===================================================================== *)
(** * Loader: samples from the image index (C9) *)
(* ===================================================================== *)

Lemma create_samples_action_ok row samples :
  (2 <= length row)%nat ->
  Loader.create_samples_action row samples =
    Ok (dict_set (index_key row) (index_sample row) samples).
Proof.
  destruct row as [|c0 [|c1 rest]]; simpl; intros H; try lia. reflexivity.
Qed.

Lemma create_samples_fold rows : forall d0,
  Forall (fun row => (2 <= length row)%nat) rows ->
  exists d,
    fold_result Loader.create_samples_action rows d0 = Ok d /\
    (NoDup (dict_keys d0) -> NoDup (dict_keys d)) /\
    (forall k, k ∈ dict_keys d <-> k ∈ dict_keys d0 \/ k ∈ map index_key rows) /\
    (forall k,
       dict_get k d =
         fold_left
           (fun found row =>
              if String.eqb (index_key row) k then Some (index_sample row)
              else found)
           rows (dict_get k d0)).
Proof.
  induction rows as [|row rows IH]; intros d0 H.
  - exists d0. simpl. split; [reflexivity|]. split; [auto|]. split; [|auto].
    intros k. split; [auto|]. intros [Hk|Hk]; [exact Hk | inversion Hk].
  - inversion H as [|? ? Hrow Hrows]; subst.
    destruct (IH (dict_set (index_key row) (index_sample row) d0) Hrows)
      as (d & E & Hnd & Hk & Hg).
    exists d. simpl. rewrite (create_samples_action_ok _ _ Hrow). simpl.
    split; [exact E|]. split; [|split].
    + intros Hd0. apply Hnd, dict_set_NoDup, Hd0.
    + intros k. rewrite Hk, dict_set_elem, elem_of_cons. tauto.
    + intros k. rewrite Hg. f_equal.
      destruct (String.eqb_spec (index_key row) k) as [->|Hne].
      * apply dict_get_set_eq.
      * apply dict_get_set_ne, Hne.
Qed.

(** What [create_samples] builds: one sample for each distinct key, the key
    being the part of column 0 before its first dot, and under each key the
    sample of the last row with that key. *)
Lemma create_samples_spec rows :
  Forall (fun row => (2 <= length row)%nat) rows ->
  exists samples,
    Loader.create_samples rows = Ok samples /\
    NoDup (dict_keys samples) /\
    (forall k, k ∈ dict_keys samples <-> k ∈ map index_key rows) /\
    (forall k, dict_get k samples = index_lookup k rows).
Proof.
  intros H. destruct (create_samples_fold rows [] H) as (d & E & Hnd & Hk & Hg).
  exists d. split; [exact E|]. split; [apply Hnd; constructor|]. split.
  - intros k. rewrite Hk. split; [intros [Hin|Hin]; [inversion Hin | exact Hin] | auto].
  - exact Hg.
Qed.

Lemma index_lookup_some rows : forall k s found,
  fold_left
    (fun found row =>
       if String.eqb (index_key row) k then Some (index_sample row) else found)
    rows found = Some s ->
  found = Some s \/ (Sample.key s = k /\ Sample.detect_regions s = []).
Proof.
  induction rows as [|row rows IH]; simpl; intros k s found H; [auto|].
  apply IH in H. destruct H as [H|H]; [|auto].
  destruct (String.eqb_spec (index_key row) k) as [<-|Hne]; [|auto].
  inversion H; subst. right. split; reflexivity.
Qed.

(** C9: what the code does on a file name whose stem has a dot.  The key
    of ["a.b.jpg"] is ["a"], not ["a.b"]. *)
Lemma create_samples_dotted_stem :
  Loader.create_samples [["a.b.jpg"; "http://x/a.b.jpg"]]%string =
    Ok [("a"%string, Sample.mk "a" None "http://x/a.b.jpg" [] None)] /\
  str_split "." "a.b.jpg" = ["a"; "b"; "jpg"]%string.
Proof. split; reflexivity. Qed.

(** The rest of C9 holds: a later row with the same key replaces the sample
    of an earlier one, in place. *)
Lemma create_samples_last_write_wins :
  Loader.create_samples
    [["a.jpg"; "first"]; ["b.jpg"; "other"]; ["a.jpg"; "second"]]%string =
    Ok [("a"%string, Sample.mk "a" None "second" [] None);
        ("b"%string, Sample.mk "b" None "other" [] None)].
Proof. reflexivity. Qed.

(* ===================================================================== *)
(** * Loader: detections from the ground truth (C6) *)
(* ===================================================================== *)

Lemma set_rect_floats l r t b :
  PrimFloat.ltb r l = false -> PrimFloat.ltb b t = false ->
  Region.set_rect (PyFloat l) (PyFloat r) (PyFloat t) (PyFloat b)
    (Region.blank false) =
  (Ok tt,
   Region.mk (PyFloat l) (PyFloat r) (PyFloat t) (PyFloat b)
     (PyFloat (l + float_floordiv2 (r - l)))
     (PyFloat (t + float_floordiv2 (b - t)))
     (PyFloat (r - l)) (PyFloat (b - t)) false).
Proof.
  intros Hx Hy. unfold Region.set_rect, py_lt. rewrite Hx, Hy.
  reflexivity.
Qed.

Lemma row_get_key row : row <> [] -> row_get row 0 = Ok (gt_key row).
Proof. destruct row; [congruence | reflexivity]. Qed.

(** A row for an image outside the index is skipped, whatever else it
    holds. *)
Lemma associate_action_skip {B : Builtins} row samples :
  row <> [] ->
  dict_get (gt_key row) samples = None ->
  Loader.associate_action row samples = Ok samples.
Proof.
  intros Hr Hg. unfold Loader.associate_action.
  rewrite (row_get_key _ Hr). simpl. rewrite Hg. reflexivity.
Qed.

Lemma read_columns_nonempty {B : Builtins} row c :
  read_columns row = Some c -> row <> [].
Proof. intros H ->. discriminate. Qed.

(** A well-formed row for an image of the index appends its detection to
    the sample of that image. *)
Lemma associate_action_match {B : Builtins} row samples sample c :
  dict_get (gt_key row) samples = Some sample ->
  read_columns row = Some c ->
  PrimFloat.ltb (col_x_max c) (col_x_min c) = false ->
  PrimFloat.ltb (col_y_max c) (col_y_min c) = false ->
  Loader.associate_action row samples =
    Ok (dict_set (gt_key row)
          (Sample.with_detect_regions
             (Sample.detect_regions sample ++ [detection_of c]) sample)
          samples).
Proof.
  intros Hg Hc Hx Hy. pose proof (read_columns_nonempty _ _ Hc) as Hr.
  unfold Loader.associate_action.
  rewrite (row_get_key _ Hr). simpl. rewrite Hg.
  unfold read_columns in Hc.
  destruct (row_get row 2) as [v2|] eqn:E2; [|discriminate]; simpl in Hc.
  destruct (Loader.cell_float row 3) as [v3|] eqn:E3; [|discriminate];
    simpl in Hc.
  destruct (Loader.cell_float row 4) as [v4|]; [|discriminate]; simpl in Hc.
  destruct (Loader.cell_float row 5) as [v5|]; [|discriminate]; simpl in Hc.
  destruct (Loader.cell_float row 6) as [v6|]; [|discriminate]; simpl in Hc.
  destruct (Loader.cell_float row 7) as [v7|]; [|discriminate]; simpl in Hc.
  destruct (Loader.cell_int row 8) as [v8|] eqn:E8; [|discriminate];
    simpl in Hc.
  destruct (Loader.cell_int row 9) as [v9|] eqn:E9; [|discriminate];
    simpl in Hc.
  destruct (Loader.cell_int row 10) as [v10|] eqn:E10; [|discriminate];
    simpl in Hc.
  destruct (Loader.cell_int row 11) as [v11|] eqn:E11; [|discriminate];
    simpl in Hc.
  destruct (Loader.cell_int row 12) as [v12|] eqn:E12; [|discriminate];
    simpl in Hc.
  inversion Hc; subst c; clear Hc. simpl in Hx, Hy.
  simpl. change (Region.with_y _ _) with (Region.blank false).
  unfold returning, seq, DetectRegion.inherited, store. simpl.
  rewrite (set_rect_floats _ _ _ _ Hx Hy).
  reflexivity.
Qed.

Lemma with_detect_regions_twice a b s :
  Sample.with_detect_regions a (Sample.with_detect_regions b s) =
  Sample.with_detect_regions a s.
Proof. reflexivity. Qed.

Lemma matching_rows_in keys row rows :
  gt_key row ∈ keys ->
  matching_rows keys (row :: rows) = row :: matching_rows keys rows.
Proof. intros H. unfold matching_rows. apply filter_cons_True, H. Qed.

Lemma matching_rows_out keys row rows :
  gt_key row ∉ keys ->
  matching_rows keys (row :: rows) = matching_rows keys rows.
Proof. intros H. unfold matching_rows. apply filter_cons_False, H. Qed.

Lemma associate_fold {B : Builtins} rows : forall samples,
  Forall (gt_row_ok (dict_keys samples)) rows ->
  exists samples',
    fold_result Loader.associate_action rows samples = Ok samples' /\
    dict_keys samples' = dict_keys samples /\
    total_regions samples' =
      (total_regions samples + length (matching_rows (dict_keys samples) rows))%nat /\
    (forall k s,
       dict_get k samples = Some s ->
       dict_get k samples' =
         Some (Sample.with_detect_regions
                 (Sample.detect_regions s ++ detections_for k rows) s)).
Proof.
  induction rows as [|row rows IH]; intros samples H.
  - exists samples. simpl. split; [reflexivity|]. split; [reflexivity|].
    split; [unfold matching_rows; simpl; lia|].
    intros k s Hk. rewrite Hk, app_nil_r. destruct s; reflexivity.
  - inversion H as [|? ? (Hne & Hwf) Hrows]; subst.
    simpl fold_result.
    destruct (dict_get (gt_key row) samples) as [sample|] eqn:Hg.
    + assert (Hin : gt_key row ∈ dict_keys samples)
        by (apply dict_get_keys; congruence).
      destruct (Hwf Hin) as (c & Hc & Hx & Hy).
      rewrite (associate_action_match _ _ _ _ Hg Hc Hx Hy). simpl.
      rewrite (matching_rows_in _ _ _ Hin).
      set (sample1 := Sample.with_detect_regions
                        (Sample.detect_regions sample ++ [detection_of c])
                        sample).
      assert (Hkeys : dict_keys (dict_set (gt_key row) sample1 samples) =
                      dict_keys samples)
        by (apply dict_keys_set_present; congruence).
      destruct (IH (dict_set (gt_key row) sample1 samples))
        as (samples' & E & Hk' & Ht & Hd).
      { rewrite Hkeys. exact Hrows. }
      exists samples'. split; [exact E|]. split; [congruence|]. split.
      * rewrite Ht, Hkeys.
        pose proof (total_regions_set _ _ sample1 _ Hg) as Hs.
        unfold sample1 in Hs at 2. simpl in Hs.
        rewrite length_app in Hs. simpl in Hs. simpl. lia.
      * intros k s Hk. simpl.
        destruct (String.eqb_spec (gt_key row) k) as [<-|Hnek].
        -- rewrite Hc. rewrite Hg in Hk. inversion Hk; subst s.
           rewrite (Hd _ sample1) by apply dict_get_set_eq.
           unfold sample1. rewrite with_detect_regions_twice. simpl.
           rewrite <- app_assoc. reflexivity.
        -- rewrite (Hd k s); [reflexivity|].
           rewrite dict_get_set_ne by exact Hnek. exact Hk.
    + rewrite (associate_action_skip _ _ Hne Hg). simpl.
      assert (Hnin : gt_key row ∉ dict_keys samples).
      { intros Hin. apply dict_get_keys in Hin. congruence. }
      rewrite (matching_rows_out _ _ _ Hnin).
      destruct (IH samples Hrows) as (samples' & E & Hk' & Ht & Hd).
      exists samples'. split; [exact E|]. split; [exact Hk'|].
      split; [exact Ht|].
      intros k s Hk. simpl.
      destruct (String.eqb_spec (gt_key row) k) as [<-|Hnek]; [congruence|].
      apply Hd, Hk.
Qed.

Lemma dict_get_entry {V} key (v : V) (d : dict V) :
  NoDup (dict_keys d) -> (key, v) ∈ d -> dict_get key d = Some v.
Proof.
  unfold dict_get, dict_keys. induction d as [|[k w] d IH]; simpl; intros Hnd Hin.
  - inversion Hin.
  - apply NoDup_cons in Hnd. destruct Hnd as (Hk & Hnd).
    apply elem_of_cons in Hin. destruct Hin as [Heq|Hin].
    + inversion Heq; subst. rewrite String.eqb_refl. reflexivity.
    + destruct (String.eqb_spec k key) as [->|Hne]; [|auto].
      exfalso. apply Hk. apply list_elem_of_fmap. exists (key, v). auto.
Qed.

Lemma total_regions_none (d : dict Sample.t) :
  (forall k s, (k, s) ∈ d -> Sample.detect_regions s = []) ->
  total_regions d = 0%nat.
Proof.
  unfold total_regions. induction d as [|[k s] d IH]; simpl; intros H.
  - reflexivity.
  - rewrite (H k s) by apply list_elem_of_here. simpl. apply IH.
    intros k' s' Hin. apply (H k'). apply list_elem_of_further, Hin.
Qed.

Lemma matching_rows_ext keys keys' rows :
  (forall k, k ∈ keys <-> k ∈ keys') ->
  matching_rows keys rows = matching_rows keys' rows.
Proof.
  intros H. induction rows as [|row rows IH]; [reflexivity|].
  destruct (decide (gt_key row ∈ keys)) as [Hin|Hnin].
  - rewrite !matching_rows_in, IH; [reflexivity | apply H, Hin | exact Hin].
  - rewrite !matching_rows_out, IH; [reflexivity | rewrite <- H; exact Hnin | exact Hnin].
Qed.

(** C6.  Take an image index whose rows have their two columns, and a
    ground truth whose rows have an image key and, when they name an image
    of the index, thirteen readable columns and a box with bounds in order.
    Then [create_samples] followed by [associate_boxes_with_samples] returns
    one sample for each of the N distinct keys of the index, holding K
    detections in all, where K is the number of ground-truth rows that name
    an image of the index; the other rows are skipped without an error.
    The sample of a key holds exactly the detections of the rows with that
    key, in the order of the rows, each one built from the columns of its
    row: class, confidence, the normalized box and the five flags. *)
Theorem create_then_associate {B : Builtins}
    (index_rows gt_rows : list (list string)) :
  Forall (fun row => (2 <= length row)%nat) index_rows ->
  Forall (gt_row_ok (map index_key index_rows)) gt_rows ->
  exists samples samples',
    Loader.create_samples index_rows = Ok samples /\
    Loader.associate_boxes_with_samples samples gt_rows = Ok samples' /\
    length samples' =
      size (list_to_set (map index_key index_rows) : gset string) /\
    total_regions samples' =
      length (matching_rows (map index_key index_rows) gt_rows) /\
    (forall k, k ∈ map index_key index_rows ->
       exists s,
         index_lookup k index_rows = Some s /\
         dict_get k samples' =
           Some (Sample.with_detect_regions (detections_for k gt_rows) s)) /\
    (forall k, k ∉ map index_key index_rows -> dict_get k samples' = None).
Proof.
  intros Hi Hg.
  destruct (create_samples_spec index_rows Hi) as (samples & Ec & Hnd & Hk & Hl).
  assert (Hg' : Forall (gt_row_ok (dict_keys samples)) gt_rows).
  { eapply Forall_impl; [exact Hg|]. intros row (Hne & Hwf).
    split; [exact Hne|]. intros Hin. apply Hwf, Hk, Hin. }
  destruct (associate_fold gt_rows samples Hg') as (samples' & Ea & Hk' & Ht & Hd).
  assert (Hempty : forall k s,
            dict_get k samples = Some s -> Sample.detect_regions s = []).
  { intros k s Hs. rewrite Hl in Hs. unfold index_lookup in Hs.
    apply index_lookup_some in Hs. destruct Hs as [Hs|(_ & Hs)];
      [discriminate | exact Hs]. }
  exists samples, samples'. split; [exact Ec|]. split; [exact Ea|].
  split; [|split; [|split]].
  - replace (length samples') with (length (dict_keys samples'))
      by apply length_map.
    rewrite Hk'. rewrite <- (size_list_to_set (C:=gset string)) by exact Hnd.
    f_equal. apply set_eq. intros k. rewrite !elem_of_list_to_set. apply Hk.
  - rewrite Ht, (matching_rows_ext _ _ _ Hk).
    rewrite total_regions_none; [reflexivity|].
    intros k s Hin. apply (Hempty k). apply dict_get_entry; assumption.
  - intros k Hin. apply Hk, dict_get_keys in Hin.
    destruct (dict_get k samples) as [s|] eqn:Es; [|congruence].
    exists s. split; [rewrite <- Hl; exact Es|].
    rewrite (Hd k s Es), (Hempty k s Es). reflexivity.
  - intros k Hnin.
    destruct (dict_get k samples') eqn:E; [|reflexivity].
    exfalso. apply Hnin, Hk. rewrite <- Hk'. apply dict_get_keys. congruence.
Qed.

Lemma example_index_ok :
  Forall (fun row => (2 <= length row)%nat) example_index.
Proof. repeat constructor. Defined.

Lemma example_ground_truth_ok :
  Forall (@gt_row_ok example_builtins (map index_key example_index))
    example_ground_truth.
Proof.
  repeat constructor; try discriminate; intros _; eexists;
    (split; [reflexivity | split; reflexivity]).
Defined.

Lemma create_then_associate_witness :
  exists samples samples',
    Loader.create_samples example_index = Ok samples /\
    @Loader.associate_boxes_with_samples example_builtins samples
      example_ground_truth = Ok samples' /\
    length samples' = 2%nat /\
    total_regions samples' = 1%nat.
Proof.
  destruct (@create_then_associate example_builtins example_index
              example_ground_truth example_index_ok example_ground_truth_ok)
    as (samples & samples' & Ec & Ea & Hn & Hk & _).
  exists samples, samples'.
  refine (conj Ec (conj Ea (conj _ _))).
  - rewrite Hn. vm_compute. reflexivity.
  - rewrite Hk. vm_compute. reflexivity.
Defined.

(** The scenario of the specification, run: the first image gets the one
    detection of its row, the second image none, and the row for an image
    outside the index leaves no trace. *)
Example example_association :
  (samples <- Loader.create_samples example_index ;;
   @Loader.associate_boxes_with_samples example_builtins samples
     example_ground_truth) =
  Ok [ ("img1"%string,
        Sample.mk "img1" None "http://x/img1.jpg"
          [DetectRegion.mk
             (Region.mk (PyFloat 0.25) (PyFloat 0.5) (PyFloat 0.25)
                (PyFloat 0.5) (PyFloat 0.25) (PyFloat 0.25) (PyFloat 0.25)
                (PyFloat 0.25) false)
             (Some "/m/dog"%string) 1 0 0 0 0 0]
          None);
       ("img2"%string, Sample.mk "img2" None "http://x/img2.jpg" [] None) ].
Proof. vm_compute. reflexivity. Qed.

(* ===================================================================== *)
(** * Region: containment and bounds *)
(* ===================================================================== *)

(** Takes a region of integers apart into its fields. *)
Ltac int_fields r Hi :=
  let l := fresh "l" in
  let rt := fresh "rt" in
  let t := fresh "t" in
  let b := fresh "b" in
  let x := fresh "x" in
  let y := fresh "y" in
  let w := fresh "w" in
  let h := fresh "h" in
  let fi := fresh "fi" in
  destruct r as [l rt t b x y w h fi];
  unfold all_int in Hi; simpl in Hi;
  destruct l, rt, t, b, x, y, w, h; simpl in Hi; try tauto; clear Hi.

(** Brings in [a = 2 * (a / 2) + a mod 2] for every half in the goal. *)
Ltac halves :=
  repeat match goal with
         | |- context [?a / 2] =>
             lazymatch goal with
             | _ : a = 2 * (a / 2) + a mod 2 |- _ => fail
             | _ =>
                 assert (a = 2 * (a / 2) + a mod 2) by (apply Z.div_mod; lia);
                 pose proof (Z.mod_pos_bound a 2 ltac:(lia))
             end
         end.

Lemma contains_int l rt t b x y w h fi px py :
  Region.contains (PyInt px) (PyInt py)
    (Region.mk (PyInt l) (PyInt rt) (PyInt t) (PyInt b) x y w h fi) = true <->
  l <= px <= rt /\ t <= py <= b.
Proof.
  unfold Region.contains, py_gt; simpl.
  destruct (Z.ltb_spec px l), (Z.ltb_spec rt px), (Z.ltb_spec py t),
    (Z.ltb_spec b py); simpl; split; try discriminate; try lia; reflexivity.
Qed.

(** A region with integer coordinates whose edges are in order and whose
    center and size agree with them contains its four corners and its own
    center: [contains] is inclusive on every side. *)
Theorem contains_corners_and_center (r : Region.t) :
  all_int r -> edges_ordered r -> rect_consistent r ->
  Region.contains (Region._left r) (Region._top r) r = true /\
  Region.contains (Region._right r) (Region._top r) r = true /\
  Region.contains (Region._left r) (Region._bottom r) r = true /\
  Region.contains (Region._right r) (Region._bottom r) r = true /\
  Region.contains (Region._x r) (Region._y r) r = true.
Proof.
  intros Hi (Ho1 & Ho2) (Ew & Eh & Ex & Ey).
  int_fields r Hi. simpl in *. apply Z.ltb_ge in Ho1, Ho2.
  inversion Ew; inversion Eh; inversion Ex; inversion Ey; subst.
  rewrite !contains_int. halves. lia.
Qed.

Lemma contains_corners_and_center_witness :
  Region.contains (PyInt 2) (PyInt 2) square_0_5 = true.
Proof.
  apply (contains_corners_and_center square_0_5).
  - unfold all_int; simpl. repeat split; exact I.
  - apply square_0_5_settled.
  - apply square_0_5_settled.
Defined.

(** A region with integer edges that [is_in_bounds] of a frame contains
    only points of the frame: a point it [contains] has
    [0 <= x <= width] and [0 <= y <= height]. *)
Theorem in_bounds_contains_within_frame
    (r : Region.t) (width height px py : Z) :
  all_int r ->
  Region.is_in_bounds (PyInt width) (PyInt height) r = true ->
  Region.contains (PyInt px) (PyInt py) r = true ->
  0 <= px <= width /\ 0 <= py <= height.
Proof.
  intros Hi Hb Hc. int_fields r Hi. apply contains_int in Hc.
  unfold Region.is_in_bounds, py_gt in Hb; simpl in Hb.
  repeat match type of Hb with
         | context [?a <? ?b] => destruct (Z.ltb_spec a b); simpl in Hb
         end; try discriminate.
  lia.
Qed.

Lemma in_bounds_contains_within_frame_witness :
  0 <= 3 <= 10 /\ 0 <= 5 <= 8.
Proof.
  apply (in_bounds_contains_within_frame square_0_5 10 8 3 5).
  - unfold all_int; simpl. repeat split; exact I.
  - reflexivity.
  - reflexivity.
Defined.

(* ===================================================================== *)
(** * Region: how the mutators compose *)
(* ===================================================================== *)

Lemma set_rect_ints self l r t b :
  calibrated self -> l <= r -> t <= b ->
  Region.set_rect (PyInt l) (PyInt r) (PyInt t) (PyInt b) self =
    (Ok tt,
     Region.mk (PyInt l) (PyInt r) (PyInt t) (PyInt b)
       (PyInt (l + (r - l) / 2)) (PyInt (t + (b - t) / 2))
       (PyInt (r - l)) (PyInt (b - t)) (Region._force_int self)).
Proof.
  intros Hc Hlr Htb. unfold Region.set_rect, py_lt.
  destruct (Z.ltb_spec r l); [lia|]. destruct (Z.ltb_spec b t); [lia|].
  destruct self as [l0 r0 t0 b0 x y w h fi]. unfold calibrated, all_int in Hc.
  simpl in Hc. destruct fi; [|reflexivity].
  destruct (Hc eq_refl) as (_ & _ & _ & _ & Hx & Hy & Hw & Hh).
  destruct x, y, w, h; try contradiction. reflexivity.
Qed.

Lemma set_size_ints l r t b x y w h fi w' h' :
  Region.set_size (PyInt w') (PyInt h')
    (Region.mk (PyInt l) (PyInt r) (PyInt t) (PyInt b) (PyInt x) (PyInt y)
       (PyInt w) (PyInt h) fi) =
    (Ok tt,
     Region.mk (PyInt (x - w' / 2)) (PyInt (x + w' / 2)) (PyInt (y - h' / 2))
       (PyInt (y + h' / 2)) (PyInt x) (PyInt y) (PyInt w') (PyInt h') fi).
Proof. destruct fi; reflexivity. Qed.

(** Setting a rectangle with integer bounds in order and then setting the
    size to the width and height it has keeps [left], [top], the center
    and the size, and puts [right] at [right - (right - left) mod 2] and
    [bottom] at [bottom - (bottom - top) mod 2]: the edges are reproduced
    exactly when width and height are even, and otherwise the right
    (bottom) edge moves in by one. *)
Theorem set_size_after_set_rect (self : Region.t) (l r t b : Z) :
  calibrated self -> l <= r -> t <= b ->
  exists s1 s2,
    Region.set_rect (PyInt l) (PyInt r) (PyInt t) (PyInt b) self = (Ok tt, s1) /\
    Region.set_size (Region._width s1) (Region._height s1) s1 = (Ok tt, s2) /\
    Region._left s2 = PyInt l /\
    Region._top s2 = PyInt t /\
    Region._right s2 = PyInt (r - (r - l) mod 2) /\
    Region._bottom s2 = PyInt (b - (b - t) mod 2) /\
    Region._x s2 = Region._x s1 /\ Region._y s2 = Region._y s1 /\
    Region._width s2 = PyInt (r - l) /\ Region._height s2 = PyInt (b - t) /\
    (s2 = s1 <-> Z.even (r - l) = true /\ Z.even (b - t) = true).
Proof.
  intros Hc Hlr Htb. eexists. eexists.
  split; [apply set_rect_ints; assumption|]. simpl.
  split; [apply set_size_ints|]. simpl.
  assert (Hr : l + (r - l) / 2 + (r - l) / 2 = r - (r - l) mod 2)
    by (halves; lia).
  assert (Hb : t + (b - t) / 2 + (b - t) / 2 = b - (b - t) mod 2)
    by (halves; lia).
  assert (Hl : l + (r - l) / 2 - (r - l) / 2 = l) by lia.
  assert (Ht : t + (b - t) / 2 - (b - t) / 2 = t) by lia.
  rewrite Hr, Hb, Hl, Ht.
  repeat (split; [reflexivity|]).
  rewrite !Zeven_mod, !Z.eqb_eq.
  pose proof (Z.mod_pos_bound (r - l) 2). pose proof (Z.mod_pos_bound (b - t) 2).
  split.
  - intros E. injection E as E1 E2. lia.
  - intros (E1 & E2). rewrite E1, E2, !Z.sub_0_r. reflexivity.
Qed.

Lemma set_size_after_set_rect_witness :
  exists s1 s2,
    Region.set_rect (PyInt 0) (PyInt 5) (PyInt 0) (PyInt 4) origin = (Ok tt, s1) /\
    Region.set_size (Region._width s1) (Region._height s1) s1 = (Ok tt, s2) /\
    Region._right s2 = PyInt 4 /\ Region._bottom s2 = PyInt 4.
Proof.
  destruct (set_size_after_set_rect origin 0 5 0 4)
    as (s1 & s2 & E1 & E2 & _ & _ & Hr & Hb & _); try lia.
  - intros _. unfold all_int; simpl. repeat split; exact I.
  - exists s1, s2. repeat split; assumption.
Defined.

Lemma seq_step {S} (s1 s2 : method S unit) self mid :
  s1 self = (Ok tt, mid) -> (s1 >> s2) self = s2 mid.
Proof. intros H. unfold seq. rewrite H. reflexivity. Qed.

Lemma convert_to_int_edges l r t b x y w h fi l' r' t' b' :
  py_int l = Ok l' -> py_int r = Ok r' -> py_int t = Ok t' ->
  py_int b = Ok b' ->
  Region.convert_to_int
    (Region.mk l r t b (PyInt x) (PyInt y) (PyInt w) (PyInt h) fi) =
  (Ok tt, Region.mk l' r' t' b' (PyInt x) (PyInt y) (PyInt w) (PyInt h) fi).
Proof.
  intros Hl Hr Ht Hb. unfold Region.convert_to_int, seq, store. simpl.
  rewrite Hl; simpl. rewrite Hr; simpl. rewrite Ht; simpl. rewrite Hb.
  reflexivity.
Qed.

(** The calibration from the edges forgets the center and size it finds. *)
Lemma calibrate_to_rect_forgets l r t b x y w h fi self' :
  (fi = true -> is_int x /\ is_int y /\ is_int w /\ is_int h) ->
  Region._calibrate_to_rect (Region.mk l r t b x y w h fi) = (Ok tt, self') ->
  Region._calibrate_to_rect
    (Region.mk l r t b (PyInt 0) (PyInt 0) (PyInt 0) (PyInt 0) fi) =
  (Ok tt, self').
Proof.
  intros Hi H. pose proof H as H'. apply calibrate_to_rect_ok in H'.
  destruct H' as (mid & Hconv & El & Er & Et & Eb & Ef & Hrc & Hcal).
  simpl in Ef. destruct fi.
  - unfold Region.if_force_int in Hconv. simpl in Hconv.
    apply convert_to_int_ok in Hconv. simpl in Hconv.
    destruct Hconv as (_ & _ & Pl & Pr & Pt & Pb & _).
    rewrite <- El in Pl. rewrite <- Er in Pr. rewrite <- Et in Pt.
    rewrite <- Eb in Pb.
    unfold Region._calibrate_to_rect at 1.
    rewrite (seq_step _ _ _
               (Region.mk (Region._left self') (Region._right self')
                  (Region._top self') (Region._bottom self') (PyInt 0)
                  (PyInt 0) (PyInt 0) (PyInt 0) true)).
    + pose proof (calibrate_to_rect_settles 0 0 0 0 self' Hcal Hrc) as Hs.
      rewrite Ef in Hs. unfold Region._calibrate_to_rect at 1 in Hs.
      rewrite (seq_step _ _ _
                 (Region.mk (Region._left self') (Region._right self')
                    (Region._top self') (Region._bottom self') (PyInt 0)
                    (PyInt 0) (PyInt 0) (PyInt 0) true)) in Hs; [exact Hs|].
      unfold Region.if_force_int. simpl. apply convert_to_int_id.
      unfold all_int; simpl.
      destruct (Hcal Ef) as (Il & Ir & It & Ib & _). repeat split; assumption.
    + unfold Region.if_force_int. simpl.
      apply convert_to_int_edges; assumption.
  - unfold Region.if_force_int, skip in Hconv. simpl in Hconv.
    inversion Hconv; subst mid. simpl in El, Er, Et, Eb.
    pose proof (calibrate_to_rect_settles 0 0 0 0 self' Hcal Hrc) as Hs.
    rewrite Ef, El, Er, Et, Eb in Hs. exact Hs.
Qed.

(** [set_rect] leaves nothing of the state before it: on a region as a
    mutator leaves it, the region it gives is the one the constructor
    builds from the same arguments and mode. *)
Theorem set_rect_as_constructed
    (left right top bottom : pynum) (self self' : Region.t) :
  calibrated self ->
  Region.set_rect left right top bottom self = (Ok tt, self') ->
  Region.__init__ left right top bottom (Region._force_int self) = Ok self'.
Proof.
  intros Hc H. unfold Region.__init__. apply returning_ok.
  pose proof (set_rect_ok _ _ _ _ _ _ H) as (Hn & Hcal).
  unfold Region.set_rect. unfold inverted in Hn.
  destruct (py_lt right left); [exfalso; auto|].
  destruct (py_lt bottom top); [exfalso; auto|].
  rewrite (seq_step _ _ _ (Region.with_left left (Region.blank _)))
    by reflexivity.
  rewrite (seq_step _ _ _ (Region.with_right right
                             (Region.with_left left (Region.blank _))))
    by reflexivity.
  rewrite (seq_step _ _ _ (Region.with_top top
                             (Region.with_right right
                                (Region.with_left left (Region.blank _)))))
    by reflexivity.
  rewrite (seq_step _ _ _ (Region.with_bottom bottom
                             (Region.with_top top
                                (Region.with_right right
                                   (Region.with_left left (Region.blank _))))))
    by reflexivity.
  destruct self as [l r t b x y w h fi].
  apply (calibrate_to_rect_forgets left right top bottom x y w h fi);
    [|exact Hcal].
  intros ->. destruct (Hc eq_refl) as (_ & _ & _ & _ & Hx & Hy & Hw & Hh).
  auto.
Qed.

Lemma set_rect_as_constructed_witness :
  Region.__init__ (PyInt 1) (PyInt 4) (PyInt 2) (PyInt 8) true =
    Ok (Region.mk (PyInt 1) (PyInt 4) (PyInt 2) (PyInt 8) (PyInt 2) (PyInt 5)
          (PyInt 3) (PyInt 6) true).
Proof.
  apply (set_rect_as_constructed (PyInt 1) (PyInt 4) (PyInt 2) (PyInt 8)
           square_0_5).
  - apply square_0_5_settled.
  - reflexivity.
Defined.

(** The calibration from center and size changes neither of them, on a
    state whose center and size are integers when [force_int] is on. *)
Lemma calibrate_to_xy_frame pre self' :
  (Region._force_int pre = true ->
   is_int (Region._x pre) /\ is_int (Region._y pre) /\
   is_int (Region._width pre) /\ is_int (Region._height pre)) ->
  Region._calibrate_to_xy pre = (Ok tt, self') ->
  Region._x self' = Region._x pre /\ Region._y self' = Region._y pre /\
  Region._width self' = Region._width pre /\
  Region._height self' = Region._height pre /\
  Region._force_int self' = Region._force_int pre /\
  xy_consistent self' /\ calibrated self'.
Proof.
  intros Hi H. apply calibrate_to_xy_ok in H.
  destruct H as (mid & Hconv & Ex & Ey & Ew & Eh & Ef & Hxy & Hcal).
  rewrite Ex, Ey, Ew, Eh.
  assert (Hm : Region._x mid = Region._x pre /\ Region._y mid = Region._y pre /\
               Region._width mid = Region._width pre /\
               Region._height mid = Region._height pre).
  { unfold Region.if_force_int in Hconv.
    destruct (Region._force_int pre) eqn:F.
    - destruct (Hi eq_refl) as (Ix & Iy & Iw & Ih).
      apply convert_to_int_ok in Hconv.
      destruct Hconv as (_ & _ & _ & _ & _ & _ & Px & Py & Pw & Ph).
      rewrite (py_int_of_int _ Ix) in Px. rewrite (py_int_of_int _ Iy) in Py.
      rewrite (py_int_of_int _ Iw) in Pw. rewrite (py_int_of_int _ Ih) in Ph.
      inversion Px; inversion Py; inversion Pw; inversion Ph. auto.
    - inversion Hconv. auto. }
  destruct Hm as (-> & -> & -> & ->). auto 10.
Qed.

(** Moving does not resize and resizing does not move.  On a region as a
    mutator leaves it, [set_xy] (with integer arguments when [force_int] is
    on) keeps width and height and puts the center at the coordinates
    given, keeping a coordinate that is not given; [set_size] keeps the
    center and takes the size given.  Either way the edges are then the
    center plus and minus half the size. *)
Theorem move_keeps_size_resize_keeps_center (self : Region.t) :
  calibrated self ->
  (forall x y self',
     (Region._force_int self = true ->
      from_option is_int True x /\ from_option is_int True y) ->
     Region.set_xy x y self = (Ok tt, self') ->
     Region._width self' = Region._width self /\
     Region._height self' = Region._height self /\
     Region._x self' = default (Region._x self) x /\
     Region._y self' = default (Region._y self) y /\
     xy_consistent self') /\
  (forall width height self',
     (Region._force_int self = true -> is_int width /\ is_int height) ->
     Region.set_size width height self = (Ok tt, self') ->
     Region._x self' = Region._x self /\ Region._y self' = Region._y self /\
     Region._width self' = width /\ Region._height self' = height /\
     xy_consistent self').
Proof.
  intros Hc. split.
  - intros x y self' Hi H. unfold Region.set_xy in H.
    apply seq_ok in H. destruct H as (m1 & H1 & H).
    apply seq_ok in H. destruct H as (m2 & H2 & H).
    assert (E1 : m1 = match x with Some v => Region.with_x v self | None => self end).
    { destruct x; [apply put_ok in H1; exact H1 | inversion H1; reflexivity]. }
    assert (E2 : m2 = match y with Some v => Region.with_y v m1 | None => m1 end).
    { destruct y; [apply put_ok in H2; exact H2 | inversion H2; reflexivity]. }
    apply calibrate_to_xy_frame in H.
    + destruct H as (Ex & Ey & Ew & Eh & _ & Hxy & _).
      rewrite Ex, Ey, Ew, Eh, E2, E1.
      destruct x, y; simpl; auto.
    + rewrite E2, E1. intros F.
      assert (F' : Region._force_int self = true) by (destruct x, y; exact F).
      destruct (Hc F') as (_ & _ & _ & _ & Ix & Iy & Iw & Ih).
      destruct (Hi F') as (Jx & Jy).
      destruct x, y; simpl in *; auto.
  - intros width height self' Hi H. unfold Region.set_size in H.
    apply seq_ok in H. destruct H as (m1 & H1 & H).
    apply seq_ok in H. destruct H as (m2 & H2 & H).
    apply put_ok in H1, H2. subst m1 m2.
    apply calibrate_to_xy_frame in H.
    + destruct H as (Ex & Ey & Ew & Eh & _ & Hxy & _). auto.
    + simpl. intros F. destruct (Hc F) as (_ & _ & _ & _ & Ix & Iy & _).
      destruct (Hi F). auto.
Qed.

Lemma move_keeps_size_resize_keeps_center_witness :
  Region.set_xy (Some (PyInt 10)) (Some (PyInt 20)) square_0_5 =
    (Ok tt,
     Region.mk (PyInt 8) (PyInt 12) (PyInt 18) (PyInt 22) (PyInt 10) (PyInt 20)
       (PyInt 5) (PyInt 5) true) /\
  Region._width
    (Region.mk (PyInt 8) (PyInt 12) (PyInt 18) (PyInt 22) (PyInt 10) (PyInt 20)
       (PyInt 5) (PyInt 5) true) = Region._width square_0_5.
Proof.
  split; [reflexivity|].
  apply (proj1 (move_keeps_size_resize_keeps_center square_0_5
                  (proj1 square_0_5_settled))
           (Some (PyInt 10)) (Some (PyInt 20))).
  - intros _. simpl. auto.
  - reflexivity.
Defined.

Lemma assign_ok setter expr self self' :
  Region.assign setter expr self = (Ok tt, self') <->
  exists v, expr self = Ok v /\ setter v self = (Ok tt, self').
Proof.
  unfold Region.assign. destruct (expr self) as [v|e]; split.
  - intros H. eauto.
  - intros (v' & E & H). inversion E; subst. exact H.
  - discriminate.
  - intros (v' & E & _). discriminate.
Qed.

Lemma int_of_product a k v :
  (w <- py_mul a k ;; py_int w) = Ok v -> is_int v.
Proof.
  destruct (py_mul a k) as [w|]; simpl; [|discriminate]. apply py_int_is_int.
Qed.

(** [scale] resizes about the center.  On a region as a mutator leaves it,
    a [scale] that returns keeps [x] and [y], sets the width to
    [int(width * scale_value)] and the height to
    [int(height * scale_value)], and puts the edges at the center plus and
    minus half the new size. *)
Theorem scale_keeps_center (scale_value : pynum) (self self' : Region.t) :
  calibrated self ->
  Region.scale scale_value self = (Ok tt, self') ->
  Region._x self' = Region._x self /\
  Region._y self' = Region._y self /\
  (w <- py_mul (Region._width self) scale_value ;; py_int w) =
    Ok (Region._width self') /\
  (h <- py_mul (Region._height self) scale_value ;; py_int h) =
    Ok (Region._height self') /\
  xy_consistent self'.
Proof.
  intros Hc H. unfold Region.scale in H.
  apply seq_ok in H. destruct H as (mid & H1 & H2).
  apply assign_ok in H1, H2.
  destruct H1 as (v1 & E1 & H1). destruct H2 as (v2 & E2 & H2).
  pose proof (int_of_product _ _ _ E1) as I1.
  pose proof (int_of_product _ _ _ E2) as I2.
  unfold Region.set_width in H1. unfold Region.set_height in H2.
  apply seq_ok in H1. destruct H1 as (p1 & P1 & H1). apply put_ok in P1.
  apply seq_ok in H2. destruct H2 as (p2 & P2 & H2). apply put_ok in P2.
  subst p1 p2.
  apply calibrate_to_xy_frame in H1.
  - destruct H1 as (Ex & Ey & Ew & Eh & Ef & _ & Hcal). simpl in *.
    apply calibrate_to_xy_frame in H2.
    + destruct H2 as (Ex' & Ey' & Ew' & Eh' & _ & Hxy & _). simpl in *.
      rewrite Ex', Ey', Ew', Eh', Ex, Ey, Ew. rewrite Eh in E2.
      auto.
    + simpl. intros F. destruct (Hcal F) as (_ & _ & _ & _ & Ix & Iy & Iw & _).
      auto.
  - simpl. intros F. destruct (Hc F) as (_ & _ & _ & _ & Ix & Iy & _ & Ih).
    auto.
Qed.

Lemma scale_keeps_center_witness :
  Region.scale (PyInt 2) square_0_5 =
    (Ok tt,
     Region.mk (PyInt (-3)) (PyInt 7) (PyInt (-3)) (PyInt 7) (PyInt 2) (PyInt 2)
       (PyInt 10) (PyInt 10) true) /\
  PyInt 2 = Region._x square_0_5.
Proof.
  split; [reflexivity|].
  apply (scale_keeps_center (PyInt 2) square_0_5
           (Region.mk (PyInt (-3)) (PyInt 7) (PyInt (-3)) (PyInt 7) (PyInt 2)
              (PyInt 2) (PyInt 10) (PyInt 10) true)
           (proj1 square_0_5_settled) eq_refl).
Defined.

(** [fast_distance] is the Manhattan metric on integer centers: it is
    symmetric, never negative, zero exactly for equal centers, and obeys
    the triangle inequality. *)
Theorem fast_distance_metric (r1 r2 r3 : Region.t) :
  all_int r1 -> all_int r2 -> all_int r3 ->
  exists d12 d21 d23 d13,
    Region.fast_distance r1 r2 = Ok (PyInt d12) /\
    Region.fast_distance r2 r1 = Ok (PyInt d21) /\
    Region.fast_distance r2 r3 = Ok (PyInt d23) /\
    Region.fast_distance r1 r3 = Ok (PyInt d13) /\
    d12 = d21 /\ 0 <= d12 /\
    (d12 = 0 <->
     Region._x r1 = Region._x r2 /\ Region._y r1 = Region._y r2) /\
    d13 <= d12 + d23.
Proof.
  intros H1 H2 H3. int_fields r1 H1. int_fields r2 H2. int_fields r3 H3.
  unfold Region.fast_distance; simpl.
  do 4 eexists. do 4 (split; [reflexivity|]).
  refine (conj _ (conj _ (conj (conj _ _) _))); try lia.
  - intros E. split; f_equal; lia.
  - intros (E1 & E2). injection E1 as E1. injection E2 as E2. lia.
Qed.

Lemma fast_distance_metric_witness :
  Region.fast_distance origin square_0_5 = Ok (PyInt 4).
Proof.
  assert (Ho : all_int origin) by (unfold all_int; simpl; tauto).
  assert (Hs : all_int square_0_5) by (unfold all_int; simpl; tauto).
  destruct (fast_distance_metric origin square_0_5 origin Ho Hs Ho)
    as (d12 & d21 & d23 & d13 & E12 & _).
  reflexivity.
Defined.

(** A clone is its own clone: on a region as a mutator leaves it, what
    [clone] returns has its edges in order and center and size in agreement
    with them, so cloning it again gives an equal region. *)
Theorem clone_of_clone (r g : Region.t) :
  calibrated r ->
  Region.clone r = Ok g ->
  settled g /\ Region.clone g = Ok g.
Proof.
  intros Hc H. destruct (clone_ok _ _ H) as (_ & Hrc & Hcal & Hed).
  destruct (Hed Hc) as (_ & Ho).
  assert (Hs : settled g) by (unfold settled; auto).
  split; [exact Hs | apply clone_settled, Hs].
Qed.

Lemma clone_of_clone_witness :
  Region.clone
    (Region.mk (PyInt (-2)) (PyInt 2) (PyInt (-2)) (PyInt 2) (PyInt 0)
       (PyInt 0) (PyInt 4) (PyInt 4) true) =
  Ok (Region.mk (PyInt (-2)) (PyInt 2) (PyInt (-2)) (PyInt 2) (PyInt 0)
        (PyInt 0) (PyInt 4) (PyInt 4) true).
Proof.
  apply (clone_of_clone
           (Region.mk (PyInt (-2)) (PyInt 2) (PyInt (-2)) (PyInt 2) (PyInt 0)
              (PyInt 0) (PyInt 5) (PyInt 5) true)).
  - intros _. unfold all_int; simpl. repeat split; exact I.
  - reflexivity.
Defined.


(** * DetectRegion: what [decode] returns *)

Ltac decode_stops :=
  split;
  [ let H := fresh in
    intros H; lazy -[float_floordiv2 PrimFloat.sub PrimFloat.add] in H;
    discriminate H
  | let H := fresh in
    intros (? & ? & ? & ? & ? & ? & ? & ? & ? & ? & ? & H);
    decompose [and] H; discriminate ].

Lemma decode_items {B : Builtins} data d :
  DetectRegion.decode data = Ok d <->
  exists l r t b s c o1 o2 o3 o4 o5,
    DetectRegion.item_float data "left" = Ok l /\
    DetectRegion.item_float data "right" = Ok r /\
    DetectRegion.item_float data "top" = Ok t /\
    DetectRegion.item_float data "bottom" = Ok b /\
    DetectRegion.item_str data "class_id" = Ok (Some s) /\
    DetectRegion.item_float data "confidence" = Ok c /\
    DetectRegion.item_int data "is_occluded" = Ok o1 /\
    DetectRegion.item_int data "is_truncated" = Ok o2 /\
    DetectRegion.item_int data "is_group_of" = Ok o3 /\
    DetectRegion.item_int data "is_depiction" = Ok o4 /\
    DetectRegion.item_int data "is_inside" = Ok o5 /\
    d = decoded l r t b s c o1 o2 o3 o4 o5.
Proof.
  unfold DetectRegion.decode. rewrite detect_region_new_false.
  assert (Hs : DetectRegion.item_str data "class_id" <> Ok None).
  { unfold DetectRegion.item_str.
    destruct (py_getitem data "class_id"); discriminate. }
  revert Hs.
  generalize (DetectRegion.item_float data "left")
    (DetectRegion.item_float data "right")
    (DetectRegion.item_float data "top")
    (DetectRegion.item_float data "bottom")
    (DetectRegion.item_str data "class_id")
    (DetectRegion.item_float data "confidence")
    (DetectRegion.item_int data "is_occluded")
    (DetectRegion.item_int data "is_truncated")
    (DetectRegion.item_int data "is_group_of")
    (DetectRegion.item_int data "is_depiction")
    (DetectRegion.item_int data "is_inside").
  intros rl rr rt rb rs rc r1 r2 r3 r4 r5 Hs.
  destruct rl as [l|e];
    [|decode_stops].
  destruct rr as [r|e];
    [|decode_stops].
  destruct rt as [t|e];
    [|decode_stops].
  destruct rb as [b|e];
    [|decode_stops].
  destruct rs as [[s|]|e]; [| congruence |];
    [|decode_stops].
  destruct rc as [c|e];
    [|decode_stops].
  destruct r1 as [o1|e];
    [|decode_stops].
  destruct r2 as [o2|e];
    [|decode_stops].
  destruct r3 as [o3|e];
    [|decode_stops].
  destruct r4 as [o4|e];
    [|decode_stops].
  destruct r5 as [o5|e];
    [|decode_stops].
  assert (E : returning
    (DetectRegion.set_prop Region.set_left (Ok l) >>
     DetectRegion.set_prop Region.set_right (Ok r) >>
     DetectRegion.set_prop Region.set_top (Ok t) >>
     DetectRegion.set_prop Region.set_bottom (Ok b) >>
     store DetectRegion.with_class_id (fun _ => Ok (Some s)) >>
     store DetectRegion.with_confidence (fun _ => Ok c) >>
     store DetectRegion.with_is_occluded (fun _ => Ok o1) >>
     store DetectRegion.with_is_truncated (fun _ => Ok o2) >>
     store DetectRegion.with_is_group_of (fun _ => Ok o3) >>
     store DetectRegion.with_is_depiction (fun _ => Ok o4) >>
     store DetectRegion.with_is_inside (fun _ => Ok o5))
    (DetectRegion.mk (Region.blank false) None one 0 0 0 0 0) =
    Ok (decoded l r t b s c o1 o2 o3 o4 o5)).
  { cbv -[float_floordiv2 PrimFloat.sub PrimFloat.add]. reflexivity. }
  simpl bind. rewrite E. split.
  - intros H. injection H as <-. do 11 eexists. repeat split; reflexivity.
  - intros (l' & r' & t' & b' & s' & c' & o1' & o2' & o3' & o4' & o5' & H).
    decompose [and] H. congruence.
Qed.


Lemma decoded_loaded l r t b s c o1 o2 o3 o4 o5 :
  loaded (decoded l r t b s c o1 o2 o3 o4 o5).
Proof.
  unfold loaded, declared_types, rect_consistent; simpl.
  repeat split; try exact I; discriminate.
Qed.

(** [decode] returns exactly when each of the eleven keys is present and
    its value converts ([float] for the edges and the confidence, [int] for
    the flags; [str] takes anything).  It then returns the detection with
    those values: the order of the bounds is not checked, and center and
    size are computed from the edges. *)
Theorem decode_returns_iff_items_convert {B : Builtins}
    (data : pyval) (d : DetectRegion.t) :
  DetectRegion.decode data = Ok d <->
  exists l r t b s c o1 o2 o3 o4 o5,
    DetectRegion.item_float data "left" = Ok l /\
    DetectRegion.item_float data "right" = Ok r /\
    DetectRegion.item_float data "top" = Ok t /\
    DetectRegion.item_float data "bottom" = Ok b /\
    DetectRegion.item_str data "class_id" = Ok (Some s) /\
    DetectRegion.item_float data "confidence" = Ok c /\
    DetectRegion.item_int data "is_occluded" = Ok o1 /\
    DetectRegion.item_int data "is_truncated" = Ok o2 /\
    DetectRegion.item_int data "is_group_of" = Ok o3 /\
    DetectRegion.item_int data "is_depiction" = Ok o4 /\
    DetectRegion.item_int data "is_inside" = Ok o5 /\
    d = decoded l r t b s c o1 o2 o3 o4 o5.
Proof. apply decode_items. Qed.

(** Whatever [decode] returns is a fixed point of the serialization: it
    has float edges, a string [class_id], [force_int] off and center and
    size in agreement with the edges, and encoding it and decoding the
    result gives it back, all fields included. *)
Theorem decode_then_encode_decode {B : Builtins}
    (data : pyval) (d : DetectRegion.t) :
  DetectRegion.decode data = Ok d ->
  loaded d /\ DetectRegion.decode (DetectRegion.encode d) = Ok d.
Proof.
  intros H. apply decode_items in H.
  destruct H as (l & r & t & b & s & c & o1 & o2 & o3 & o4 & o5 & H).
  decompose [and] H. subst d. split.
  - apply decoded_loaded.
  - unfold decoded. apply decode_encode.
Qed.

Lemma decode_then_encode_decode_witness :
  exists d,
    @DetectRegion.decode example_builtins (DetectRegion.encode dog) = Ok d /\
    loaded d /\
    @DetectRegion.decode example_builtins (DetectRegion.encode d) = Ok d.
Proof.
  destruct (@decode_encode_fields example_builtins dog dog_declared)
    as (d & E & _).
  exists d. split; [exact E|].
  exact (@decode_then_encode_decode example_builtins _ d E).
Defined.


(** * Loader: termination of the export loop *)

Lemma export_loop_runs_on sample_list path size :
  size <= 0 ->
  size < 0 \/ sample_list <> [] ->
  forall fuel i fs,
    0 <= i -> Loader.export_loop fuel sample_list path size i fs = None.
Proof.
  intros Hs Hn. induction fuel as [|fuel IH]; intros i fs Hi; [reflexivity|].
  simpl.
  assert (E : ((i + 1) * size >=? Z.of_nat (length sample_list)) = false).
  { rewrite Z.geb_leb. apply Z.leb_gt. destruct Hn as [Hn|Hn].
    - nia.
    - destruct sample_list; [congruence|]. simpl length. nia. }
  rewrite E. apply IH. lia.
Qed.

(** [export_samples] reaches its [break] exactly when [size] is positive,
    or [size] is zero and there is no sample.  With a negative [size], or
    with [size] zero and at least one sample, the loop writes batch after
    batch and never ends, whatever the number of iterations allowed. *)
Theorem export_terminates_iff (samples : dict Sample.t) (path : string)
    (size : Z) (fs : filesystem) :
  (exists fuel fs',
     Loader.export_samples fuel samples path size fs = Some fs') <->
  (0 < size \/ (size = 0 /\ samples = [])).
Proof.
  unfold Loader.export_samples. split.
  - intros (fuel & fs' & H).
    destruct (Z.lt_trichotomy size 0) as [Hs|[Hs|Hs]]; [| |auto].
    + rewrite export_loop_runs_on in H; [discriminate | lia | auto | lia].
    + destruct samples as [|kv samples]; [auto|].
      rewrite export_loop_runs_on in H;
        [discriminate | lia | right; discriminate | lia].
  - intros [Hs|(-> & ->)].
    + destruct (export_loop_spec (dict_values samples) path size Hs
                  (S (length (dict_values samples))) 0 fs)
        as (fs' & E & _); try lia.
      eauto.
    + exists 1%nat, fs. reflexivity.
Qed.


(** * Loader: when the association pass returns *)

Lemma set_rect_floats_ok l r t b self self' :
  Region.set_rect (PyFloat l) (PyFloat r) (PyFloat t) (PyFloat b) self =
    (Ok tt, self') ->
  PrimFloat.ltb r l = false /\ PrimFloat.ltb b t = false.
Proof.
  intros H. apply set_rect_ok in H. destruct H as (Hn & _).
  unfold inverted in Hn. simpl in Hn.
  destruct (PrimFloat.ltb r l), (PrimFloat.ltb b t); tauto.
Qed.

Lemma associate_action_returns {B : Builtins} row samples samples' :
  Loader.associate_action row samples = Ok samples' ->
  gt_row_ok (dict_keys samples) row /\ dict_keys samples' = dict_keys samples.
Proof.
  intros H. unfold Loader.associate_action in H.
  destruct row as [|key rest] eqn:Er; [discriminate|]. rewrite <- Er in *.
  assert (Hr : row <> []) by (rewrite Er; discriminate).
  rewrite (row_get_key _ Hr) in H. simpl in H.
  destruct (dict_get (gt_key row) samples) as [sample|] eqn:Hg.
  - destruct (Loader.cell_float row 4) as [v4|] eqn:E4; [|discriminate];
      simpl in H.
    destruct (Loader.cell_float row 5) as [v5|] eqn:E5; [|discriminate];
      simpl in H.
    destruct (Loader.cell_float row 6) as [v6|] eqn:E6; [|discriminate];
      simpl in H.
    destruct (Loader.cell_float row 7) as [v7|] eqn:E7; [|discriminate];
      simpl in H.
    match type of H with
    | (d <- returning ?body ?s ;; _) = _ =>
        destruct (returning body s) as [d|] eqn:Ed; [|discriminate]
    end.
    simpl in H. injection H as <-.
    apply returning_ok in Ed.
    apply seq_ok in Ed. destruct Ed as (m1 & Hrect & Ed).
    apply seq_ok in Ed. destruct Ed as (m2 & H2 & Ed).
    apply seq_ok in Ed. destruct Ed as (m3 & H3 & Ed).
    apply seq_ok in Ed. destruct Ed as (m4 & H8 & Ed).
    apply seq_ok in Ed. destruct Ed as (m5 & H9 & Ed).
    apply seq_ok in Ed. destruct Ed as (m6 & H10 & Ed).
    apply seq_ok in Ed. destruct Ed as (m7 & H11 & H12).
    apply store_ok in H2, H3, H8, H9, H10, H11, H12.
    destruct H2 as (v2 & E2 & _). destruct H3 as (v3 & E3 & _).
    destruct H8 as (v8 & E8 & _). destruct H9 as (v9 & E9 & _).
    destruct H10 as (v10 & E10 & _). destruct H11 as (v11 & E11 & _).
    destruct H12 as (v12 & E12 & _).
    destruct (row_get row 2) as [c2|] eqn:R2; [|discriminate]. clear E2.
    unfold DetectRegion.inherited in Hrect.
    match type of Hrect with
    | (let '(_, _) := ?m in _) = _ => destruct m as [[[]|] b'] eqn:Es
    end; [|discriminate].
    apply set_rect_floats_ok in Es. destruct Es as (Hx & Hy).
    split.
    + split; [exact Hr|]. intros _.
      exists (Build_gt_columns c2 v3 v4 v5 v6 v7 v8 v9 v10 v11 v12).
      split; [|split; assumption].
      unfold read_columns. rewrite R2, E3, E4, E5, E6, E7, E8, E9, E10, E11, E12.
      reflexivity.
    + apply dict_keys_set_present. congruence.
  - injection H as <-. split; [|reflexivity].
    split; [exact Hr|]. intros Hin. apply dict_get_keys in Hin. congruence.
Qed.

Lemma associate_returns {B : Builtins} rows : forall samples samples',
  fold_result Loader.associate_action rows samples = Ok samples' ->
  Forall (gt_row_ok (dict_keys samples)) rows.
Proof.
  induction rows as [|row rows IH]; intros samples samples' H; [constructor|].
  simpl in H.
  destruct (Loader.associate_action row samples) as [mid|] eqn:E;
    [|discriminate].
  simpl in H. apply associate_action_returns in E. destruct E as (Hrow & Hk).
  constructor; [exact Hrow|]. rewrite <- Hk. eapply IH, H.
Qed.


Lemma row_get_error row i e : row_get row i = Err e -> row_error e.
Proof.
  unfold row_get, row_error. destruct (nth_error row i); intros H;
    inversion H; auto.
Qed.

Lemma cell_float_error {B : Builtins} row i e :
  Loader.cell_float row i = Err e -> row_error e.
Proof.
  unfold Loader.cell_float. destruct (row_get row i) as [c|e'] eqn:E; simpl.
  - unfold row_error. destruct (float_of_str c); simpl; intros H;
      inversion H; auto.
  - intros H; inversion H; subst. eapply row_get_error, E.
Qed.

Lemma cell_int_error {B : Builtins} row i e :
  Loader.cell_int row i = Err e -> row_error e.
Proof.
  unfold Loader.cell_int. destruct (row_get row i) as [c|e'] eqn:E; simpl.
  - unfold row_error. destruct (int_of_str c); simpl; intros H;
      inversion H; auto.
  - intros H; inversion H; subst. eapply row_get_error, E.
Qed.

Lemma set_rect_floats_raises l r t b e :
  fst (Region.set_rect (PyFloat l) (PyFloat r) (PyFloat t) (PyFloat b)
         (Region.blank false)) = Err e ->
  e = InvalidGeometry.
Proof.
  destruct (PrimFloat.ltb r l) eqn:Hx.
  - rewrite set_rect_inverted by (left; exact Hx). simpl. congruence.
  - destruct (PrimFloat.ltb b t) eqn:Hy.
    + rewrite set_rect_inverted by (right; exact Hy). simpl. congruence.
    + rewrite (set_rect_floats _ _ _ _ Hx Hy). discriminate.
Qed.

Lemma associate_action_raises {B : Builtins} row samples e :
  Loader.associate_action row samples = Err e -> row_error e.
Proof.
  intros H. unfold Loader.associate_action in H.
  destruct (row_get row 0) as [key|e0] eqn:E0;
    [|injection H as <-; eapply row_get_error, E0].
  simpl in H.
  destruct (dict_get key samples) as [sample|]; [|discriminate].
  destruct (Loader.cell_float row 4) as [v4|] eqn:E4;
    [|injection H as <-; eapply cell_float_error, E4]; simpl in H.
  destruct (Loader.cell_float row 5) as [v5|] eqn:E5;
    [|injection H as <-; eapply cell_float_error, E5]; simpl in H.
  destruct (Loader.cell_float row 6) as [v6|] eqn:E6;
    [|injection H as <-; eapply cell_float_error, E6]; simpl in H.
  destruct (Loader.cell_float row 7) as [v7|] eqn:E7;
    [|injection H as <-; eapply cell_float_error, E7]; simpl in H.
  match type of H with
  | (d <- returning ?body ?s ;; _) = _ =>
      destruct (returning body s) as [d|e'] eqn:Ed; [discriminate|]
  end.
  injection H as <-. apply returning_error in Ed. revert Ed.
  unfold seq at 1. unfold DetectRegion.inherited at 1.
  cbn [DetectRegion.base].
  match goal with
  | |- context [Region.set_rect ?a ?b ?c ?d ?s] =>
      change s with (Region.blank false);
      destruct (Region.set_rect a b c d (Region.blank false))
        as [[[]|e1] base'] eqn:Es
  end.
  - match goal with
    | |- fst (?body ?s) = _ -> _ =>
        assert (R : raises_only row_error body); [| exact (R s e')]
    end.
    repeat first
      [ apply raises_only_seq
      | apply raises_only_store; cbv beta; intros ? ? ].
    + intros Hc. destruct (row_get row 2) eqn:E2; [discriminate|].
      injection Hc as <-. eapply row_get_error, E2.
    + apply cell_float_error.
    + apply cell_int_error.
    + apply cell_int_error.
    + apply cell_int_error.
    + apply cell_int_error.
    + apply cell_int_error.
  - simpl. intros Ee. injection Ee as <-.
    right; right. apply (set_rect_floats_raises v4 v5 v6 v7). rewrite Es.
    reflexivity.
Qed.

(** [associate_boxes_with_samples] returns exactly when every row of the
    ground truth has an image key in column 0 and, if that image is among
    the samples, thirteen readable columns and a box with its bounds in
    order.  A row for an image outside the samples is not read past its
    key, so nothing else is required of it. *)
Theorem associate_returns_iff_rows_ok {B : Builtins}
    (samples : dict Sample.t) (rows : list (list string)) :
  (exists samples',
     Loader.associate_boxes_with_samples samples rows = Ok samples') <->
  Forall (gt_row_ok (dict_keys samples)) rows.
Proof.
  unfold Loader.associate_boxes_with_samples, Loader.execute_on_csv. split.
  - intros (samples' & H). eapply associate_returns, H.
  - intros H. destruct (associate_fold rows samples H) as (samples' & E & _).
    eauto.
Qed.

(** When [associate_boxes_with_samples] raises, the exception is an
    [IndexError] (a row without the column read), a [ValueError] (a column
    that [float] or [int] rejects) or the exception of [set_rect] for a box
    with [x_max < x_min] or [y_max < y_min]; the float arithmetic of the
    region never raises. *)
Theorem associate_raises_row_errors {B : Builtins}
    (samples : dict Sample.t) (rows : list (list string)) (e : exn) :
  Loader.associate_boxes_with_samples samples rows = Err e -> row_error e.
Proof.
  unfold Loader.associate_boxes_with_samples, Loader.execute_on_csv.
  revert samples. induction rows as [|row rows IH]; intros samples H;
    [discriminate|].
  simpl in H.
  destruct (Loader.associate_action row samples) as [mid|e'] eqn:E.
  - simpl in H. eapply IH, H.
  - simpl in H. injection H as <-. eapply associate_action_raises, E.
Qed.

Lemma associate_raises_row_errors_witness :
  @Loader.associate_boxes_with_samples example_builtins
    [ ("img1", bare "img1") ]%string
    [ ["img1"; "_"; "/m/dog"; "1"; "0.5"; "0.25"; "0.25"; "0.5";
       "0"; "0"; "0"; "0"; "0"] ]%string = Err InvalidGeometry /\
  row_error InvalidGeometry.
Proof.
  split; [reflexivity|].
  apply (@associate_raises_row_errors example_builtins
           [ ("img1", bare "img1") ]%string
           [ ["img1"; "_"; "/m/dog"; "1"; "0.5"; "0.25"; "0.25"; "0.5";
              "0"; "0"; "0"; "0"; "0"] ]%string).
  reflexivity.
Defined.


(** * Loader: from the CSV files to the reloaded sample sets *)

Lemma loaded_decode_encode {B : Builtins} d :
  loaded d -> DetectRegion.decode (DetectRegion.encode d) = Ok d.
Proof.
  destruct d as [[l r t b x y w h fi] cid c o1 o2 o3 o4 o5].
  unfold loaded, declared_types, rect_consistent; simpl.
  intros ((Hl & Hr & Ht & Hb & Hc) & -> & Ew & Eh & Ex & Ey).
  destruct l as [|l], r as [|r], t as [|t], b as [|b]; try contradiction.
  destruct cid as [s|]; [|congruence].
  rewrite decode_encode.
  inversion Ew; subst w. inversion Eh; subst h. simpl in Ex, Ey.
  inversion Ex; inversion Ey. reflexivity.
Qed.

Lemma loaded_regions_decode_encode {B : Builtins} regions :
  Forall loaded regions ->
  map_result DetectRegion.decode (map DetectRegion.encode regions) = Ok regions.
Proof.
  induction 1 as [|d regions Hd _ IH]; [reflexivity|].
  simpl. rewrite (loaded_decode_encode d Hd); simpl. rewrite IH. reflexivity.
Qed.

Lemma as_built_decode_encode {B : Builtins} s :
  as_built s -> Sample.decode (Sample.encode s) = Ok s.
Proof.
  destruct s as [k si rp ds lp]. unfold as_built; simpl.
  intros (-> & -> & Hd).
  unfold Sample.decode, Sample.encode, returning, seq, store. simpl.
  rewrite (loaded_regions_decode_encode ds Hd). reflexivity.
Qed.

Lemma as_built_samples_decode_encode {B : Builtins} samples :
  Forall as_built samples ->
  map_result Sample.decode (map Sample.encode samples) = Ok samples.
Proof.
  induction 1 as [|s samples Hs _ IH]; [reflexivity|].
  simpl. rewrite (as_built_decode_encode s Hs); simpl. rewrite IH. reflexivity.
Qed.

Lemma load_written_as_built {B : Builtins} (fs : filesystem) path i samples :
  fs !! path = Some (sample_set i samples) ->
  Forall as_built samples ->
  Loader.load_sample_set_from_file fs path =
    Ok (map (Sample.with_set_index (Some i)) samples).
Proof.
  intros Hf Hd.
  unfold Loader.load_sample_set_from_file. rewrite Hf.
  unfold sample_set. simpl. rewrite (as_built_samples_decode_encode _ Hd).
  simpl. apply map_result_ok_map. intros s _. reflexivity.
Qed.

Lemma dict_values_set {V} (P : V -> Prop) key v (d : dict V) :
  P v -> Forall P (dict_values d) -> Forall P (dict_values (dict_set key v d)).
Proof.
  unfold dict_values. intros Hv. induction d as [|[k w] d IH]; simpl; intros H.
  - constructor; [exact Hv | constructor].
  - inversion H; subst. destruct (String.eqb k key); simpl; constructor; auto.
Qed.

Lemma dict_values_get {V} (P : V -> Prop) key v (d : dict V) :
  Forall P (dict_values d) -> dict_get key d = Some v -> P v.
Proof.
  unfold dict_values, dict_get. induction d as [|[k w] d IH]; simpl; intros H.
  - discriminate.
  - inversion H; subst. destruct (String.eqb k key); [|auto].
    intros E; inversion E; subst. assumption.
Qed.

Lemma create_samples_action_returns row samples samples' :
  Loader.create_samples_action row samples = Ok samples' ->
  samples' = dict_set (index_key row) (index_sample row) samples.
Proof.
  intros H. assert (Hl : (2 <= length row)%nat).
  { unfold Loader.create_samples_action in H.
    destruct (row_get row 0); [|discriminate]. simpl in H.
    destruct (row_get row 1) eqn:E1; [|discriminate].
    unfold row_get in E1. destruct (nth_error row 1) eqn:En; [|discriminate].
    assert (nth_error row 1 <> None) by congruence.
    apply nth_error_Some in H0. lia. }
  rewrite (create_samples_action_ok _ samples Hl) in H. congruence.
Qed.

Lemma create_samples_as_built rows : forall samples samples',
  fold_result Loader.create_samples_action rows samples = Ok samples' ->
  Forall as_built (dict_values samples) ->
  Forall as_built (dict_values samples').
Proof.
  induction rows as [|row rows IH]; intros samples samples' H Hb.
  - simpl in H. congruence.
  - simpl in H.
    destruct (Loader.create_samples_action row samples) as [mid|] eqn:E;
      [|discriminate].
    simpl in H. apply create_samples_action_returns in E. subst mid.
    eapply IH; [exact H|]. apply dict_values_set; [|exact Hb].
    unfold as_built, index_sample; simpl. auto.
Qed.

Lemma detection_of_loaded c : loaded (detection_of c).
Proof.
  unfold loaded, declared_types, rect_consistent, detection_of; simpl.
  repeat split; try exact I; discriminate.
Qed.

Lemma associate_action_as_built {B : Builtins} row samples samples' :
  Loader.associate_action row samples = Ok samples' ->
  Forall as_built (dict_values samples) ->
  Forall as_built (dict_values samples').
Proof.
  intros H Hb. pose proof (associate_action_returns _ _ _ H) as ((Hr & Hw) & _).
  destruct (dict_get (gt_key row) samples) as [sample|] eqn:Hg.
  - destruct Hw as (c & Hc & Hx & Hy); [apply dict_get_keys; congruence|].
    rewrite (associate_action_match _ _ _ _ Hg Hc Hx Hy) in H.
    injection H as <-. apply dict_values_set; [|exact Hb].
    destruct (dict_values_get _ _ _ _ Hb Hg) as (Hi & Hp & Hd).
    unfold as_built; simpl. split; [exact Hi|]. split; [exact Hp|].
    apply Forall_app. split; [exact Hd|].
    constructor; [apply detection_of_loaded | constructor].
  - rewrite (associate_action_skip _ _ Hr Hg) in H. congruence.
Qed.

Lemma associate_as_built {B : Builtins} rows : forall samples samples',
  fold_result Loader.associate_action rows samples = Ok samples' ->
  Forall as_built (dict_values samples) ->
  Forall as_built (dict_values samples').
Proof.
  induction rows as [|row rows IH]; intros samples samples' H Hb.
  - simpl in H. congruence.
  - simpl in H.
    destruct (Loader.associate_action row samples) as [mid|] eqn:E;
      [|discriminate].
    simpl in H. eapply IH; [exact H|].
    eapply associate_action_as_built; eassumption.
Qed.

Lemma chunk_Forall (P : Sample.t -> Prop) sample_list size i :
  Forall P sample_list -> Forall P (chunk sample_list size i).
Proof.
  intros H. unfold chunk. apply Forall_take, Forall_drop, H.
Qed.

(** The whole pipeline of [cmd_create_samples], read back: when
    [create_samples] and [associate_boxes_with_samples] have returned and
    [export_samples] writes the result under [SAMPLES_DIRECTORY] in batches
    of a positive [size], [load_sample_set(i)] returns, for every batch [i]
    that was written, exactly the samples of that batch, in order, with
    every field and every detection as it was built and [set_index] set
    to [i]. *)
Theorem pipeline_roundtrip {B : Builtins}
    (index_rows gt_rows : list (list string))
    (samples samples' : dict Sample.t)
    (SAMPLES_DIRECTORY : string) (size : Z) (fuel : nat) (fs : filesystem)
    (i : Z) :
  Loader.create_samples index_rows = Ok samples ->
  Loader.associate_boxes_with_samples samples gt_rows = Ok samples' ->
  0 < size ->
  (length samples' < fuel)%nat ->
  0 <= i ->
  (i + 1) * size < Z.of_nat (length samples') ->
  exists fs',
    Loader.export_samples fuel samples' SAMPLES_DIRECTORY size fs = Some fs' /\
    Loader.load_sample_set SAMPLES_DIRECTORY fs' i =
      Ok (map (Sample.with_set_index (Some i))
            (chunk (dict_values samples') size i)).
Proof.
  intros Hc Ha Hs Hf Hi Hlt.
  assert (Hb : Forall as_built (dict_values samples')).
  { eapply associate_as_built; [exact Ha|].
    eapply create_samples_as_built; [exact Hc | constructor]. }
  unfold Loader.export_samples.
  assert (Hlen : length (dict_values samples') = length samples')
    by apply length_map.
  destruct (export_loop_spec (dict_values samples') SAMPLES_DIRECTORY size Hs
              fuel 0 fs) as (fs' & E & Hw & _); try lia.
  exists fs'. split; [exact E|].
  unfold Loader.load_sample_set.
  apply load_written_as_built.
  - apply (Hw i); lia.
  - apply chunk_Forall, Hb.
Qed.

Lemma pipeline_roundtrip_witness :
  exists fs',
    Loader.export_samples 3 [ ("a", bare "a"); ("b", bare "b") ]%string
      "out" 1 ∅ = Some fs' /\
    @Loader.load_sample_set example_builtins "out" fs' 0 =
      Ok [ Sample.mk "a" (Some 0) (String.append "http://x/" "a") [] None ].
Proof.
  apply (@pipeline_roundtrip example_builtins
           [ ["a.jpg"; "http://x/a"]; ["b.jpg"; "http://x/b"] ]%string
           []
           [ ("a", bare "a"); ("b", bare "b") ]%string
           [ ("a", bare "a"); ("b", bare "b") ]%string
           "out"%string 1 3%nat ∅ 0).
  - reflexivity.
  - reflexivity.
  - lia.
  - simpl. lia.
  - lia.
  - simpl. lia.
Defined.


(** * Sample and Loader: what decoding and loading return *)

Lemma decode_loaded {B : Builtins} data d :
  DetectRegion.decode data = Ok d -> loaded d.
Proof.
  intros H. apply decode_items in H.
  destruct H as (l & r & t & b & s & c & o1 & o2 & o3 & o4 & o5 & H).
  decompose [and] H. subst d. apply decoded_loaded.
Qed.

Lemma map_result_Forall {A C} (f : A -> result C) (P : C -> Prop) xs ys :
  (forall x y, f x = Ok y -> P y) -> map_result f xs = Ok ys -> Forall P ys.
Proof.
  intros Hf. revert ys. induction xs as [|x xs IH]; simpl; intros ys H.
  - injection H as <-. constructor.
  - destruct (f x) as [y|] eqn:E; [|discriminate]. simpl in H.
    destruct (map_result f xs) as [ys'|]; [|discriminate]. simpl in H.
    injection H as <-. constructor; eauto.
Qed.

Lemma sample_decode_as_built {B : Builtins} data s :
  Sample.decode data = Ok s -> as_built s.
Proof.
  unfold Sample.decode. intros H. apply returning_ok in H.
  apply seq_ok in H. destruct H as (m1 & H1 & H).
  apply seq_ok in H. destruct H as (m2 & H2 & H3).
  apply store_ok in H1, H2, H3.
  destruct H1 as (k & _ & ->). destruct H2 as (rp & _ & ->).
  destruct H3 as (ds & Hd & ->).
  unfold as_built; simpl. split; [reflexivity|]. split; [reflexivity|].
  destruct (py_getitem data "detect_regions") as [v|]; [|discriminate].
  simpl in Hd. destruct (py_iter v) as [items|]; [|discriminate].
  simpl in Hd. eapply map_result_Forall; [|exact Hd].
  intros x y. apply decode_loaded.
Qed.

(** Whatever [Sample.decode] returns is a fixed point of the
    serialization: it has no set index and no cached local path, its
    detections are as [DetectRegion.decode] builds them, and encoding it
    and decoding the result gives it back unchanged. *)
Theorem sample_decode_then_encode_decode {B : Builtins}
    (data : pyval) (s : Sample.t) :
  Sample.decode data = Ok s ->
  as_built s /\ Sample.decode (Sample.encode s) = Ok s.
Proof.
  intros H. apply sample_decode_as_built in H.
  split; [exact H | apply as_built_decode_encode, H].
Qed.

Lemma sample_decode_then_encode_decode_witness :
  as_built (bare "a") /\
  @Sample.decode example_builtins (Sample.encode (bare "a")) = Ok (bare "a").
Proof.
  apply (@sample_decode_then_encode_decode example_builtins
           (Sample.encode (bare "a"))).
  reflexivity.
Defined.

(** What [load_sample_set_from_file] returns: every detection has float
    edges, [force_int] off and center and size in agreement with the
    edges; no sample has a cached local path; and unless the list is
    empty, all samples carry one and the same [set_index], the [int] of
    the file's own ["set_index"] entry. *)
Theorem load_returns_stamped_samples {B : Builtins}
    (fs : filesystem) (path : string) (samples : list Sample.t) :
  Loader.load_sample_set_from_file fs path = Ok samples ->
  Forall (fun s => Sample._local_path s = None /\
                   Forall loaded (Sample.detect_regions s)) samples /\
  (samples = [] \/
   exists data v i,
     fs !! path = Some (JsonText data) /\
     py_getitem data "set_index" = Ok v /\ py_int_of v = Ok i /\
     Forall (fun s => Sample.set_index s = Some i) samples).
Proof.
  unfold Loader.load_sample_set_from_file.
  destruct (fs !! path) as [[data|]|] eqn:Hf; try discriminate. simpl.
  destruct (py_getitem data "samples") as [sd|]; [|discriminate]. simpl.
  destruct (py_iter sd) as [ds|]; [|discriminate]. simpl.
  destruct (map_result Sample.decode ds) as [decoded|] eqn:Ed; [|discriminate].
  simpl. intros H.
  assert (Hb : Forall as_built decoded).
  { eapply map_result_Forall; [|exact Ed]. intros x y.
    apply sample_decode_as_built. }
  apply map_result_stamp in H.
  destruct H as [(-> & ->)|(v & i & Ev & Ei & ->)].
  - split; [constructor | left; reflexivity].
  - split.
    + apply Forall_fmap. eapply Forall_impl; [exact Hb|].
      intros s (_ & Hp & Hd). simpl. auto.
    + right. exists data, v, i. repeat split; try assumption.
      apply Forall_fmap. apply Forall_true. intros s. reflexivity.
Qed.

Lemma load_returns_stamped_samples_witness :
  Forall (fun s => Sample.set_index s = Some 7)
    [ Sample.mk "a" (Some 7) (String.append "http://x/" "a") [] None ].
Proof.
  assert (El : @Loader.load_sample_set_from_file example_builtins
                 {[ "p"%string := sample_set 7 [bare "a"] ]} "p" =
               Ok [ Sample.mk "a" (Some 7) (String.append "http://x/" "a") []
                      None ]).
  { unfold Loader.load_sample_set_from_file. rewrite lookup_singleton_eq.
    reflexivity. }
  destruct (@load_returns_stamped_samples example_builtins _ _ _ El)
    as (_ & [E|(data & v & i & Hf & Ev & Ei & H)]).
  - discriminate E.
  - rewrite lookup_singleton_eq in Hf. injection Hf as <-.
    injection Ev as <-. injection Ei as <-. exact H.
Defined.


(** * Loader: the label map *)

Lemma load_labels_action_ok row label_map :
  (2 <= length row)%nat ->
  Loader.load_labels_action row label_map =
    Ok (dict_set (hd EmptyString row) (nth 1 row EmptyString) label_map).
Proof.
  destruct row as [|c0 [|c1 rest]]; simpl; try lia. reflexivity.
Qed.

Lemma load_labels_action_short row label_map :
  (length row < 2)%nat ->
  Loader.load_labels_action row label_map = Err IndexError.
Proof.
  destruct row as [|c0 [|c1 rest]]; simpl; try lia; reflexivity.
Qed.

Lemma load_labels_fold rows : forall label_map,
  Forall (fun row => (2 <= length row)%nat) rows ->
  exists label_map',
    fold_result Loader.load_labels_action rows label_map = Ok label_map' /\
    forall key,
      dict_get key label_map' =
        fold_left
          (fun found row =>
             if String.eqb (hd EmptyString row) key
             then Some (nth 1 row EmptyString) else found)
          rows (dict_get key label_map).
Proof.
  induction rows as [|row rows IH]; intros label_map H.
  - exists label_map. split; reflexivity.
  - inversion H as [|? ? Hrow Hrows]; subst.
    destruct (IH (dict_set (hd EmptyString row) (nth 1 row EmptyString)
                    label_map) Hrows) as (m & E & Hm).
    exists m. simpl. rewrite (load_labels_action_ok _ _ Hrow). simpl.
    split; [exact E|]. intros key. rewrite Hm. f_equal.
    destruct (String.eqb_spec (hd EmptyString row) key) as [->|Hne].
    + apply dict_get_set_eq.
    + apply dict_get_set_ne, Hne.
Qed.

Lemma load_labels_fold_short rows : forall label_map,
  Exists (fun row => (length row < 2)%nat) rows ->
  fold_result Loader.load_labels_action rows label_map = Err IndexError.
Proof.
  induction rows as [|row rows IH]; intros label_map H.
  - inversion H.
  - simpl. destruct (le_lt_dec 2 (length row)) as [Hok|Hshort].
    + rewrite (load_labels_action_ok _ _ Hok). simpl. apply IH.
      inversion H; subst; [lia | assumption].
    + rewrite (load_labels_action_short _ _ Hshort). reflexivity.
Qed.

(** [load_labels] is all or nothing.  If some row of the file has fewer
    than two cells (a blank line, say) it raises [IndexError] and the
    loader keeps the label map it had.  Otherwise it replaces the map, what
    the loader held before is gone, and from then on [get_label(key)] is
    the label of the last row whose first cell is [key], in upper case
    unless [upper] is false, and [key] itself when no row has it. *)
Theorem load_labels_then_get_label (str_upper : string -> string)
    (rows : list (list string)) (self : Loader.t) :
  (Exists (fun row => (length row < 2)%nat) rows /\
   Loader.load_labels rows self = (Err IndexError, self)) \/
  (Forall (fun row => (2 <= length row)%nat) rows /\
   exists label_map,
     Loader.load_labels rows self = (Ok label_map, Loader.mk label_map) /\
     forall key upper,
       Loader.get_label str_upper key upper (Loader.mk label_map) =
         match label_lookup key rows with
         | Some label => if upper then str_upper label else label
         | None => key
         end).
Proof.
  destruct (decide (Forall (fun row : list string => (2 <= length row)%nat)
                      rows)) as [Hall|Hex].
  - right. split; [exact Hall|].
    destruct (load_labels_fold rows [] Hall) as (m & E & Hm).
    exists m. unfold Loader.load_labels, Loader.execute_on_csv. rewrite E.
    split; [reflexivity|]. intros key upper.
    unfold Loader.get_label, label_lookup. simpl. rewrite Hm. reflexivity.
  - left. assert (Hs : Exists (fun row => (length row < 2)%nat) rows).
    { apply not_Forall_Exists in Hex; [|apply _].
      eapply Exists_impl; [exact Hex|]. simpl. intros row Hrow. lia. }
    split; [exact Hs|].
    unfold Loader.load_labels, Loader.execute_on_csv.
    rewrite (load_labels_fold_short rows [] Hs). reflexivity.
Qed.


(** * Loader: [check_and_load] *)

(** [check_and_load] returns normally exactly when the file is there at
    the call, and then it reads no answer and changes nothing.  When the
    file is missing, every run that ends ends in an exception, also after
    an answer ["y"] and a retrieval that went well. *)
Theorem check_and_load_returns_iff_present (world : Type)
    (path_exists : string -> world -> bool)
    (retrieve : string -> string -> method world unit)
    (path : string) (remote_url : option string) (responses : list string)
    (w w' : world) :
  Loader.check_and_load world path_exists retrieve path remote_url
    responses w = Some (Ok tt, w') <->
  path_exists path w = true /\ w' = w.
Proof.
  unfold Loader.check_and_load. destruct (path_exists path w); simpl.
  - split; [intros H; injection H as <-; auto | intros (_ & ->); reflexivity].
  - split; [|intros (H & _); discriminate].
    destruct remote_url as [url|]; [|discriminate].
    destruct (Loader.ask world retrieve url path responses w)
      as [[[[]|e] w1]|]; discriminate.
Qed.

Lemma ask_until_n (world : Type)
    (retrieve : string -> string -> method world unit) url path :
  (forall w0, fst (retrieve url path w0) = Ok tt) ->
  forall responses w,
    Loader.ask world retrieve url path responses w =
      option_map (fun answers => (Ok tt, retrieved retrieve url path answers w))
        (answers_before_n responses).
Proof.
  intros Hr. induction responses as [|response rest IH]; intros w;
    [reflexivity|].
  simpl. destruct (String.eqb_spec response "y") as [->|Hy].
  - pose proof (Hr w) as Hw.
    destruct (retrieve url path w) as [[[]|e] w1] eqn:E; [|discriminate].
    simpl. rewrite IH. destruct (answers_before_n rest); simpl;
      [|reflexivity].
    unfold retrieved. simpl. rewrite E. reflexivity.
  - destruct (String.eqb_spec response "n") as [->|Hn]; [reflexivity|].
    rewrite IH. destruct (answers_before_n rest); simpl; [|reflexivity].
    unfold retrieved. simpl.
    destruct (String.eqb_spec response "y"); [contradiction | reflexivity].
Qed.

(** With the file missing and a remote URL given, [check_and_load] keeps
    asking until the answer is ["n"]: it retrieves the file once for each
    ["y"] typed before that, treats ["y"] like any other answer otherwise,
    and when ["n"] arrives raises "file not found", whatever was retrieved.
    If no ["n"] is typed it is still waiting at the prompt. *)
Theorem check_and_load_asks_until_n (world : Type)
    (path_exists : string -> world -> bool)
    (retrieve : string -> string -> method world unit)
    (path url : string) (responses : list string) (w : world) :
  path_exists path w = false ->
  (forall w0, fst (retrieve url path w0) = Ok tt) ->
  Loader.check_and_load world path_exists retrieve path (Some url)
    responses w =
  match answers_before_n responses with
  | Some answers =>
      Some (Err FileNotFound, retrieved retrieve url path answers w)
  | None => None
  end.
Proof.
  intros He Hr. unfold Loader.check_and_load. rewrite He. simpl.
  rewrite (ask_until_n world retrieve url path Hr).
  destruct (answers_before_n responses); reflexivity.
Qed.

Lemma check_and_load_asks_until_n_witness :
  Loader.check_and_load (gset string) example_exists example_retrieve
    "images.csv" (Some "http://x/images.csv"%string) [ "yes"; "y"; "n"; "y" ]%string
    ∅ =
  Some (Err FileNotFound,
        retrieved example_retrieve "http://x/images.csv" "images.csv"
          [ "yes"; "y" ]%string ∅).
Proof.
  apply (check_and_load_asks_until_n (gset string) example_exists
           example_retrieve "images.csv" "http://x/images.csv"
           [ "yes"; "y"; "n"; "y" ]%string ∅).
  - reflexivity.
  - intros w0. reflexivity.
Defined.


(** * cmd_sample_analysis: the counting loops *)

Lemma counts_ext keys f f' d :
  (forall c, f c = f' c) -> counts keys f d -> counts keys f' d.
Proof. intros H Hc c. rewrite Hc, H. reflexivity. Qed.

Lemma counts_incr keys f d k :
  counts keys f d -> k ∈ keys ->
  exists d',
    SampleAnalysis.incr (Some k) d = Ok d' /\
    counts keys (fun c => if String.eqb c k then f c + 1 else f c) d'.
Proof.
  intros Hc Hk. unfold SampleAnalysis.incr. rewrite (Hc k).
  rewrite bool_decide_eq_true_2 by exact Hk.
  eexists. split; [reflexivity|]. intros c.
  destruct (String.eqb_spec c k) as [->|Hne].
  - rewrite dict_get_set_eq, bool_decide_eq_true_2 by exact Hk. reflexivity.
  - rewrite dict_get_set_ne by congruence. apply Hc.
Qed.

Lemma counts_incr_missing keys f d k :
  counts keys f d -> k ∉ keys ->
  SampleAnalysis.incr (Some k) d = Err KeyError.
Proof.
  intros Hc Hk. unfold SampleAnalysis.incr. rewrite (Hc k).
  rewrite bool_decide_eq_false_2 by exact Hk. reflexivity.
Qed.

Lemma detections_of_class_cons c d regions :
  detections_of_class c (d :: regions) =
    (if bool_decide (DetectRegion.class_id d = Some c) then 1 else 0) +
    detections_of_class c regions.
Proof.
  unfold detections_of_class. destruct (decide (DetectRegion.class_id d = Some c)) as [E|E].
  - rewrite filter_cons_True, bool_decide_eq_true_2 by exact E. simpl length. lia.
  - rewrite filter_cons_False, bool_decide_eq_false_2 by exact E. lia.
Qed.

Lemma fold_result_cons_ok {A S} (body : A -> S -> result S) x xs s s' :
  body x s = Ok s' -> fold_result body (x :: xs) s = fold_result body xs s'.
Proof. intros H. simpl. rewrite H. reflexivity. Qed.

Lemma fold_result_cons_err {A S} (body : A -> S -> result S) x xs s e :
  body x s = Err e -> fold_result body (x :: xs) s = Err e.
Proof. intros H. simpl. rewrite H. reflexivity. Qed.

Lemma count_region_unlabelled keys f d inst app seen :
  counts keys f inst ->
  ~ (exists c, DetectRegion.class_id d = Some c /\ c ∈ keys) ->
  SampleAnalysis.count_region d (inst, app, seen) = Err KeyError.
Proof.
  intros Hf Hn. unfold SampleAnalysis.count_region.
  destruct (DetectRegion.class_id d) as [k|]; [|reflexivity].
  rewrite (counts_incr_missing keys f inst k Hf); [reflexivity|].
  intros Hk. apply Hn. eauto.
Qed.

Lemma count_region_seen keys f d k inst app seen :
  counts keys f inst ->
  DetectRegion.class_id d = Some k -> k ∈ keys ->
  dict_get k seen <> None ->
  exists inst1,
    SampleAnalysis.count_region d (inst, app, seen) = Ok (inst1, app, seen) /\
    counts keys (fun c => if String.eqb c k then f c + 1 else f c) inst1.
Proof.
  intros Hf Ek Hk Hs. unfold SampleAnalysis.count_region. rewrite Ek.
  destruct (counts_incr keys f inst k Hf Hk) as (inst1 & Ei & Hf1).
  rewrite Ei. exists inst1. split; [|exact Hf1].
  unfold SampleAnalysis.not_in. cbn [bind].
  destruct (dict_get k seen); [reflexivity | congruence].
Qed.

Lemma count_region_new keys f g d k inst app seen :
  counts keys f inst -> counts keys g app ->
  DetectRegion.class_id d = Some k -> k ∈ keys ->
  dict_get k seen = None ->
  exists inst1 app1,
    SampleAnalysis.count_region d (inst, app, seen) =
      Ok (inst1, app1, dict_set k true seen) /\
    counts keys (fun c => if String.eqb c k then f c + 1 else f c) inst1 /\
    counts keys (fun c => if String.eqb c k then g c + 1 else g c) app1.
Proof.
  intros Hf Hg Ek Hk Hs. unfold SampleAnalysis.count_region. rewrite Ek.
  destruct (counts_incr keys f inst k Hf Hk) as (inst1 & Ei & Hf1).
  destruct (counts_incr keys g app k Hg Hk) as (app1 & Ea & Hg1).
  rewrite Ei. exists inst1, app1. split; [|split; assumption].
  unfold SampleAnalysis.not_in, SampleAnalysis.mark. cbn [bind].
  rewrite Hs, Ea. reflexivity.
Qed.

Lemma count_regions_spec keys regions : forall inst app seen f g S,
  counts keys f inst -> counts keys g app ->
  (forall c, dict_get c seen <> None <-> c ∈ S) ->
  (Forall (fun d => exists c, DetectRegion.class_id d = Some c /\ c ∈ keys)
     regions /\
   exists inst' app' seen',
     fold_result SampleAnalysis.count_region regions (inst, app, seen) =
       Ok (inst', app', seen') /\
     counts keys (fun c => f c + detections_of_class c regions) inst' /\
     counts keys
       (fun c => g c + first_seen c S (map DetectRegion.class_id regions))
       app') \/
  (~ Forall (fun d => exists c, DetectRegion.class_id d = Some c /\ c ∈ keys)
       regions /\
   fold_result SampleAnalysis.count_region regions (inst, app, seen) =
     Err KeyError).
Proof.
  induction regions as [|d regions IH]; intros inst app seen f g S Hf Hg Hs.
  - left. split; [constructor|]. exists inst, app, seen.
    split; [reflexivity|]. split.
    + eapply counts_ext; [|exact Hf]. intros c. unfold detections_of_class.
      simpl. lia.
    + eapply counts_ext; [|exact Hg]. intros c. unfold first_seen.
      rewrite bool_decide_eq_false_2; [lia|]. intros (_ & H). inversion H.
  - destruct (DetectRegion.class_id d) as [k|] eqn:Ek.
    2:{ right. split.
        - intros H. inversion H as [|? ? (c & E & _) _]. congruence.
        - apply fold_result_cons_err.
          apply (count_region_unlabelled keys f); [exact Hf|].
          intros (c & E & _). congruence. }
    destruct (decide (k ∈ keys)) as [Hk|Hk].
    2:{ right. split.
        - intros H. inversion H as [|? ? (c & E & Hc) _]. congruence.
        - apply fold_result_cons_err.
          apply (count_region_unlabelled keys f); [exact Hf|].
          intros (c & E & Hc). congruence. }
    assert (Hcnt : forall (h : string -> Z) c,
              (if String.eqb c k then h c + 1 else h c) +
                detections_of_class c regions =
              h c + detections_of_class c (d :: regions)).
    { intros h c. rewrite detections_of_class_cons, Ek.
      destruct (String.eqb_spec c k) as [->|Hne].
      - rewrite bool_decide_eq_true_2 by reflexivity. lia.
      - rewrite bool_decide_eq_false_2 by congruence. lia. }
    destruct (dict_get k seen) as [b|] eqn:Eseen.
    + assert (HkS : k ∈ S) by (apply Hs; congruence).
      destruct (count_region_seen keys f d k inst app seen Hf Ek Hk)
        as (inst1 & E1 & Hf1); [congruence|].
      rewrite (fold_result_cons_ok _ _ _ _ _ E1).
      destruct (IH inst1 app seen _ g S Hf1 Hg Hs)
        as [(Hall & inst' & app' & seen' & E & Hi & Ha)|(Hn & E)].
      * left. split.
        { constructor; [exists k; auto | exact Hall]. }
        exists inst', app', seen'. split; [exact E|]. split.
        -- eapply counts_ext; [|exact Hi]. intros c. apply Hcnt.
        -- eapply counts_ext; [|exact Ha]. intros c. simpl. rewrite Ek.
           unfold first_seen. rewrite Z.add_cancel_l.
           assert (Hiff : ((c ∉ S) /\
                           (Some c ∈ map DetectRegion.class_id regions)) <->
                          ((c ∉ S) /\
                           (Some c ∈ Some k ::
                              map DetectRegion.class_id regions))).
           { rewrite elem_of_cons. split; [tauto|].
             intros (Hc & [E'|H']); [|tauto]. congruence. }
           rewrite (bool_decide_ext _ _ Hiff). reflexivity.
      * right. split; [|exact E]. intros H. inversion H; auto.
    + assert (HkS : k ∉ S) by (intros H; apply Hs in H; congruence).
      destruct (count_region_new keys f g d k inst app seen Hf Hg Ek Hk Eseen)
        as (inst1 & app1 & E1 & Hf1 & Hg1).
      rewrite (fold_result_cons_ok _ _ _ _ _ E1).
      destruct (IH inst1 app1 (dict_set k true seen) _ _ (k :: S) Hf1 Hg1)
        as [(Hall & inst' & app' & seen' & E & Hi & Ha)|(Hn & E)].
      { intros c. rewrite elem_of_cons, <- Hs.
        destruct (String.eqb_spec k c) as [->|Hne].
        - rewrite dict_get_set_eq. split; [auto | discriminate].
        - rewrite dict_get_set_ne by exact Hne. split; [auto|].
          intros [E'|H']; [congruence | exact H']. }
      * left. split.
        { constructor; [exists k; auto | exact Hall]. }
        exists inst', app', seen'. split; [exact E|]. split.
        -- eapply counts_ext; [|exact Hi]. intros c. apply Hcnt.
        -- eapply counts_ext; [|exact Ha]. intros c. simpl. rewrite Ek.
           unfold first_seen.
           destruct (String.eqb_spec c k) as [->|Hne].
           ++ rewrite (bool_decide_eq_false_2 ((k ∉ k :: S) /\ _)).
              2:{ intros (H & _). apply H. left. }
              rewrite bool_decide_eq_true_2; [lia|].
              split; [exact HkS | left].
           ++ rewrite Z.add_cancel_l.
              assert (Hiff : ((c ∉ k :: S) /\
                              (Some c ∈ map DetectRegion.class_id regions)) <->
                             ((c ∉ S) /\
                              (Some c ∈ Some k ::
                                map DetectRegion.class_id regions))).
              { rewrite !elem_of_cons. split.
                - intros (H1 & H2). split; [tauto | auto].
                - intros (H1 & [E'|H2]); [congruence|]. split; [|exact H2].
                  intros [E'|H']; [congruence | tauto]. }
              rewrite (bool_decide_ext _ _ Hiff). reflexivity.
      * right. split; [|exact E]. intros H. inversion H; auto.
Qed.

Lemma instances_of_cons c s samples :
  instances_of c (s :: samples) =
    detections_of_class c (Sample.detect_regions s) + instances_of c samples.
Proof.
  unfold instances_of, detections_of_class. simpl.
  rewrite filter_app, length_app. lia.
Qed.

Lemma appearances_of_cons c s samples :
  appearances_of c (s :: samples) =
    (if bool_decide (Some c ∈ classes_of s) then 1 else 0) +
    appearances_of c samples.
Proof.
  unfold appearances_of. destruct (decide (Some c ∈ classes_of s)) as [E|E].
  - rewrite filter_cons_True, bool_decide_eq_true_2 by exact E. simpl length. lia.
  - rewrite filter_cons_False, bool_decide_eq_false_2 by exact E. lia.
Qed.

Lemma detections_of_class_nonneg c regions : 0 <= detections_of_class c regions.
Proof. unfold detections_of_class. lia. Qed.

Lemma detections_of_class_shown c regions :
  Some c ∈ map DetectRegion.class_id regions ->
  1 <= detections_of_class c regions.
Proof.
  induction regions as [|d regions IH]; simpl; intros H; [inversion H|].
  rewrite detections_of_class_cons.
  pose proof (detections_of_class_nonneg c regions).
  apply elem_of_cons in H. destruct H as [E|H].
  - rewrite bool_decide_eq_true_2 by congruence. lia.
  - specialize (IH H). destruct (bool_decide _); lia.
Qed.

Lemma appearances_le_instances c samples :
  0 <= appearances_of c samples <= instances_of c samples.
Proof.
  induction samples as [|s samples IH].
  - unfold appearances_of, instances_of, detections_of_class. simpl. lia.
  - rewrite appearances_of_cons, instances_of_cons.
    pose proof (detections_of_class_nonneg c (Sample.detect_regions s)).
    destruct (decide (Some c ∈ classes_of s)) as [E|E].
    + rewrite bool_decide_eq_true_2 by exact E.
      pose proof (detections_of_class_shown c _ E). lia.
    + rewrite bool_decide_eq_false_2 by exact E. lia.
Qed.

Lemma count_sample_spec label_map s inst app f g :
  counts (dict_keys label_map) f inst -> counts (dict_keys label_map) g app ->
  (labelled label_map s /\
   exists inst' app',
     SampleAnalysis.count_sample s (inst, app) = Ok (inst', app') /\
     counts (dict_keys label_map)
       (fun c => f c + detections_of_class c (Sample.detect_regions s)) inst' /\
     counts (dict_keys label_map)
       (fun c => g c + if bool_decide (Some c ∈ classes_of s) then 1 else 0)
       app') \/
  (~ labelled label_map s /\
   SampleAnalysis.count_sample s (inst, app) = Err KeyError).
Proof.
  intros Hf Hg. unfold SampleAnalysis.count_sample, labelled.
  destruct (count_regions_spec (dict_keys label_map) (Sample.detect_regions s)
              inst app [] f g [] Hf Hg)
    as [(Hall & inst' & app' & seen' & E & Hi & Ha)|(Hn & E)].
  - intros c. simpl. split; [congruence | intros H; inversion H].
  - left. split; [exact Hall|]. exists inst', app'. rewrite E.
    split; [reflexivity|]. split; [exact Hi|].
    eapply counts_ext; [|exact Ha]. intros c. simpl. unfold first_seen.
    rewrite Z.add_cancel_l.
    assert (Hiff : ((c ∉ []) /\
                    (Some c ∈ map DetectRegion.class_id
                                (Sample.detect_regions s))) <->
                   Some c ∈ classes_of s).
    { unfold classes_of. split; [tauto|].
      intros H. split; [intros H'; inversion H' | exact H]. }
    rewrite (bool_decide_ext _ _ Hiff). reflexivity.
  - right. split; [exact Hn|]. rewrite E. reflexivity.
Qed.

Lemma count_samples_spec label_map samples : forall inst app f g,
  counts (dict_keys label_map) f inst -> counts (dict_keys label_map) g app ->
  (Forall (labelled label_map) samples /\
   exists inst' app',
     fold_result SampleAnalysis.count_sample samples (inst, app) =
       Ok (inst', app') /\
     counts (dict_keys label_map) (fun c => f c + instances_of c samples)
       inst' /\
     counts (dict_keys label_map) (fun c => g c + appearances_of c samples)
       app') \/
  (~ Forall (labelled label_map) samples /\
   fold_result SampleAnalysis.count_sample samples (inst, app) = Err KeyError).
Proof.
  induction samples as [|s samples IH]; intros inst app f g Hf Hg.
  - left. split; [constructor|]. exists inst, app. split; [reflexivity|].
    split; (eapply counts_ext; [|eassumption]); intros c;
      unfold instances_of, appearances_of, detections_of_class; simpl; lia.
  - destruct (count_sample_spec label_map s inst app f g Hf Hg)
      as [(Hs & inst1 & app1 & E1 & Hf1 & Hg1)|(Hn & E1)].
    + rewrite (fold_result_cons_ok _ _ _ _ _ E1).
      destruct (IH inst1 app1 _ _ Hf1 Hg1)
        as [(Hall & inst' & app' & E & Hi & Ha)|(Hn & E)].
      * left. split; [constructor; assumption|].
        exists inst', app'. split; [exact E|]. split.
        -- eapply counts_ext; [|exact Hi]. intros c. simpl.
           rewrite instances_of_cons. lia.
        -- eapply counts_ext; [|exact Ha]. intros c. simpl.
           rewrite appearances_of_cons. lia.
      * right. split; [|exact E]. intros H. inversion H; auto.
    + right. split; [intros H; inversion H; auto|].
      apply fold_result_cons_err, E1.
Qed.

Lemma zeros_counts keys : forall done inst app,
  counts done (fun _ => 0) inst -> counts done (fun _ => 0) app ->
  counts (done ++ keys) (fun _ => 0)
    (fst (fold_left
            (fun st key => (dict_set key 0 (fst st), dict_set key 0 (snd st)))
            keys (inst, app))) /\
  counts (done ++ keys) (fun _ => 0)
    (snd (fold_left
            (fun st key => (dict_set key 0 (fst st), dict_set key 0 (snd st)))
            keys (inst, app))).
Proof.
  assert (Hset : forall done key d,
            counts done (fun _ => 0) d ->
            counts (done ++ [key]) (fun _ => 0) (dict_set key 0 d)).
  { intros done key d Hd c. destruct (String.eqb_spec key c) as [->|Hne].
    - rewrite dict_get_set_eq, bool_decide_eq_true_2; [reflexivity|].
      apply elem_of_app. right. left.
    - rewrite dict_get_set_ne by exact Hne. rewrite Hd.
      assert (Hiff : c ∈ done <-> c ∈ done ++ [key]).
      { rewrite elem_of_app, list_elem_of_singleton. split; [auto|].
        intros [H|H]; [exact H | congruence]. }
      rewrite (bool_decide_ext _ _ Hiff). reflexivity. }
  induction keys as [|key keys IH]; intros done inst app Hi Ha.
  - rewrite app_nil_r. simpl. auto.
  - simpl. replace (done ++ key :: keys) with ((done ++ [key]) ++ keys)
      by (rewrite <- app_assoc; reflexivity).
    apply IH; apply Hset; assumption.
Qed.

(** The counting loops of the analysis script.  They end without an
    exception exactly when every detection of every sample has a class of
    the label map; otherwise the script stops with a [KeyError].  When they
    end, [class_instances] holds for each class of the label map the number
    of detections of that class over all samples, and [class_appearances]
    the number of samples with at least one such detection, which is never
    more than the number of instances; neither holds any other key. *)
Theorem count_classes_spec (label_map : dict string)
    (samples : list Sample.t) :
  (Forall (labelled label_map) samples /\
   exists class_instances class_appearances,
     SampleAnalysis.count_classes label_map samples =
       Ok (class_instances, class_appearances) /\
     (forall c, c ∈ dict_keys label_map ->
        dict_get c class_instances = Some (instances_of c samples) /\
        dict_get c class_appearances = Some (appearances_of c samples) /\
        0 <= appearances_of c samples <= instances_of c samples) /\
     (forall c, c ∉ dict_keys label_map ->
        dict_get c class_instances = None /\
        dict_get c class_appearances = None)) \/
  (~ Forall (labelled label_map) samples /\
   SampleAnalysis.count_classes label_map samples = Err KeyError).
Proof.
  unfold SampleAnalysis.count_classes. cbv zeta.
  match goal with
  | |- context [fold_result _ samples ?z] =>
      assert (Hz : counts (dict_keys label_map) (fun _ => 0) (fst z) /\
                   counts (dict_keys label_map) (fun _ => 0) (snd z))
        by (apply (zeros_counts (dict_keys label_map) [] [] []);
            intros c; reflexivity);
      destruct z as [inst0 app0]
  end.
  destruct Hz as (Hi0 & Ha0). simpl in Hi0, Ha0.
  destruct (count_samples_spec label_map samples inst0 app0 _ _ Hi0 Ha0)
    as [(Hall & inst' & app' & E & Hi & Ha)|(Hn & E)].
  - left. split; [exact Hall|]. exists inst', app'. split; [exact E|]. split.
    + intros c Hc. rewrite (Hi c), (Ha c).
      rewrite bool_decide_eq_true_2 by exact Hc.
      split; [reflexivity|]. split; [reflexivity|].
      apply appearances_le_instances.
    + intros c Hc. rewrite (Hi c), (Ha c).
      rewrite bool_decide_eq_false_2 by exact Hc. auto.
  - right. auto.
Qed.


(** * cmd_visualize_samples: which samples are drawn *)

Lemma py_slice_prefix {A} (l : list A) stop :
  l <> [] ->
  stop < Z.of_nat (length l) ->
  exists k, py_slice l 0 stop = firstn k l /\ (k < length l)%nat /\
            (0 <= stop -> k = Z.to_nat stop).
Proof.
  intros Hl Hs. unfold py_slice. cbv zeta.
  assert (0 < length l)%nat by (destruct l; [congruence | simpl; lia]).
  change (0 <? 0) with false. cbv iota.
  assert (E0 : Z.min 0 (Z.of_nat (length l)) = 0) by lia. rewrite E0.
  change (Z.to_nat 0) with 0%nat. rewrite drop_0, Z.sub_0_r.
  destruct (Z.ltb_spec stop 0) as [Hn|Hn].
  - exists (Z.to_nat (Z.max (stop + Z.of_nat (length l)) 0)).
    split; [reflexivity|]. split; lia.
  - exists (Z.to_nat (Z.min stop (Z.of_nat (length l)))).
    split; [reflexivity|]. split; [lia|]. intros _. lia.
Qed.

(** The visualisation script never draws the last sample it could: when
    some sample of the set has its image and a detection, the samples
    drawn are a strict prefix of those, [min(n - 1, sample_count)] of them
    for a [sample_count] that is not negative.  With one such sample
    nothing is drawn. *)
Theorem visualize_leaves_out_last (STORAGE_DIRECTORY : string)
    (path_exists : string -> bool) (samples : list Sample.t)
    (sample_count : Z) :
  VisualizeSamples.loaded_samples STORAGE_DIRECTORY path_exists samples <> [] ->
  exists drawn rest,
    VisualizeSamples.select_samples STORAGE_DIRECTORY path_exists samples
      sample_count = Some drawn /\
    VisualizeSamples.loaded_samples STORAGE_DIRECTORY path_exists samples =
      drawn ++ rest /\
    rest <> [] /\
    (0 <= sample_count ->
     Z.of_nat (length drawn) =
       Z.min (Z.of_nat (length drawn + length rest) - 1) sample_count).
Proof.
  intros Hne. unfold VisualizeSamples.select_samples. cbv zeta.
  set (l := VisualizeSamples.loaded_samples _ _ _) in *.
  assert (Hl : (0 < length l)%nat) by (destruct l; [congruence | simpl; lia]).
  destruct (Z.eqb_spec (Z.of_nat (length l)) 0) as [E|_]; [lia|].
  destruct (py_slice_prefix l (Z.min (Z.of_nat (length l) - 1) sample_count))
    as (k & Ek & Hk & Hc); [exact Hne | lia |].
  exists (firstn k l), (skipn k l). rewrite Ek.
  split; [reflexivity|]. split; [symmetry; apply firstn_skipn|]. split.
  - intros H. apply (f_equal (@length _)) in H.
    rewrite length_skipn in H. simpl in H. lia.
  - intros Hs. rewrite length_firstn, length_skipn.
    rewrite Hc by lia. lia.
Qed.

Lemma visualize_leaves_out_last_witness :
  VisualizeSamples.select_samples "store" (fun _ => true) [dog_photo] 50 =
    Some [].
Proof.
  destruct (visualize_leaves_out_last "store" (fun _ => true) [dog_photo] 50)
    as (drawn & rest & E & Hl & Hr & _).
  - discriminate.
  - rewrite E. f_equal. destruct drawn as [|s [|s' drawn]];
      [reflexivity | destruct rest; [congruence | discriminate Hl]
      | discriminate Hl].
Defined.


(** * Sample: the local image path *)

Lemma string_of_uint_no_slash d : no_slash (NilEmpty.string_of_uint d).
Proof.
  induction d; simpl; try exact I; (split; [discriminate | assumption]).
Qed.

Lemma str_of_int_no_slash i : no_slash (str_of_int i).
Proof.
  unfold str_of_int, NilZero.string_of_int, NilZero.string_of_uint.
  destruct (Z.to_int i) as [d|d].
  - destruct d; try apply string_of_uint_no_slash.
    simpl. split; [discriminate | exact I].
  - split; [discriminate|].
    destruct d; try apply string_of_uint_no_slash.
    simpl. split; [discriminate | exact I].
Qed.

Lemma str_of_int_not_None i : str_of_int i <> "None"%string.
Proof.
  unfold str_of_int, NilZero.string_of_int, NilZero.string_of_uint.
  destruct (Z.to_int i) as [d|d]; destruct d; discriminate.
Qed.

Lemma str_of_int_nonempty i : str_of_int i <> EmptyString.
Proof.
  unfold str_of_int, NilZero.string_of_int, NilZero.string_of_uint.
  destruct (Z.to_int i) as [d|d]; destruct d; discriminate.
Qed.

Lemma last_char_split s :
  s <> EmptyString -> no_slash s ->
  exists s' c, s = String.append s' (String c EmptyString) /\ c <> "/"%char.
Proof.
  induction s as [|c s IH]; [congruence|]. intros _ (Hc & Hs).
  destruct s as [|c' s].
  - exists EmptyString, c. split; [reflexivity | exact Hc].
  - destruct IH as (s' & c'' & E & Hc''); [discriminate | exact Hs |].
    exists (String c s'), c''. rewrite append_cons, <- E. auto.
Qed.

Lemma substring_last s c :
  substring (String.length (String.append s (String c EmptyString)) - 1) 1
    (String.append s (String c EmptyString)) = String c EmptyString.
Proof.
  induction s as [|c' s IH]; [reflexivity|].
  rewrite append_cons. simpl String.length.
  rewrite length_append in *. simpl String.length in *.
  replace (S (String.length s + 1) - 1)%nat with (S (String.length s + 1 - 1))
    by lia.
  simpl substring. exact IH.
Qed.

Lemma path_join_dir a c b :
  c <> "/"%char -> relative b ->
  path_join (String.append a (String c EmptyString)) b =
    String.append (String.append a (String c EmptyString)) (String "/" b).
Proof.
  intros Hc Hb. unfold path_join.
  assert (Ea : String.eqb (String.append a (String c EmptyString)) EmptyString
               = false).
  { destruct a; reflexivity. }
  assert (Es : String.eqb
                 (substring
                    (String.length (String.append a (String c EmptyString)) - 1)
                    1 (String.append a (String c EmptyString))) "/" = false).
  { rewrite substring_last. apply String.eqb_neq. congruence. }
  rewrite Ea, Es.
  destruct b as [|c' b]; [reflexivity|]. simpl in Hb.
  destruct c' as [[] [] [] [] [] [] [] []];
    first [reflexivity | exfalso; apply Hb; reflexivity].
Qed.

Lemma split_at_slash x : forall y u v,
  no_slash x -> no_slash y ->
  String.append x (String "/" u) = String.append y (String "/" v) ->
  x = y /\ u = v.
Proof.
  induction x as [|c x IH]; intros [|d y] u v Hx Hy;
    rewrite ?append_nil_l, ?append_cons; intros H.
  - inversion H. auto.
  - inversion H; subst. destruct Hy as (Hd & _). congruence.
  - inversion H; subst. destruct Hx as (Hc & _). congruence.
  - inversion H; subst. destruct Hx as (_ & Hx). destruct Hy as (_ & Hy).
    destruct (IH y u v Hx Hy) as (-> & ->); auto.
Qed.

Lemma append_relative k s :
  relative k -> relative s -> relative (String.append k s).
Proof. destruct k; [rewrite append_nil_l; auto | rewrite append_cons; auto]. Qed.

Lemma index_text_plain (set_index : option Z) :
  let text := match set_index with
              | Some i => str_of_int i
              | None => "None"%string
              end in
  text <> EmptyString /\ no_slash text.
Proof.
  destruct set_index as [i|]; simpl.
  - split; [apply str_of_int_nonempty | apply str_of_int_no_slash].
  - split; [discriminate|]. repeat split; discriminate.
Qed.

Lemma local_image_path_shape STORAGE_DIRECTORY :
  exists prefix, forall s,
    Sample._local_path s = None -> relative (Sample.key s) ->
    fst (SampleImage._local_image_path STORAGE_DIRECTORY s) =
      String.append prefix
        (String.append
           match Sample.set_index s with
           | Some i => str_of_int i
           | None => "None"%string
           end
           (String "/" (String.append (Sample.key s) ".jpg"))).
Proof.
  destruct (path_join_prefix (path_join STORAGE_DIRECTORY "sample_images"))
    as (prefix & Hp).
  exists (String.append prefix "set_"). intros s Hl Hk.
  unfold SampleImage._local_image_path. rewrite Hl. cbv zeta. simpl fst.
  unfold SampleImage.get_set_path, SampleImage.set_name.
  rewrite !append_cons, !append_nil_l. rewrite Hp by discriminate.
  destruct (index_text_plain (Sample.set_index s)) as (Hne & Hns).
  cbv zeta in Hne, Hns.
  destruct (last_char_split _ Hne Hns) as (t & c & Et & Hc).
  rewrite Et.
  replace (String.append prefix
             (String "s" (String "e" (String "t" (String "_"
                (String.append t (String c EmptyString)))))))
    with (String.append (String.append prefix (String.append "set_" t))
            (String c EmptyString))
    by (rewrite !append_assoc, !append_cons, !append_nil_l; reflexivity).
  rewrite path_join_dir; [|exact Hc|].
  - rewrite !append_assoc, !append_cons, !append_nil_l. reflexivity.
  - apply append_relative; [exact Hk | discriminate].
Qed.

(** Distinct samples keep their images in distinct files: for samples
    whose path is not cached yet and whose keys do not start with a slash,
    the local image paths are equal only if both the set indexes and the
    keys are.  A sample never loaded from a set ([set_index] [None]) shares
    its directory with no numbered set. *)
Theorem local_image_paths_differ (STORAGE_DIRECTORY : string)
    (s1 s2 : Sample.t) :
  Sample._local_path s1 = None -> Sample._local_path s2 = None ->
  relative (Sample.key s1) -> relative (Sample.key s2) ->
  fst (SampleImage._local_image_path STORAGE_DIRECTORY s1) =
    fst (SampleImage._local_image_path STORAGE_DIRECTORY s2) ->
  Sample.set_index s1 = Sample.set_index s2 /\ Sample.key s1 = Sample.key s2.
Proof.
  intros Hl1 Hl2 Hk1 Hk2.
  destruct (local_image_path_shape STORAGE_DIRECTORY) as (prefix & Hp).
  rewrite (Hp s1 Hl1 Hk1), (Hp s2 Hl2 Hk2). intros H.
  apply append_inj_l in H.
  destruct (index_text_plain (Sample.set_index s1)) as (_ & Hn1).
  destruct (index_text_plain (Sample.set_index s2)) as (_ & Hn2).
  cbv zeta in Hn1, Hn2.
  apply split_at_slash in H; [|assumption|assumption].
  destruct H as (Hi & Hk). split.
  - destruct (Sample.set_index s1) as [i|], (Sample.set_index s2) as [j|].
    + f_equal. apply str_of_int_inj, Hi.
    + destruct (str_of_int_not_None i Hi).
    + symmetry in Hi. destruct (str_of_int_not_None j Hi).
    + reflexivity.
  - eapply append_inj_r, Hk.
Qed.

Lemma local_image_paths_differ_witness :
  Sample.set_index (Sample.mk "a" (Some 3) "http://x/a" [] None) =
    Sample.set_index (Sample.mk "a" (Some 3) "http://y/a" [dog] None) /\
  Sample.key (Sample.mk "a" (Some 3) "http://x/a" [] None) =
    Sample.key (Sample.mk "a" (Some 3) "http://y/a" [dog] None).
Proof.
  apply (local_image_paths_differ "store"
           (Sample.mk "a" (Some 3) "http://x/a" [] None)
           (Sample.mk "a" (Some 3) "http://y/a" [dog] None)).
  - reflexivity.
  - reflexivity.
  - discriminate.
  - discriminate.
  - reflexivity.
Defined.


(** * Visual and Logger: bounds and padding *)

(** [_get_safe_bounds] splits a box along one axis.  For a box that
    meets the image ([near <= far], [0 <= far], [near <= max_bound], and
    [max_bound] not negative) the safe bounds are in order and within [0 .. max_bound], neither excess is
    negative, and the excess before, the part inside and the excess after
    add up to the extent of the box, which is what lets [safe_extract] fit
    the part it cut into the black filler.  For the edges of a region that
    [is_in_bounds] there is no excess and the safe bounds are the edges. *)
Theorem safe_bounds_split (near far max_bound : Z) :
  0 <= max_bound -> near <= far -> 0 <= far -> near <= max_bound ->
  exists safe_near safe_far near_excess far_excess,
    Visual._get_safe_bounds near far max_bound =
      (safe_near, safe_far, near_excess, far_excess) /\
    0 <= safe_near <= safe_far /\ safe_far <= max_bound /\
    0 <= near_excess /\ 0 <= far_excess /\
    near_excess + (safe_far - safe_near) + far_excess = far - near /\
    (forall r height,
       all_int r -> Region._left r = PyInt near ->
       Region._right r = PyInt far ->
       Region.is_in_bounds (PyInt max_bound) height r = true ->
       safe_near = near /\ safe_far = far /\
       near_excess = 0 /\ far_excess = 0).
Proof.
  intros Hm Hnf Hf Hn. unfold Visual._get_safe_bounds. cbv zeta.
  do 4 eexists. split; [reflexivity|].
  refine (conj _ (conj _ (conj _ (conj _ (conj _ _))))); try lia.
  intros r height Hi El Er Hb. unfold Region.is_in_bounds in Hb.
  rewrite El, Er in Hb.
  destruct (py_lt (Region._top r) (PyInt 0)); [discriminate|].
  destruct (py_gt (Region._bottom r) height); [discriminate|].
  simpl in Hb. unfold py_gt in Hb. simpl in Hb.
  destruct (Z.ltb_spec near 0); [discriminate|].
  destruct (Z.ltb_spec max_bound far); [discriminate|]. lia.
Qed.

Lemma safe_bounds_split_witness :
  exists safe_near safe_far near_excess far_excess,
    Visual._get_safe_bounds (-3) 7 5 =
      (safe_near, safe_far, near_excess, far_excess) /\
    near_excess + (safe_far - safe_near) + far_excess = 7 - -3.
Proof.
  destruct (safe_bounds_split (-3) 7 5)
    as (a & b & c & d & E & _ & _ & _ & _ & H & _); try lia.
  exists a, b, c, d. split; assumption.
Defined.

Lemma length_copies k char :
  String.length (copies k char) = (k * String.length char)%nat.
Proof.
  induction k as [|k IH]; [reflexivity|]. simpl copies.
  rewrite length_append, IH. lia.
Qed.

Lemma pre_fill_runs_on fuel : forall text length,
  Z.of_nat (String.length text) < length ->
  Logger._pre_fill fuel text length EmptyString = None.
Proof.
  induction fuel as [|fuel IH]; intros text length H; [reflexivity|].
  simpl. destruct (Z.ltb_spec (Z.of_nat (String.length text)) length); [|lia].
  apply IH. exact H.
Qed.

Lemma pre_fill_pads char length :
  char <> EmptyString ->
  forall n text,
    (Z.to_nat (length - Z.of_nat (String.length text)) <= n)%nat ->
    exists k,
      (forall fuel, (k < fuel)%nat ->
         Logger._pre_fill fuel text length char =
           Some (String.append (copies k char) text)) /\
      length <=
        Z.of_nat (String.length (String.append (copies k char) text)) /\
      (forall j, (j < k)%nat ->
         Z.of_nat (String.length (String.append (copies j char) text)) <
           length).
Proof.
  intros Hc. assert (Hl : (0 < String.length char)%nat).
  { destruct char; [congruence | simpl; lia]. }
  induction n as [|n IH]; intros text Hn.
  - exists 0%nat. simpl copies. rewrite append_nil_l.
    split; [|split; [lia | intros j Hj; lia]].
    intros [|fuel] Hf; [lia|]. simpl.
    destruct (Z.ltb_spec (Z.of_nat (String.length text)) length); [lia|].
    reflexivity.
  - destruct (Z.ltb_spec (Z.of_nat (String.length text)) length) as [Hlt|Hge].
    + destruct (IH (String.append char text)) as (k & Hrun & Hlen & Hmin).
      { rewrite length_append. lia. }
      assert (Ea : forall j,
                String.append (copies (S j) char) text =
                String.append (copies j char) (String.append char text)).
      { intros j. simpl copies. apply append_assoc. }
      exists (S k). rewrite Ea. split; [|split; [exact Hlen|]].
      * intros [|fuel] Hf; [lia|]. simpl.
        destruct (Z.ltb_spec (Z.of_nat (String.length text)) length); [|lia].
        apply Hrun. lia.
      * intros [|j] Hj.
        -- simpl copies. rewrite append_nil_l. exact Hlt.
        -- rewrite Ea. apply Hmin. lia.
    + exists 0%nat. simpl copies. rewrite append_nil_l.
      split; [|split; [lia | intros j Hj; lia]].
      intros [|fuel] Hf; [lia|]. simpl.
      destruct (Z.ltb_spec (Z.of_nat (String.length text)) length); [lia|].
      reflexivity.
Qed.

(** [_pre_fill] puts copies of [char] in front of the text until it has at
    least [length] characters: the least number of copies that does, so
    none for a text that is long enough, and with a one-character [char] a
    result of exactly [length] characters otherwise.  With an empty [char]
    and a text shorter than [length] the loop never ends. *)
Theorem pre_fill_pads_or_runs_on (text : string) (length : Z) (char : string) :
  (char = EmptyString /\ Z.of_nat (String.length text) < length /\
   forall fuel, Logger._pre_fill fuel text length char = None) \/
  (exists k,
     (forall fuel, (k < fuel)%nat ->
        Logger._pre_fill fuel text length char =
          Some (String.append (copies k char) text)) /\
     length <= Z.of_nat (String.length (String.append (copies k char) text)) /\
     (forall j, (j < k)%nat ->
        Z.of_nat (String.length (String.append (copies j char) text)) <
          length) /\
     (String.length char = 1%nat ->
      Z.of_nat (String.length (String.append (copies k char) text)) =
        Z.max length (Z.of_nat (String.length text)))).
Proof.
  destruct (string_dec char EmptyString) as [->|Hc].
  - destruct (Z.ltb_spec (Z.of_nat (String.length text)) length) as [Hlt|Hge].
    + left. split; [reflexivity|]. split; [exact Hlt|].
      intros fuel. apply pre_fill_runs_on, Hlt.
    + right. exists 0%nat. simpl copies. rewrite append_nil_l.
      split; [|split; [lia | split; [intros j Hj; lia | intros _; lia]]].
      intros [|fuel] Hf; [lia|]. simpl.
      destruct (Z.ltb_spec (Z.of_nat (String.length text)) length); [lia|].
      reflexivity.
  - right.
    destruct (pre_fill_pads char length Hc _ text (le_n _))
      as (k & Hrun & Hlen & Hmin).
    exists k. split; [exact Hrun|]. split; [exact Hlen|].
    split; [exact Hmin|]. intros H1.
    rewrite length_append, length_copies, H1 in *.
    destruct k as [|k]; [simpl in *; lia|].
    specialize (Hmin k ltac:(lia)).
    rewrite length_append, length_copies, H1 in Hmin. lia.
Qed.


(** * Loader: [create_samples] on any file *)

Lemma create_samples_action_short row samples :
  (length row < 2)%nat ->
  Loader.create_samples_action row samples = Err IndexError.
Proof.
  destruct row as [|c0 [|c1 rest]]; simpl; try lia; reflexivity.
Qed.

Lemma create_samples_fold_short rows : forall samples,
  Exists (fun row => (length row < 2)%nat) rows ->
  fold_result Loader.create_samples_action rows samples = Err IndexError.
Proof.
  induction rows as [|row rows IH]; intros samples H.
  - inversion H.
  - destruct (le_lt_dec 2 (length row)) as [Hok|Hshort].
    + rewrite (fold_result_cons_ok _ _ _ _ _
                 (create_samples_action_ok row samples Hok)).
      apply IH. inversion H; subst; [lia | assumption].
    + apply fold_result_cons_err, create_samples_action_short, Hshort.
Qed.

(** [create_samples] on any image index.  If some row has fewer than two
    cells (a blank line, say) it raises [IndexError].  Otherwise it returns
    a dictionary with one sample for each distinct key, the key of a row
    being the text of its first cell before the first dot; the sample
    stored under a key is the one of the last row with that key, with no
    detection, no set index and no cached path. *)
Theorem create_samples_all_or_nothing (rows : list (list string)) :
  (Exists (fun row => (length row < 2)%nat) rows /\
   Loader.create_samples rows = Err IndexError) \/
  (Forall (fun row => (2 <= length row)%nat) rows /\
   exists samples,
     Loader.create_samples rows = Ok samples /\
     NoDup (dict_keys samples) /\
     (forall k, k ∈ dict_keys samples <-> k ∈ map index_key rows) /\
     (forall k, dict_get k samples = index_lookup k rows) /\
     Forall as_built (dict_values samples)).
Proof.
  destruct (decide (Forall (fun row : list string => (2 <= length row)%nat)
                      rows)) as [Hall|Hex].
  - right. split; [exact Hall|].
    destruct (create_samples_spec rows Hall) as (samples & E & Hnd & Hk & Hl).
    exists samples. split; [exact E|]. split; [exact Hnd|].
    split; [exact Hk|]. split; [exact Hl|].
    eapply create_samples_as_built; [exact E | constructor].
  - left. assert (Hs : Exists (fun row => (length row < 2)%nat) rows).
    { apply not_Forall_Exists in Hex; [|apply _].
      eapply Exists_impl; [exact Hex|]. simpl. intros row Hrow. lia. }
    split; [exact Hs|]. apply create_samples_fold_short, Hs.
Qed.
